(** * Baseball broadcast board: the operator panel and the display board

    A shallow embedding of the two browser clients of the scoreboard:
    the operator control panel (the Vue application whose data holds the
    game state, the reconnecting WebSocket and the master/slave role) and
    the display board ([public/js/board.js]).

    Conventions of the embedding.
    - JavaScript numbers that the program uses as counters (balls,
      strikes, outs, innings, scores, attempt counts, millisecond delays)
      are integers of [Z]; every value the code computes from its initial
      data stays far below 2^53, where doubles are exact.
    - JavaScript strings are [string]; a character stands for the code
      unit of the same number (0..255).
    - [null] and a missing property are [None].
    - The methods mutate [this]; here each method takes the state and
      returns the new one. *)

From stdpp Require Import base decidable option list strings gmap fin_maps.
From Stdlib Require Import ZArith Ascii String Bool Lia.

Local Open Scope string_scope.
Local Open Scope Z_scope.

(** ** The board data

    The fourteen fields that the operator panel collects in its computed
    property [boardData] and that the display board keeps in
    [data.boardData]. *)

Record BoardData : Type := mkBoardData {
  game_title : string;
  team_top : string;
  team_bottom : string;
  game_inning : Z;
  last_inning : Z;
  top : bool;
  first_base : bool;
  second_base : bool;
  third_base : bool;
  ball_cnt : Z;
  strike_cnt : Z;
  out_cnt : Z;
  score_top : Z;
  score_bottom : Z
}.

#[global] Instance BoardData_eq_dec : EqDecision BoardData.
Proof. solve_decision. Defined.

(** Assignments [this.f = v], one per field. *)

Definition set_game_title (v : string) (d : BoardData) : BoardData :=
  {| game_title := v; team_top := team_top d; team_bottom := team_bottom d;
     game_inning := game_inning d; last_inning := last_inning d;
     top := top d; first_base := first_base d; second_base := second_base d;
     third_base := third_base d; ball_cnt := ball_cnt d;
     strike_cnt := strike_cnt d; out_cnt := out_cnt d;
     score_top := score_top d; score_bottom := score_bottom d |}.

Definition set_team_top (v : string) (d : BoardData) : BoardData :=
  {| game_title := game_title d; team_top := v; team_bottom := team_bottom d;
     game_inning := game_inning d; last_inning := last_inning d;
     top := top d; first_base := first_base d; second_base := second_base d;
     third_base := third_base d; ball_cnt := ball_cnt d;
     strike_cnt := strike_cnt d; out_cnt := out_cnt d;
     score_top := score_top d; score_bottom := score_bottom d |}.

Definition set_team_bottom (v : string) (d : BoardData) : BoardData :=
  {| game_title := game_title d; team_top := team_top d; team_bottom := v;
     game_inning := game_inning d; last_inning := last_inning d;
     top := top d; first_base := first_base d; second_base := second_base d;
     third_base := third_base d; ball_cnt := ball_cnt d;
     strike_cnt := strike_cnt d; out_cnt := out_cnt d;
     score_top := score_top d; score_bottom := score_bottom d |}.

Definition set_game_inning (v : Z) (d : BoardData) : BoardData :=
  {| game_title := game_title d; team_top := team_top d;
     team_bottom := team_bottom d; game_inning := v;
     last_inning := last_inning d; top := top d; first_base := first_base d;
     second_base := second_base d; third_base := third_base d;
     ball_cnt := ball_cnt d; strike_cnt := strike_cnt d;
     out_cnt := out_cnt d; score_top := score_top d;
     score_bottom := score_bottom d |}.

Definition set_last_inning (v : Z) (d : BoardData) : BoardData :=
  {| game_title := game_title d; team_top := team_top d;
     team_bottom := team_bottom d; game_inning := game_inning d;
     last_inning := v; top := top d; first_base := first_base d;
     second_base := second_base d; third_base := third_base d;
     ball_cnt := ball_cnt d; strike_cnt := strike_cnt d;
     out_cnt := out_cnt d; score_top := score_top d;
     score_bottom := score_bottom d |}.

Definition set_top (v : bool) (d : BoardData) : BoardData :=
  {| game_title := game_title d; team_top := team_top d;
     team_bottom := team_bottom d; game_inning := game_inning d;
     last_inning := last_inning d; top := v; first_base := first_base d;
     second_base := second_base d; third_base := third_base d;
     ball_cnt := ball_cnt d; strike_cnt := strike_cnt d;
     out_cnt := out_cnt d; score_top := score_top d;
     score_bottom := score_bottom d |}.

Definition set_first_base (v : bool) (d : BoardData) : BoardData :=
  {| game_title := game_title d; team_top := team_top d;
     team_bottom := team_bottom d; game_inning := game_inning d;
     last_inning := last_inning d; top := top d; first_base := v;
     second_base := second_base d; third_base := third_base d;
     ball_cnt := ball_cnt d; strike_cnt := strike_cnt d;
     out_cnt := out_cnt d; score_top := score_top d;
     score_bottom := score_bottom d |}.

Definition set_second_base (v : bool) (d : BoardData) : BoardData :=
  {| game_title := game_title d; team_top := team_top d;
     team_bottom := team_bottom d; game_inning := game_inning d;
     last_inning := last_inning d; top := top d; first_base := first_base d;
     second_base := v; third_base := third_base d; ball_cnt := ball_cnt d;
     strike_cnt := strike_cnt d; out_cnt := out_cnt d;
     score_top := score_top d; score_bottom := score_bottom d |}.

Definition set_third_base (v : bool) (d : BoardData) : BoardData :=
  {| game_title := game_title d; team_top := team_top d;
     team_bottom := team_bottom d; game_inning := game_inning d;
     last_inning := last_inning d; top := top d; first_base := first_base d;
     second_base := second_base d; third_base := v; ball_cnt := ball_cnt d;
     strike_cnt := strike_cnt d; out_cnt := out_cnt d;
     score_top := score_top d; score_bottom := score_bottom d |}.

Definition set_ball_cnt (v : Z) (d : BoardData) : BoardData :=
  {| game_title := game_title d; team_top := team_top d;
     team_bottom := team_bottom d; game_inning := game_inning d;
     last_inning := last_inning d; top := top d; first_base := first_base d;
     second_base := second_base d; third_base := third_base d; ball_cnt := v;
     strike_cnt := strike_cnt d; out_cnt := out_cnt d;
     score_top := score_top d; score_bottom := score_bottom d |}.

Definition set_strike_cnt (v : Z) (d : BoardData) : BoardData :=
  {| game_title := game_title d; team_top := team_top d;
     team_bottom := team_bottom d; game_inning := game_inning d;
     last_inning := last_inning d; top := top d; first_base := first_base d;
     second_base := second_base d; third_base := third_base d;
     ball_cnt := ball_cnt d; strike_cnt := v; out_cnt := out_cnt d;
     score_top := score_top d; score_bottom := score_bottom d |}.

Definition set_out_cnt (v : Z) (d : BoardData) : BoardData :=
  {| game_title := game_title d; team_top := team_top d;
     team_bottom := team_bottom d; game_inning := game_inning d;
     last_inning := last_inning d; top := top d; first_base := first_base d;
     second_base := second_base d; third_base := third_base d;
     ball_cnt := ball_cnt d; strike_cnt := strike_cnt d; out_cnt := v;
     score_top := score_top d; score_bottom := score_bottom d |}.

Definition set_score_top (v : Z) (d : BoardData) : BoardData :=
  {| game_title := game_title d; team_top := team_top d;
     team_bottom := team_bottom d; game_inning := game_inning d;
     last_inning := last_inning d; top := top d; first_base := first_base d;
     second_base := second_base d; third_base := third_base d;
     ball_cnt := ball_cnt d; strike_cnt := strike_cnt d;
     out_cnt := out_cnt d; score_top := v; score_bottom := score_bottom d |}.

Definition set_score_bottom (v : Z) (d : BoardData) : BoardData :=
  {| game_title := game_title d; team_top := team_top d;
     team_bottom := team_bottom d; game_inning := game_inning d;
     last_inning := last_inning d; top := top d; first_base := first_base d;
     second_base := second_base d; third_base := third_base d;
     ball_cnt := ball_cnt d; strike_cnt := strike_cnt d;
     out_cnt := out_cnt d; score_top := score_top d; score_bottom := v |}.

(** ** JavaScript truthiness and [||]

    [a || b] is [a] when [a] is truthy and [b] otherwise.  A property
    read of a payload is an [option]: [None] is [undefined], falsy. *)

Definition truthy_num (z : Z) : bool := negb (z =? 0).
Definition truthy_bool (b : bool) : bool := b.
Definition truthy_str (s : string) : bool := negb (String.eqb s "").

Definition js_or {A : Type} (truthy : A -> bool) (a : option A) (b : A) : A :=
  match a with
  | Some v => if truthy v then v else b
  | None => b
  end.

(** Truthiness of an optional string such as [message.masterToken]. *)
Definition truthy_opt_str (o : option string) : bool :=
  match o with
  | Some s => truthy_str s
  | None => false
  end.

(** ** The game operations of the operator panel (methods of the app) *)

Module Game.

Definition initParams (d : BoardData) : BoardData :=
  let d := set_first_base false d in
  let d := set_second_base false d in
  let d := set_third_base false d in
  let d := set_ball_cnt 0 d in
  let d := set_strike_cnt 0 d in
  set_out_cnt 0 d.

Definition resetBSO (d : BoardData) : BoardData :=
  let d := set_ball_cnt 0 d in
  let d := set_strike_cnt 0 d in
  set_out_cnt 0 d.

Definition resetBS (d : BoardData) : BoardData :=
  let d := set_ball_cnt 0 d in
  set_strike_cnt 0 d.

(** The three phases of [inningMsg]. *)
Inductive InningMsg : Type :=
| BeforeGame
| GameOver
| Playing (inning : Z) (is_top : bool).

Definition inningMsg (d : BoardData) : InningMsg :=
  if game_inning d <? 1 then BeforeGame
  else if game_inning d >? last_inning d then GameOver
  else Playing (game_inning d) (top d).

Definition changeOffense (d : BoardData) : BoardData :=
  let d := if top d then set_top false d else set_top true d in
  initParams d.

Definition isPlaying (d : BoardData) : bool :=
  if (game_inning d >=? 1) && (game_inning d <=? last_inning d)
  then true else false.

Definition ballCountUp (d : BoardData) : BoardData :=
  if ball_cnt d <? 3 then set_ball_cnt (ball_cnt d + 1) d else d.

Definition ballCountDown (d : BoardData) : BoardData :=
  if ball_cnt d >=? 1 then set_ball_cnt (ball_cnt d - 1) d else d.

Definition strikeCountUp (d : BoardData) : BoardData :=
  if strike_cnt d <? 2 then set_strike_cnt (strike_cnt d + 1) d else d.

Definition strikeCountDown (d : BoardData) : BoardData :=
  if strike_cnt d >=? 1 then set_strike_cnt (strike_cnt d - 1) d else d.

Definition outCountUp (d : BoardData) : BoardData :=
  if out_cnt d <? 2 then set_out_cnt (out_cnt d + 1) d else d.

Definition outCountDown (d : BoardData) : BoardData :=
  if out_cnt d >=? 1 then set_out_cnt (out_cnt d - 1) d else d.

Definition gameStatusUp (d : BoardData) : BoardData :=
  if game_inning d <? last_inning d + 1
  then initParams (set_game_inning (game_inning d + 1) d)
  else d.

Definition gameStatusDown (d : BoardData) : BoardData :=
  if game_inning d >? 0
  then initParams (set_game_inning (game_inning d - 1) d)
  else d.

Definition gameForward (d : BoardData) : BoardData :=
  if game_inning d <=? last_inning d then
    let d :=
      if top d then set_top false d
      else set_top true (set_game_inning (game_inning d + 1) d) in
    initParams d
  else d.

Definition gameBackward (d : BoardData) : BoardData :=
  if game_inning d >=? 1 then
    let d :=
      if top d then set_top false (set_game_inning (game_inning d - 1) d)
      else set_top true d in
    let d := initParams d in
    if game_inning d =? 0
    then set_score_bottom 0 (set_score_top 0 d)
    else d
  else d.

Definition incrementScoreTop (d : BoardData) : BoardData :=
  set_score_top (score_top d + 1) d.

Definition decrementScoreTop (d : BoardData) : BoardData :=
  if score_top d >? 0 then set_score_top (score_top d - 1) d else d.

Definition incrementScoreBottom (d : BoardData) : BoardData :=
  set_score_bottom (score_bottom d + 1) d.

Definition decrementScoreBottom (d : BoardData) : BoardData :=
  if score_bottom d >? 0 then set_score_bottom (score_bottom d - 1) d else d.

(** [resetGame] asks [confirm(...)]; [confirmed] is the operator's answer. *)
Definition resetGame (confirmed : bool) (d : BoardData) : BoardData :=
  if negb confirmed then d
  else
    let d := set_game_inning 0 d in
    let d := set_top true d in
    let d := set_score_top 0 d in
    let d := set_score_bottom 0 d in
    initParams d.

Definition endGame (d : BoardData) : BoardData :=
  initParams (set_game_inning (last_inning d + 1) d).

(** The operations a control of the panel can invoke. *)
Inductive Op : Type :=
| OpInitParams | OpResetBSO | OpResetBS | OpChangeOffense
| OpBallCountUp | OpBallCountDown
| OpStrikeCountUp | OpStrikeCountDown
| OpOutCountUp | OpOutCountDown
| OpGameStatusUp | OpGameStatusDown
| OpGameForward | OpGameBackward
| OpIncrementScoreTop | OpDecrementScoreTop
| OpIncrementScoreBottom | OpDecrementScoreBottom
| OpResetGame (confirmed : bool)
| OpEndGame.

Definition run_op (o : Op) : BoardData -> BoardData :=
  match o with
  | OpInitParams => initParams
  | OpResetBSO => resetBSO
  | OpResetBS => resetBS
  | OpChangeOffense => changeOffense
  | OpBallCountUp => ballCountUp
  | OpBallCountDown => ballCountDown
  | OpStrikeCountUp => strikeCountUp
  | OpStrikeCountDown => strikeCountDown
  | OpOutCountUp => outCountUp
  | OpOutCountDown => outCountDown
  | OpGameStatusUp => gameStatusUp
  | OpGameStatusDown => gameStatusDown
  | OpGameForward => gameForward
  | OpGameBackward => gameBackward
  | OpIncrementScoreTop => incrementScoreTop
  | OpDecrementScoreTop => decrementScoreTop
  | OpIncrementScoreBottom => incrementScoreBottom
  | OpDecrementScoreBottom => decrementScoreBottom
  | OpResetGame confirmed => resetGame confirmed
  | OpEndGame => endGame
  end.

End Game.

(** ** Inbound messages

    A parsed JSON message.  The payload of a game state carries any subset
    of the fourteen fields; a field that is present carries a value of the
    field's type.  [m_flat] holds the game-state properties found on the
    message object itself (the flat, legacy shape). *)

Record Payload : Type := mkPayload {
  p_game_title : option string;
  p_team_top : option string;
  p_team_bottom : option string;
  p_game_inning : option Z;
  p_last_inning : option Z;
  p_top : option bool;
  p_first_base : option bool;
  p_second_base : option bool;
  p_third_base : option bool;
  p_ball_cnt : option Z;
  p_strike_cnt : option Z;
  p_out_cnt : option Z;
  p_score_top : option Z;
  p_score_bottom : option Z
}.

Definition empty_payload : Payload :=
  mkPayload None None None None None None None None None None None None
            None None.

Record Message : Type := mkMessage {
  m_type : option string;
  m_role : option string;
  m_clientId : option string;
  m_masterClientId : option string;
  m_newRole : option string;
  m_reason : option string;
  m_masterToken : option string;
  m_clearToken : bool;  (* truthiness of [message.clearToken] *)
  m_boardData : option Payload;
  m_data : option Payload;
  m_flat : Payload
}.

(** [event.data]: text that [JSON.parse] rejects (or that parses to
    [null], on which [message.type] throws), or a parsed object. *)
Inductive Inbound : Type :=
| Unparsable
| Parsed (m : Message).

(** [message.type === s] *)
Definition type_is (m : Message) (s : string) : bool :=
  match m_type m with
  | Some t => String.eqb t s
  | None => false
  end.

(** [message.type === 'game_state' || !message.type] *)
Definition is_game_state (m : Message) : bool :=
  type_is m "game_state" || negb (truthy_opt_str (m_type m)).

(** [message.boardData || message.data || message]; an object is truthy. *)
Definition state_payload (m : Message) : Payload :=
  match m_boardData m with
  | Some p => p
  | None =>
    match m_data m with
    | Some p => p
    | None => m_flat m
    end
  end.

(** The fields by name, to state properties for every field at once. *)
Inductive Field : Type :=
| F_game_title | F_team_top | F_team_bottom | F_game_inning | F_last_inning
| F_top | F_first_base | F_second_base | F_third_base
| F_ball_cnt | F_strike_cnt | F_out_cnt | F_score_top | F_score_bottom.

Inductive Value : Type :=
| VStr (s : string)
| VNum (z : Z)
| VBool (b : bool).

Definition get_field (f : Field) (d : BoardData) : Value :=
  match f with
  | F_game_title => VStr (game_title d)
  | F_team_top => VStr (team_top d)
  | F_team_bottom => VStr (team_bottom d)
  | F_game_inning => VNum (game_inning d)
  | F_last_inning => VNum (last_inning d)
  | F_top => VBool (top d)
  | F_first_base => VBool (first_base d)
  | F_second_base => VBool (second_base d)
  | F_third_base => VBool (third_base d)
  | F_ball_cnt => VNum (ball_cnt d)
  | F_strike_cnt => VNum (strike_cnt d)
  | F_out_cnt => VNum (out_cnt d)
  | F_score_top => VNum (score_top d)
  | F_score_bottom => VNum (score_bottom d)
  end.

(** [newData.f], with [None] when ['f' in newData] is false. *)
Definition payload_field (f : Field) (p : Payload) : option Value :=
  match f with
  | F_game_title => VStr <$> p_game_title p
  | F_team_top => VStr <$> p_team_top p
  | F_team_bottom => VStr <$> p_team_bottom p
  | F_game_inning => VNum <$> p_game_inning p
  | F_last_inning => VNum <$> p_last_inning p
  | F_top => VBool <$> p_top p
  | F_first_base => VBool <$> p_first_base p
  | F_second_base => VBool <$> p_second_base p
  | F_third_base => VBool <$> p_third_base p
  | F_ball_cnt => VNum <$> p_ball_cnt p
  | F_strike_cnt => VNum <$> p_strike_cnt p
  | F_out_cnt => VNum <$> p_out_cnt p
  | F_score_top => VNum <$> p_score_top p
  | F_score_bottom => VNum <$> p_score_bottom p
  end.

(** JavaScript truthiness of a value. *)
Definition truthy (v : Value) : bool :=
  match v with
  | VStr s => truthy_str s
  | VNum z => truthy_num z
  | VBool b => truthy_bool b
  end.

(** Presence-based merge, as the specification words it: a field takes
    the payload's value exactly when the payload contains the field, and
    keeps its local value otherwise. *)
Definition presence_merge (apply : Payload -> BoardData -> BoardData) : Prop :=
  forall (p : Payload) (d : BoardData) (f : Field),
    get_field f (apply p d) =
    match payload_field f p with
    | Some v => v
    | None => get_field f d
    end.

(** The snapshot [boardData] serialised into a [game_state_update]. *)
Definition snapshot (d : BoardData) : Payload :=
  {| p_game_title := Some (game_title d); p_team_top := Some (team_top d);
     p_team_bottom := Some (team_bottom d);
     p_game_inning := Some (game_inning d);
     p_last_inning := Some (last_inning d); p_top := Some (top d);
     p_first_base := Some (first_base d);
     p_second_base := Some (second_base d);
     p_third_base := Some (third_base d); p_ball_cnt := Some (ball_cnt d);
     p_strike_cnt := Some (strike_cnt d); p_out_cnt := Some (out_cnt d);
     p_score_top := Some (score_top d);
     p_score_bottom := Some (score_bottom d) |}.

(** A message of type [game_state] carrying [p] under [boardData]. *)
Definition game_state_message (p : Payload) : Message :=
  {| m_type := Some "game_state"; m_role := None; m_clientId := None;
     m_masterClientId := None; m_newRole := None; m_reason := None;
     m_masterToken := None; m_clearToken := false;
     m_boardData := Some p; m_data := None; m_flat := empty_payload |}.

(** ** The operator panel *)

Module Operation.

Inductive ConnectionStatus : Type :=
| connecting | connected | reconnecting | disconnected.

#[global] Instance ConnectionStatus_eq_dec : EqDecision ConnectionStatus.
Proof. solve_decision. Defined.

(** [WebSocket.readyState] *)
Inductive ReadyState : Type :=
| CONNECTING | OPEN | CLOSING | CLOSED.

#[global] Instance ReadyState_eq_dec : EqDecision ReadyState.
Proof. solve_decision. Defined.

(** What the client writes to a socket. *)
Inductive Outgoing : Type :=
| Handshake (clientType : string) (masterToken : option string)
| GameStateUpdate (boardData : BoardData)
| ReleaseMaster.

(** The reactive data of the app.  [board] groups the data fields that
    the computed property [boardData] returns; [socket] and
    [reconnectTimer] hold handles into the runtime below.  The dropdown
    lists ([game_array], [team_items]) and the unused [message] and
    [game_start] are left out. *)
Record App : Type := mkApp {
  board : BoardData;
  socket : option nat;
  restoredFromServer : bool;
  connectionStatus : ConnectionStatus;
  reconnectAttempts : Z;
  maxReconnectAttempts : Z;
  reconnectDelay : Z;
  reconnectTimer : option positive;
  clientRole : option string;
  clientId : option string;
  masterClientId : option string
}.

(** The app together with the browser runtime it acts on: the WebSocket
    objects created so far with their [readyState], the pending
    [setTimeout] timers with their delay in milliseconds (timer handles
    are positive integers, hence truthy), [sessionStorage], and the log
    of messages handed to [socket.send]. *)
Record World : Type := mkWorld {
  app : App;
  sockets : gmap nat ReadyState;
  next_socket : nat;
  timers : gmap positive Z;
  next_timer : positive;
  sessionStorage : gmap string string;
  sent : list (nat * Outgoing)
}.

Definition set_board (v : BoardData) (a : App) : App :=
  {| board := v; socket := socket a;
     restoredFromServer := restoredFromServer a;
     connectionStatus := connectionStatus a;
     reconnectAttempts := reconnectAttempts a;
     maxReconnectAttempts := maxReconnectAttempts a;
     reconnectDelay := reconnectDelay a; reconnectTimer := reconnectTimer a;
     clientRole := clientRole a; clientId := clientId a;
     masterClientId := masterClientId a |}.

Definition set_socket (v : option nat) (a : App) : App :=
  {| board := board a; socket := v;
     restoredFromServer := restoredFromServer a;
     connectionStatus := connectionStatus a;
     reconnectAttempts := reconnectAttempts a;
     maxReconnectAttempts := maxReconnectAttempts a;
     reconnectDelay := reconnectDelay a; reconnectTimer := reconnectTimer a;
     clientRole := clientRole a; clientId := clientId a;
     masterClientId := masterClientId a |}.

Definition set_restoredFromServer (v : bool) (a : App) : App :=
  {| board := board a; socket := socket a; restoredFromServer := v;
     connectionStatus := connectionStatus a;
     reconnectAttempts := reconnectAttempts a;
     maxReconnectAttempts := maxReconnectAttempts a;
     reconnectDelay := reconnectDelay a; reconnectTimer := reconnectTimer a;
     clientRole := clientRole a; clientId := clientId a;
     masterClientId := masterClientId a |}.

Definition set_connectionStatus (v : ConnectionStatus) (a : App) : App :=
  {| board := board a; socket := socket a;
     restoredFromServer := restoredFromServer a; connectionStatus := v;
     reconnectAttempts := reconnectAttempts a;
     maxReconnectAttempts := maxReconnectAttempts a;
     reconnectDelay := reconnectDelay a; reconnectTimer := reconnectTimer a;
     clientRole := clientRole a; clientId := clientId a;
     masterClientId := masterClientId a |}.

Definition set_reconnectAttempts (v : Z) (a : App) : App :=
  {| board := board a; socket := socket a;
     restoredFromServer := restoredFromServer a;
     connectionStatus := connectionStatus a; reconnectAttempts := v;
     maxReconnectAttempts := maxReconnectAttempts a;
     reconnectDelay := reconnectDelay a; reconnectTimer := reconnectTimer a;
     clientRole := clientRole a; clientId := clientId a;
     masterClientId := masterClientId a |}.

Definition set_maxReconnectAttempts (v : Z) (a : App) : App :=
  {| board := board a; socket := socket a;
     restoredFromServer := restoredFromServer a;
     connectionStatus := connectionStatus a;
     reconnectAttempts := reconnectAttempts a; maxReconnectAttempts := v;
     reconnectDelay := reconnectDelay a; reconnectTimer := reconnectTimer a;
     clientRole := clientRole a; clientId := clientId a;
     masterClientId := masterClientId a |}.

Definition set_reconnectDelay (v : Z) (a : App) : App :=
  {| board := board a; socket := socket a;
     restoredFromServer := restoredFromServer a;
     connectionStatus := connectionStatus a;
     reconnectAttempts := reconnectAttempts a;
     maxReconnectAttempts := maxReconnectAttempts a; reconnectDelay := v;
     reconnectTimer := reconnectTimer a; clientRole := clientRole a;
     clientId := clientId a; masterClientId := masterClientId a |}.

Definition set_reconnectTimer (v : option positive) (a : App) : App :=
  {| board := board a; socket := socket a;
     restoredFromServer := restoredFromServer a;
     connectionStatus := connectionStatus a;
     reconnectAttempts := reconnectAttempts a;
     maxReconnectAttempts := maxReconnectAttempts a;
     reconnectDelay := reconnectDelay a; reconnectTimer := v;
     clientRole := clientRole a; clientId := clientId a;
     masterClientId := masterClientId a |}.

Definition set_clientRole (v : option string) (a : App) : App :=
  {| board := board a; socket := socket a;
     restoredFromServer := restoredFromServer a;
     connectionStatus := connectionStatus a;
     reconnectAttempts := reconnectAttempts a;
     maxReconnectAttempts := maxReconnectAttempts a;
     reconnectDelay := reconnectDelay a; reconnectTimer := reconnectTimer a;
     clientRole := v; clientId := clientId a;
     masterClientId := masterClientId a |}.

Definition set_clientId (v : option string) (a : App) : App :=
  {| board := board a; socket := socket a;
     restoredFromServer := restoredFromServer a;
     connectionStatus := connectionStatus a;
     reconnectAttempts := reconnectAttempts a;
     maxReconnectAttempts := maxReconnectAttempts a;
     reconnectDelay := reconnectDelay a; reconnectTimer := reconnectTimer a;
     clientRole := clientRole a; clientId := v;
     masterClientId := masterClientId a |}.

Definition set_masterClientId (v : option string) (a : App) : App :=
  {| board := board a; socket := socket a;
     restoredFromServer := restoredFromServer a;
     connectionStatus := connectionStatus a;
     reconnectAttempts := reconnectAttempts a;
     maxReconnectAttempts := maxReconnectAttempts a;
     reconnectDelay := reconnectDelay a; reconnectTimer := reconnectTimer a;
     clientRole := clientRole a; clientId := clientId a;
     masterClientId := v |}.

Definition set_app (v : App) (w : World) : World :=
  {| app := v; sockets := sockets w; next_socket := next_socket w;
     timers := timers w; next_timer := next_timer w;
     sessionStorage := sessionStorage w; sent := sent w |}.

Definition set_sockets (v : gmap nat ReadyState) (w : World) : World :=
  {| app := app w; sockets := v; next_socket := next_socket w;
     timers := timers w; next_timer := next_timer w;
     sessionStorage := sessionStorage w; sent := sent w |}.

Definition set_next_socket (v : nat) (w : World) : World :=
  {| app := app w; sockets := sockets w; next_socket := v;
     timers := timers w; next_timer := next_timer w;
     sessionStorage := sessionStorage w; sent := sent w |}.

Definition set_timers (v : gmap positive Z) (w : World) : World :=
  {| app := app w; sockets := sockets w; next_socket := next_socket w;
     timers := v; next_timer := next_timer w;
     sessionStorage := sessionStorage w; sent := sent w |}.

Definition set_next_timer (v : positive) (w : World) : World :=
  {| app := app w; sockets := sockets w; next_socket := next_socket w;
     timers := timers w; next_timer := v; sessionStorage := sessionStorage w;
     sent := sent w |}.

Definition set_sessionStorage (v : gmap string string) (w : World) : World :=
  {| app := app w; sockets := sockets w; next_socket := next_socket w;
     timers := timers w; next_timer := next_timer w; sessionStorage := v;
     sent := sent w |}.

Definition set_sent (v : list (nat * Outgoing)) (w : World) : World :=
  {| app := app w; sockets := sockets w; next_socket := next_socket w;
     timers := timers w; next_timer := next_timer w;
     sessionStorage := sessionStorage w; sent := v |}.

Definition upd_app (f : App -> App) (w : World) : World :=
  set_app (f (app w)) w.

(** [data: () => ({...})] *)
Definition initial_board : BoardData :=
  {| game_title := ""; team_top := ""; team_bottom := ""; game_inning := 0;
     last_inning := 9; top := false; first_base := false;
     second_base := false; third_base := false; ball_cnt := 0;
     strike_cnt := 0; out_cnt := 0; score_top := 0; score_bottom := 0 |}.

Definition initial_app : App :=
  {| board := initial_board; socket := None; restoredFromServer := false;
     connectionStatus := connecting; reconnectAttempts := 0;
     maxReconnectAttempts := 10; reconnectDelay := 1000;
     reconnectTimer := None; clientRole := None; clientId := None;
     masterClientId := None |}.

(** A page that has just loaded; [storage] is what the tab's
    [sessionStorage] holds from before. *)
Definition fresh_world (storage : gmap string string) : World :=
  {| app := initial_app; sockets := ∅; next_socket := 0%nat; timers := ∅;
     next_timer := 1%positive; sessionStorage := storage; sent := [] |}.

(** [s === lit] for an optional string. *)
Definition opt_str_is (o : option string) (lit : string) : bool :=
  match o with
  | Some s => String.eqb s lit
  | None => false
  end.

Definition isOperationDisabled (a : App) : bool :=
  opt_str_is (clientRole a) "slave".

Definition isMaster (a : App) : bool :=
  opt_str_is (clientRole a) "master".

(** [this.socket && this.socket.readyState === WebSocket.OPEN] *)
Definition socket_open (w : World) : bool :=
  match socket (app w) with
  | Some s => bool_decide (sockets w !! s = Some OPEN)
  | None => false
  end.

(** [this.socket.send(msg)]: the message leaves on an open socket; a
    closing or closed socket drops it, and on a connecting one [send]
    throws, in both cases nothing is sent. *)
Definition socket_send (msg : Outgoing) (w : World) : World :=
  match socket (app w) with
  | Some s =>
    if bool_decide (sockets w !! s = Some OPEN)
    then set_sent (sent w ++ [(s, msg)]) w
    else w
  | None => w
  end.

Definition cancelReconnect (w : World) : World :=
  match reconnectTimer (app w) with
  | Some t =>
    let w := set_timers (delete t (timers w)) w in
    upd_app (set_reconnectTimer None) w
  | None => w
  end.

(** The delay of the exponential backoff. *)
Definition backoff_delay (a : App) : Z :=
  Z.min (reconnectDelay a * 2 ^ reconnectAttempts a) 30000.

(** [scheduleReconnect]; the callback it hands to [setTimeout] is
    [reconnect_timer_fired] below. *)
Definition scheduleReconnect (w : World) : World :=
  let w := cancelReconnect w in
  if reconnectAttempts (app w) >=? maxReconnectAttempts (app w) then
    upd_app (set_connectionStatus disconnected) w
  else
    let delay := backoff_delay (app w) in
    let t := next_timer w in
    let w := set_timers (<[t := delay]> (timers w)) w in
    let w := set_next_timer (t + 1)%positive w in
    upd_app (set_reconnectTimer (Some t)) w.

(** [connectWebSocket]; [constructed] tells whether [new WebSocket(...)]
    returned (otherwise it threw and the [catch] runs). *)
Definition connectWebSocket (constructed : bool) (w : World) : World :=
  if constructed then
    let s := next_socket w in
    let w := set_sockets (<[s := CONNECTING]> (sockets w)) w in
    let w := set_next_socket (S s) w in
    upd_app (set_socket (Some s)) w
  else scheduleReconnect w.

(** The body of the timer callback. *)
Definition reconnect_timer_fired (constructed : bool) (w : World) : World :=
  let w := upd_app (fun a => set_reconnectAttempts (reconnectAttempts a + 1) a) w in
  connectWebSocket constructed w.

Definition handleWebSocketOpen (w : World) : World :=
  let w := upd_app (set_connectionStatus connected) w in
  let w := upd_app (set_reconnectAttempts 0) w in
  let storedToken := sessionStorage w !! "masterToken" in
  let handshakeMessage :=
    if truthy_opt_str storedToken
    then Handshake "operation" storedToken
    else Handshake "operation" None in
  socket_send handshakeMessage w.

(** Lines 249-262: every field is assigned [savedState.f || fallback]. *)
Definition restoreState (savedState : Payload) (d : BoardData) : BoardData :=
  let d := set_game_title (js_or truthy_str (p_game_title savedState) (game_title d)) d in
  let d := set_team_top (js_or truthy_str (p_team_top savedState) (team_top d)) d in
  let d := set_team_bottom (js_or truthy_str (p_team_bottom savedState) (team_bottom d)) d in
  let d := set_game_inning (js_or truthy_num (p_game_inning savedState) 0) d in
  let d := set_last_inning (js_or truthy_num (p_last_inning savedState) 9) d in
  let d := set_top (js_or truthy_bool (p_top savedState) false) d in
  let d := set_first_base (js_or truthy_bool (p_first_base savedState) false) d in
  let d := set_second_base (js_or truthy_bool (p_second_base savedState) false) d in
  let d := set_third_base (js_or truthy_bool (p_third_base savedState) false) d in
  let d := set_ball_cnt (js_or truthy_num (p_ball_cnt savedState) 0) d in
  let d := set_strike_cnt (js_or truthy_num (p_strike_cnt savedState) 0) d in
  let d := set_out_cnt (js_or truthy_num (p_out_cnt savedState) 0) d in
  let d := set_score_top (js_or truthy_num (p_score_top savedState) 0) d in
  set_score_bottom (js_or truthy_num (p_score_bottom savedState) 0) d.

(** [sessionStorage.setItem('masterToken', message.masterToken)] when
    [role === 'master' && message.masterToken]. *)
Definition store_token (role : option string) (m : Message) (w : World) : World :=
  if opt_str_is role "master" && truthy_opt_str (m_masterToken m) then
    match m_masterToken m with
    | Some tok => set_sessionStorage (<["masterToken" := tok]> (sessionStorage w)) w
    | None => w
    end
  else w.

Definition handleWebSocketMessage (data : Inbound) (w : World) : World :=
  match data with
  | Unparsable => w
  | Parsed m =>
    if type_is m "role_assignment" then
      let w := upd_app (set_clientRole (m_role m)) w in
      let w := upd_app (set_clientId (m_clientId m)) w in
      let w := upd_app (set_masterClientId (m_masterClientId m)) w in
      store_token (m_role m) m w
    else if type_is m "role_changed" then
      let w := upd_app (set_clientRole (m_newRole m)) w in
      let w := store_token (m_newRole m) m w in
      if m_clearToken m
      then set_sessionStorage (delete "masterToken" (sessionStorage w)) w
      else w
    else if is_game_state m then
      let savedState := state_payload m in
      let w := upd_app (fun a => set_board (restoreState savedState (board a)) a) w in
      upd_app (set_restoredFromServer true) w
    else w
  end.

Definition handleWebSocketError (w : World) : World := w.

Definition handleWebSocketClose (w : World) : World :=
  if bool_decide (connectionStatus (app w) <> disconnected) then
    let w := upd_app (set_connectionStatus reconnecting) w in
    scheduleReconnect w
  else w.

Definition updateBoard (w : World) : World :=
  if socket_open w && opt_str_is (clientRole (app w)) "master"
  then socket_send (GameStateUpdate (board (app w))) w
  else w.

(** The handler of the deep watcher on [boardData]. *)
Definition boardData_watcher (w : World) : World :=
  if restoredFromServer (app w)
  then upd_app (set_restoredFromServer false) w
  else updateBoard w.

Definition releaseMasterControl (confirmed : bool) (w : World) : World :=
  if negb (opt_str_is (clientRole (app w)) "master") then w
  else if negb confirmed then w
  else if socket_open w then
    let w := socket_send ReleaseMaster w in
    set_sessionStorage (delete "masterToken" (sessionStorage w)) w
  else w.

(** What [fetch("/init_data.json")] delivers, as far as the board data
    is concerned. *)
Record InitData : Type := mkInitData {
  i_game_title : string;
  i_team_top : string;
  i_team_bottom : string;
  i_last_inning : option Z
}.

(** The [then] callback of [loadConfiguration]. *)
Definition loadConfiguration (forceReload : bool) (data : InitData) (a : App) : App :=
  if forceReload || negb (restoredFromServer a) then
    let d := board a in
    let d := set_game_title (i_game_title data) d in
    let d := set_team_top (i_team_top data) d in
    let d := set_team_bottom (i_team_bottom data) d in
    let d := match i_last_inning data with
             | Some n => set_last_inning n d
             | None => d
             end in
    set_board d a
  else a.

(** The [then] callback of [loadFromInitData], reached after the operator
    confirmed and the file was fetched. *)
Definition loadFromInitData (data : InitData) (d : BoardData) : BoardData :=
  let d := set_game_title (js_or truthy_str (Some (i_game_title data)) "") d in
  let d := set_team_top (js_or truthy_str (Some (i_team_top data)) "") d in
  let d := set_team_bottom (js_or truthy_str (Some (i_team_bottom data)) "") d in
  let d := set_last_inning (js_or truthy_num (i_last_inning data) 9) d in
  let d := set_game_inning 0 d in
  let d := set_top true d in
  let d := set_score_top 0 d in
  let d := set_score_bottom 0 d in
  Game.initParams d.

(** [socket.close()] *)
Definition close_socket (s : nat) (w : World) : World :=
  match sockets w !! s with
  | Some CONNECTING | Some OPEN => set_sockets (<[s := CLOSING]> (sockets w)) w
  | _ => w
  end.

Definition beforeUnmount (w : World) : World :=
  let w := cancelReconnect w in
  match socket (app w) with
  | Some s => close_socket s w
  | None => w
  end.

(** [created] as far as the connection goes; the configuration arrives
    later as an event. *)
Definition created (constructed : bool) (w : World) : World :=
  connectWebSocket constructed w.

(** *** The event loop

    The app runs one callback at a time.  After a callback, Vue runs the
    [boardData] watcher once when a field of [boardData] was assigned a
    different value. *)

Inductive Event : Type :=
| EvOpen (s : nat)
| EvMessage (s : nat) (data : Inbound)
| EvError (s : nat)
| EvClose (s : nat)
| EvTimer (t : positive) (constructed : bool)
| EvOp (o : Game.Op)
| EvConfigLoaded (forceReload : bool) (data : InitData)
| EvInitDataLoaded (data : InitData)
| EvReleaseMaster (confirmed : bool)
| EvUnmount.

Definition notify (before after : World) : World :=
  if decide (board (app after) = board (app before))
  then after
  else boardData_watcher after.

(** The callback an event runs, with the runtime's own part of the event
    (the socket's new [readyState], the timer leaving the pending set);
    [None] when the runtime cannot deliver the event in this world. *)
Definition handle (e : Event) (w : World) : option World :=
  match e with
  | EvOpen s =>
    match sockets w !! s with
    | Some CONNECTING =>
      Some (handleWebSocketOpen (set_sockets (<[s := OPEN]> (sockets w)) w))
    | _ => None
    end
  | EvMessage s data =>
    match sockets w !! s with
    | Some OPEN | Some CLOSING => Some (handleWebSocketMessage data w)
    | _ => None
    end
  | EvError s =>
    match sockets w !! s with
    | Some CONNECTING | Some OPEN => Some (handleWebSocketError w)
    | _ => None
    end
  | EvClose s =>
    match sockets w !! s with
    | Some CLOSED | None => None
    | Some _ =>
      Some (handleWebSocketClose (set_sockets (<[s := CLOSED]> (sockets w)) w))
    end
  | EvTimer t constructed =>
    match timers w !! t with
    | Some _ =>
      Some (reconnect_timer_fired constructed
              (set_timers (delete t (timers w)) w))
    | None => None
    end
  | EvOp o => Some (upd_app (fun a => set_board (Game.run_op o (board a)) a) w)
  | EvConfigLoaded forceReload data =>
    Some (upd_app (loadConfiguration forceReload data) w)
  | EvInitDataLoaded data =>
    Some (upd_app (fun a => set_board (loadFromInitData data (board a)) a) w)
  | EvReleaseMaster confirmed => Some (releaseMasterControl confirmed w)
  | EvUnmount => Some (beforeUnmount w)
  end.

Definition dispatch (e : Event) (w : World) : option World :=
  notify w <$> handle e w.

Fixpoint run (es : list Event) (w : World) : option World :=
  match es with
  | [] => Some w
  | e :: es' =>
    match dispatch e w with
    | Some w' => run es' w'
    | None => None
    end
  end.

End Operation.

(** ** The display board ([public/js/board.js]) *)

Module Board.

(** The argument of [validateHexColor]: any JavaScript value. *)
Inductive JsValue : Type :=
| JsUndefined
| JsNull
| JsBool (b : bool)
| JsNumber (z : Z)
| JsString (s : string).

Record Validation : Type := mkValidation {
  valid : bool;
  normalizedColor : option string;
  error : option string
}.

Definition code (c : ascii) : N := N_of_ascii c.

(** White space and line terminators that [trim] strips, among the code
    units 0..255: TAB, LF, VT, FF, CR, SPACE and NO-BREAK SPACE. *)
Definition is_white_space (c : ascii) : bool :=
  let n := code c in
  ((9 <=? n) && (n <=? 13) || (n =? 32) || (n =? 160))%N.

Fixpoint trimStart (s : string) : string :=
  match s with
  | String c s' => if is_white_space c then trimStart s' else s
  | EmptyString => EmptyString
  end.

Fixpoint trimEnd (s : string) : string :=
  match s with
  | String c s' =>
    match trimEnd s' with
    | EmptyString => if is_white_space c then EmptyString else String c EmptyString
    | r => String c r
    end
  | EmptyString => EmptyString
  end.

Definition trim (s : string) : string := trimEnd (trimStart s).

(** [toLowerCase] on the code units 0..255: A-Z and the capital letters
    U+00C0..U+00DE (all but the multiplication sign U+00D7) move up by 32. *)
Definition lower_char (c : ascii) : ascii :=
  let n := code c in
  if ((65 <=? n) && (n <=? 90)
      || (192 <=? n) && (n <=? 222) && negb (n =? 215))%N
  then ascii_of_N (n + 32)
  else c.

Fixpoint toLowerCase (s : string) : string :=
  match s with
  | String c s' => String (lower_char c) (toLowerCase s')
  | EmptyString => EmptyString
  end.

(** The character class [[0-9a-f]]. *)
Definition is_lower_hex (c : ascii) : bool :=
  let n := code c in
  ((48 <=? n) && (n <=? 57) || (97 <=? n) && (n <=? 102))%N.

(** [[0-9a-f]{n}$]: exactly [n] characters of the class, then the end. *)
Fixpoint hex_run (n : nat) (s : string) : bool :=
  match n, s with
  | O, EmptyString => true
  | S n', String c s' => is_lower_hex c && hex_run n' s'
  | _, _ => false
  end.

(** [/^#([0-9a-f]{6}|[0-9a-f]{3})$/.test(s)] *)
Definition hexColorPattern_test (s : string) : bool :=
  match s with
  | String "#" rest => hex_run 6 rest || hex_run 3 rest
  | _ => false
  end.

(** [s[i]] inside a template literal. *)
Definition char_at (i : nat) (s : string) : string :=
  match String.get i s with
  | Some c => String c EmptyString
  | None => "undefined"
  end.

Definition validateHexColor (color : JsValue) : Validation :=
  match color with
  | JsString color =>
    if String.eqb (trim color) "" then
      {| valid := false; normalizedColor := None;
         error := Some "Color must be a non-empty string" |}
    else
      let normalized := toLowerCase (trim color) in
      if negb (hexColorPattern_test normalized) then
        {| valid := false; normalizedColor := None;
           error := Some "Color must be in hex format (#rrggbb or #rgb). Example: #ff55ff" |}
      else
        let expandedColor :=
          if Nat.eqb (String.length normalized) 4 then
            let r := char_at 1 normalized in
            let g := char_at 2 normalized in
            let b := char_at 3 normalized in
            "#" ++ r ++ r ++ g ++ g ++ b ++ b
          else normalized in
        {| valid := true; normalizedColor := Some expandedColor;
           error := None |}
  | _ =>
    {| valid := false; normalizedColor := None;
       error := Some "Color must be a non-empty string" |}
  end.

(** The board's data that the modelled methods touch, and the style
    attribute of the page body.  The connection fields and methods of the
    board are the same text as the operator panel's, see [Operation]. *)
Record App : Type := mkApp {
  boardData : BoardData;
  backgroundColor : string;
  defaultBackgroundColor : string;
  body_style_backgroundColor : string
}.

Definition initial_app : App :=
  {| boardData :=
       {| game_title := ""; team_top := ""; team_bottom := "";
          game_inning := 0; last_inning := 5; top := true;
          first_base := false; second_base := false; third_base := false;
          ball_cnt := 0; strike_cnt := 0; out_cnt := 0; score_top := 0;
          score_bottom := 0 |};
     backgroundColor := "#ff55ff";
     defaultBackgroundColor := "#ff55ff";
     body_style_backgroundColor := "" |}.

Definition setBackgroundColor (color : JsValue) (a : App) : App :=
  let validation := validateHexColor color in
  if valid validation then
    match normalizedColor validation with
    | Some c =>
      {| boardData := boardData a; backgroundColor := c;
         defaultBackgroundColor := defaultBackgroundColor a;
         body_style_backgroundColor := c |}
    | None => a
    end
  else
    {| boardData := boardData a;
       backgroundColor := defaultBackgroundColor a;
       defaultBackgroundColor := defaultBackgroundColor a;
       body_style_backgroundColor := defaultBackgroundColor a |}.

(** [if ('f' in newData) this.boardData.f = newData.f] *)
Definition assign {A : Type} (o : option A)
           (set : A -> BoardData -> BoardData) (d : BoardData) : BoardData :=
  match o with
  | Some v => set v d
  | None => d
  end.

(** Lines 193-206. *)
Definition applyBoardData (newData : Payload) (d : BoardData) : BoardData :=
  let d := assign (p_game_title newData) set_game_title d in
  let d := assign (p_team_top newData) set_team_top d in
  let d := assign (p_team_bottom newData) set_team_bottom d in
  let d := assign (p_game_inning newData) set_game_inning d in
  let d := assign (p_last_inning newData) set_last_inning d in
  let d := assign (p_top newData) set_top d in
  let d := assign (p_first_base newData) set_first_base d in
  let d := assign (p_second_base newData) set_second_base d in
  let d := assign (p_third_base newData) set_third_base d in
  let d := assign (p_ball_cnt newData) set_ball_cnt d in
  let d := assign (p_strike_cnt newData) set_strike_cnt d in
  let d := assign (p_out_cnt newData) set_out_cnt d in
  let d := assign (p_score_top newData) set_score_top d in
  assign (p_score_bottom newData) set_score_bottom d.

(** [handleWebSocketMessage]; besides the handshake on open, the board
    sends nothing. *)
Definition handleWebSocketMessage (data : Inbound) (a : App) : App :=
  match data with
  | Unparsable => a
  | Parsed m =>
    if is_game_state m then
      {| boardData := applyBoardData (state_payload m) (boardData a);
         backgroundColor := backgroundColor a;
         defaultBackgroundColor := defaultBackgroundColor a;
         body_style_backgroundColor := body_style_backgroundColor a |}
    else a
  end.

End Board.

(** ** Domains of the bounded fields (section 3 of the specification) *)

Definition in_domain (d : BoardData) : Prop :=
  0 <= ball_cnt d <= 3 /\ 0 <= strike_cnt d <= 2 /\ 0 <= out_cnt d <= 2 /\
  0 <= score_top d /\ 0 <= score_bottom d.

(** Bases and counts as [initParams] leaves them. *)
Definition bases_and_counts_reset (d : BoardData) : Prop :=
  first_base d = false /\ second_base d = false /\ third_base d = false /\
  ball_cnt d = 0 /\ strike_cnt d = 0 /\ out_cnt d = 0.

(** The fields no inning operation writes. *)
Definition same_config (d d' : BoardData) : Prop :=
  game_title d' = game_title d /\ team_top d' = team_top d /\
  team_bottom d' = team_bottom d /\ last_inning d' = last_inning d.

(** A state of a game in progress: bottom of the 3rd, full count, two
    out, runners on first and third, the score 4 to 2. *)
Definition sample_board : BoardData :=
  {| game_title := "Final"; team_top := "A"; team_bottom := "B";
     game_inning := 3; last_inning := 9; top := false; first_base := true;
     second_base := false; third_base := true; ball_cnt := 3;
     strike_cnt := 2; out_cnt := 2; score_top := 4; score_bottom := 2 |}.

(** Bottom of the 1st with the score 2 to 1. *)
Definition first_inning_bottom : BoardData :=
  set_score_bottom 1 (set_score_top 2 (set_game_inning 1 sample_board)).

(** ** Proof automation *)

Ltac unfold_ops :=
  unfold Game.run_op, Game.initParams, Game.resetBSO, Game.resetBS, Game.changeOffense, Game.ballCountUp,
    Game.ballCountDown, Game.strikeCountUp, Game.strikeCountDown, Game.outCountUp, Game.outCountDown,
    Game.gameStatusUp, Game.gameStatusDown, Game.gameForward, Game.gameBackward,
    Game.incrementScoreTop, Game.decrementScoreTop, Game.incrementScoreBottom,
    Game.decrementScoreBottom, Game.resetGame, Game.endGame.

Ltac split_tests :=
  repeat match goal with
         | |- context [if ?b then _ else _] => destruct b eqn:?
         end.

(** ** Vocabulary for the receivers *)

(** The payload [{out_cnt: 0}]. *)
Definition out0_payload : Payload :=
  {| p_game_title := None; p_team_top := None; p_team_bottom := None;
     p_game_inning := None; p_last_inning := None; p_top := None;
     p_first_base := None; p_second_base := None; p_third_base := None;
     p_ball_cnt := None; p_strike_cnt := None; p_out_cnt := Some 0;
     p_score_top := None; p_score_bottom := None |}.

Definition is_text (f : Field) : bool :=
  match f with
  | F_game_title | F_team_top | F_team_bottom => true
  | _ => false
  end.

(** What the operator panel's restore puts into a field whose payload
    value is missing or falsy: the local text for the three text fields,
    9 for the last inning, 0 for every other number and [false] for the
    flags. *)
Definition fallback (f : Field) (d : BoardData) : Value :=
  match f with
  | F_game_title | F_team_top | F_team_bottom => get_field f d
  | F_last_inning => VNum 9
  | F_top | F_first_base | F_second_base | F_third_base => VBool false
  | _ => VNum 0
  end.

(** ** Vocabulary for hex colours *)

(** A hexadecimal digit in either case. *)
Definition is_hex_digit (c : ascii) : bool :=
  let n := Board.code c in
  ((48 <=? n) && (n <=? 57) || (97 <=? n) && (n <=? 102)
   || (65 <=? n) && (n <=? 70))%N.

(** The lower-case form of a hexadecimal digit. *)
Definition lower_hex_digit (c : ascii) : ascii :=
  let n := Board.code c in
  if ((65 <=? n) && (n <=? 70))%N then ascii_of_N (n + 32) else c.

Fixpoint all_hex (s : string) : bool :=
  match s with
  | String c s' => is_hex_digit c && all_hex s'
  | EmptyString => true
  end.

(** A string is a hex colour when it is [#] followed by three or six
    hexadecimal digits of either case. *)
Definition hex_color (s : string) : Prop :=
  exists ds : string,
    s = String "#" ds /\
    (String.length ds = 3%nat \/ String.length ds = 6%nat) /\
    all_hex ds = true.

Fixpoint lower_hex_digits (s : string) : string :=
  match s with
  | String c s' => String (lower_hex_digit c) (lower_hex_digits s')
  | EmptyString => EmptyString
  end.

(** The six lower-case digits that stand for three or six digits: each
    of three digits is doubled. *)
Definition six_digit_form (ds : string) : string :=
  match lower_hex_digits ds with
  | String r (String g (String b EmptyString)) =>
    String r (String r (String g (String g (String b (String b EmptyString)))))
  | ds' => ds'
  end.

(** ** Vocabulary for the connection life cycle *)

Module Conn.
Import Operation.

(** The constants of the backoff, as [data] sets them. *)
Definition config_ok (a : App) : Prop :=
  maxReconnectAttempts a = 10 /\ reconnectDelay a = 1000.

(** Every pending timer is the one [reconnectTimer] refers to. *)
Definition timers_owned (w : World) : Prop :=
  forall (t : positive) (delay : Z),
    timers w !! t = Some delay -> reconnectTimer (app w) = Some t.

(** Only the socket that [this.socket] refers to can be other than closed. *)
Definition one_live_socket (w : World) : Prop :=
  forall (s : nat) (st : ReadyState),
    sockets w !! s = Some st -> st <> CLOSED -> socket (app w) = Some s.

(** While a timer is pending every socket is closed. *)
Definition closed_while_waiting (w : World) : Prop :=
  forall (t : positive) (delay : Z) (s : nat) (st : ReadyState),
    timers w !! t = Some delay -> sockets w !! s = Some st -> st = CLOSED.

(** Timer handles are handed out in increasing order. *)
Definition fresh_timers (w : World) : Prop :=
  forall (t : positive) (delay : Z),
    timers w !! t = Some delay -> (t < next_timer w)%positive.

Definition wf (w : World) : Prop :=
  config_ok (app w) /\ 0 <= reconnectAttempts (app w) /\
  timers_owned w /\ one_live_socket w /\ closed_while_waiting w.

(** The terminal condition: status [disconnected], no timer pending and
    no socket still connecting. *)
Definition terminal (w : World) : Prop :=
  connectionStatus (app w) = disconnected /\ timers w = ∅ /\
  forall s : nat, sockets w !! s <> Some CONNECTING.

(** The worlds the page can be in: those an event trace leads to after
    [created]. *)
Definition reachable (w : World) : Prop :=
  exists (constructed : bool) (storage : gmap string string)
         (es : list Event),
    run es (created constructed (fresh_world storage)) = Some w.

(** Every socket is closed. *)
Definition all_closed (w : World) : Prop :=
  forall (s : nat) (st : ReadyState), sockets w !! s = Some st -> st = CLOSED.

Definition is_open_event (e : Event) : bool :=
  match e with
  | EvOpen _ => true
  | _ => false
  end.

Definition is_game_state_event (e : Event) : bool :=
  match e with
  | EvMessage _ (Parsed m) => is_game_state m
  | _ => false
  end.

(** A [role_assignment] message. *)
Definition role_assignment (role : string) (token : option string) : Message :=
  {| m_type := Some "role_assignment"; m_role := Some role;
     m_clientId := Some "c1"; m_masterClientId := Some "c1";
     m_newRole := None; m_reason := None; m_masterToken := token;
     m_clearToken := false; m_boardData := None; m_data := None;
     m_flat := empty_payload |}.

(** The page after loading, connecting and being assigned [role]. *)
Definition assigned_world (role : string) : World :=
  default (fresh_world ∅)
    (run [EvOpen 0%nat;
          EvMessage 0%nat (Parsed (role_assignment role (Some "T1")))]
         (created true (fresh_world ∅))).

Definition master_world : World := assigned_world "master".
Definition slave_world : World := assigned_world "slave".

(** One failed attempt: the pending timer [t] fires, a socket [s] is
    created and closes without opening. *)
Definition failed_attempt (t : positive) (s : nat) : list Event :=
  [EvTimer t true; EvClose s].

(** The first connection closes, nine attempts in a row fail, and the
    tenth attempt is under way. *)
Definition tenth_attempt : list Event :=
  EvClose 0%nat ::
  failed_attempt 1 1 ++ failed_attempt 2 2 ++ failed_attempt 3 3 ++
  failed_attempt 4 4 ++ failed_attempt 5 5 ++ failed_attempt 6 6 ++
  failed_attempt 7 7 ++ failed_attempt 8 8 ++ failed_attempt 9 9 ++
  [EvTimer 10 true].

(** A page that has just been created. *)
Definition created_world : World := created true (fresh_world ∅).

(** The first connection closes and two attempts fail. *)
Definition two_failures : list Event :=
  EvClose 0%nat :: failed_attempt 1 1 ++ failed_attempt 2 2.

(** The world at the end of a trace, when the trace can run. *)
Definition after (es : list Event) (w : World) : World :=
  default w (run es w).

End Conn.

Module ConnView.
Import Operation.

(** Two worlds with the same connection state: status, attempts, backoff
    constants, timer and socket handles, and the runtime's sockets and
    timers. *)
Definition same_conn (w w' : World) : Prop :=
  connectionStatus (app w') = connectionStatus (app w) /\
  reconnectAttempts (app w') = reconnectAttempts (app w) /\
  maxReconnectAttempts (app w') = maxReconnectAttempts (app w) /\
  reconnectDelay (app w') = reconnectDelay (app w) /\
  reconnectTimer (app w') = reconnectTimer (app w) /\
  socket (app w') = socket (app w) /\
  sockets w' = sockets w /\ timers w' = timers w /\
  next_socket w' = next_socket w /\ next_timer w' = next_timer w.

End ConnView.

Ltac unfold_setters :=
  unfold Operation.upd_app, Operation.set_app, Operation.set_sockets,
    Operation.set_next_socket, Operation.set_timers,
    Operation.set_next_timer, Operation.set_sessionStorage,
    Operation.set_sent, Operation.set_board, Operation.set_socket,
    Operation.set_restoredFromServer, Operation.set_connectionStatus,
    Operation.set_reconnectAttempts, Operation.set_reconnectTimer,
    Operation.set_clientRole, Operation.set_clientId,
    Operation.set_masterClientId in *.

Ltac unfold_handlers :=
  unfold Operation.handleWebSocketMessage, Operation.store_token,
    Operation.releaseMasterControl, Operation.boardData_watcher,
    Operation.updateBoard, Operation.socket_send,
    Operation.handleWebSocketError, Operation.loadConfiguration in *.

Ltac case_tests :=
  repeat match goal with
         | |- context [if ?b then _ else _] => destruct b eqn:?
         | |- context [match ?o with Some _ => _ | None => _ end] =>
           destruct o eqn:?
         | |- context [match ?e with Unparsable => _ | Parsed _ => _ end] =>
           destruct e eqn:?
         end.

Ltac each_char c := destruct c as [[] [] [] [] [] [] [] []].

(** Reduce the projections of the two state records only. *)
Ltac proj_simpl :=
  cbn [Operation.app Operation.sockets Operation.next_socket
       Operation.timers Operation.next_timer Operation.sessionStorage
       Operation.sent Operation.board Operation.socket
       Operation.restoredFromServer Operation.connectionStatus
       Operation.reconnectAttempts Operation.maxReconnectAttempts
       Operation.reconnectDelay Operation.reconnectTimer
       Operation.clientRole Operation.clientId Operation.masterClientId]
    in *.

Ltac conn_cases :=
  unfold_handlers; unfold ConnView.same_conn;
  case_tests; unfold_setters; proj_simpl; repeat split; congruence.

(** ** Vocabulary for further properties of the game operations *)

(** The inning is between 0 (before the game) and one past the last
    inning (game over). *)
Definition inning_in_range (d : BoardData) : Prop :=
  0 <= game_inning d <= last_inning d + 1.

(** The operations that can write a score. *)
Definition writes_score (o : Game.Op) : bool :=
  match o with
  | Game.OpIncrementScoreTop | Game.OpDecrementScoreTop
  | Game.OpIncrementScoreBottom | Game.OpDecrementScoreBottom
  | Game.OpGameBackward | Game.OpResetGame true => true
  | _ => false
  end.

(** Top of the 1st with the score 2 to 1. *)
Definition first_inning_top : BoardData := set_top true first_inning_bottom.

Ltac unfold_board_setters :=
  cbv [set_game_title set_team_top set_team_bottom set_game_inning
       set_last_inning set_top set_first_base set_second_base set_third_base
       set_ball_cnt set_strike_cnt set_out_cnt set_score_top set_score_bottom
       game_title team_top team_bottom game_inning last_inning top first_base
       second_base third_base ball_cnt strike_cnt out_cnt score_top
       score_bottom] in *.

(** ** Vocabulary for further properties of the receivers *)

(** A message whose [type] is [t] and that carries the payload [p] flat,
    on the message object itself. *)
Definition typed_message (t : string) (p : Payload) : Message :=
  {| m_type := Some t; m_role := None; m_clientId := None;
     m_masterClientId := None; m_newRole := None; m_reason := None;
     m_masterToken := None; m_clearToken := false;
     m_boardData := None; m_data := None; m_flat := p |}.

(** A configuration file without [last_inning]. *)
Definition sample_init_data : Operation.InitData :=
  {| Operation.i_game_title := "Cup"; Operation.i_team_top := "Red";
     Operation.i_team_bottom := "Blue"; Operation.i_last_inning := None |}.

(** ** Vocabulary for further properties of the operator panel *)

Module Session.
Import Operation.

(** The two message types that carry a role. *)
Definition is_role_message (e : Event) : bool :=
  match e with
  | EvMessage _ (Parsed m) =>
    type_is m "role_assignment" || type_is m "role_changed"
  | _ => false
  end.

Definition is_release (e : Event) : bool :=
  match e with
  | EvReleaseMaster true => true
  | _ => false
  end.

(** [sessionStorage.getItem('masterToken')] *)
Definition stored_token (w : World) : option string :=
  sessionStorage w !! "masterToken".

(** The token a handshake carries: the stored one when it is truthy. *)
Definition handshake_token (w : World) : option string :=
  if truthy_opt_str (stored_token w) then stored_token w else None.

(** Two worlds with the same identity: role, ids and stored items. *)
Definition same_session (w w' : World) : Prop :=
  clientRole (app w') = clientRole (app w) /\
  clientId (app w') = clientId (app w) /\
  masterClientId (app w') = masterClientId (app w) /\
  sessionStorage w' = sessionStorage w.

(** A [role_changed] message. *)
Definition role_changed (newRole : string) (token : option string)
           (clear : bool) : Message :=
  {| m_type := Some "role_changed"; m_role := None; m_clientId := None;
     m_masterClientId := None; m_newRole := Some newRole;
     m_reason := Some "failover"; m_masterToken := token;
     m_clearToken := clear; m_boardData := None; m_data := None;
     m_flat := empty_payload |}.

End Session.

Module Publish.
Import Operation.

(** The master loses the connection, the retry timer fires and the new
    socket opens. *)
Definition reconnect_trace : list Event :=
  [EvClose 0%nat; EvTimer 1 true; EvOpen 1%nat].

(** A game state that differs from the initial board. *)
Definition sample_state_message : Message :=
  game_state_message (snapshot sample_board).

End Publish.

Module Backoff.
Import Operation.

(** While a timer is pending the attempt count is below the maximum, the
    timer's delay is the backoff delay of the current count and the status
    is [connecting] or [reconnecting]; the count never exceeds the
    maximum. *)
Definition backoff_inv (w : World) : Prop :=
  reconnectAttempts (app w) <= maxReconnectAttempts (app w) /\
  forall (t : positive) (delay : Z),
    timers w !! t = Some delay ->
    reconnectAttempts (app w) < maxReconnectAttempts (app w) /\
    delay = backoff_delay (app w) /\
    (connectionStatus (app w) = connecting \/
     connectionStatus (app w) = reconnecting).

(** No socket is open or connecting. *)
Definition no_active_socket (w : World) : Prop :=
  forall s : nat,
    sockets w !! s <> Some OPEN /\ sockets w !! s <> Some CONNECTING.

(** Socket handles are handed out in increasing order. *)
Definition fresh_sockets (w : World) : Prop :=
  forall (s : nat) (st : ReadyState),
    sockets w !! s = Some st -> (s < next_socket w)%nat.

(** The connection over socket [s] is up: [s] is the page's socket, it is
    open (or closing, after a teardown), the attempt count is 0, the
    status is [connected] and no timer is pending. *)
Definition session_up (s : nat) (w : World) : Prop :=
  socket (app w) = Some s /\
  (sockets w !! s = Some OPEN \/ sockets w !! s = Some CLOSING) /\
  reconnectAttempts (app w) = 0 /\
  connectionStatus (app w) = connected /\
  timers w = ∅.

(** What holds from the open event of socket [s] on: the socket has
    closed, or its connection is still up. *)
Definition since_open (s : nat) (w : World) : Prop :=
  (s < next_socket w)%nat /\
  (sockets w !! s = Some CLOSED \/ session_up s w).

End Backoff.

(** ** Vocabulary for further properties of the colours *)

(** [#] followed by exactly six lower-case hexadecimal digits. *)
Definition is_css_hex_color (c : string) : bool :=
  match c with
  | String "#" ds => Board.hex_run 6 ds
  | _ => false
  end.

(** The board after [setBackgroundColor] was called with each value of a
    list in turn. *)
Definition set_colors (vs : list Board.JsValue) (a : Board.App) : Board.App :=
  fold_left (fun a v => Board.setBackgroundColor v a) vs a.

Fixpoint no_white_space (s : string) : bool :=
  match s with
  | String c s' => negb (Board.is_white_space c) && no_white_space s'
  | EmptyString => true
  end.

Ltac session_cases :=
  unfold Session.same_session; case_tests; unfold_setters; proj_simpl;
  repeat split; reflexivity.

(** * Properties *)

(** ** The game operations *)

Section GameOperations.
Import Game.



Lemma in_domain_run_op (o : Op) (d : BoardData) :
  in_domain d -> in_domain (run_op o d).
Proof.
  unfold in_domain. intros (Hb & Hs & Ho & Ht & Hm).
  destruct o; unfold_ops; split_tests; simpl; lia.
Qed.

Lemma count_up_saturates (d : BoardData) :
  in_domain d ->
  ball_cnt (ballCountUp d) = Z.min 3 (ball_cnt d + 1) /\
  strike_cnt (strikeCountUp d) = Z.min 2 (strike_cnt d + 1) /\
  out_cnt (outCountUp d) = Z.min 2 (out_cnt d + 1).
Proof.
  unfold in_domain. intros (Hb & Hs & Ho & _).
  unfold_ops; split_tests; simpl; lia.
Qed.

Lemma count_down_saturates (d : BoardData) :
  in_domain d ->
  ball_cnt (ballCountDown d) = Z.max 0 (ball_cnt d - 1) /\
  strike_cnt (strikeCountDown d) = Z.max 0 (strike_cnt d - 1) /\
  out_cnt (outCountDown d) = Z.max 0 (out_cnt d - 1) /\
  score_top (decrementScoreTop d) = Z.max 0 (score_top d - 1) /\
  score_bottom (decrementScoreBottom d) = Z.max 0 (score_bottom d - 1).
Proof.
  unfold in_domain. intros (Hb & Hs & Ho & Ht & Hm).
  unfold_ops; split_tests; simpl; lia.
Qed.

Lemma up_never_above (d : BoardData) :
  ball_cnt (ballCountUp d) <= Z.max 3 (ball_cnt d) /\
  strike_cnt (strikeCountUp d) <= Z.max 2 (strike_cnt d) /\
  out_cnt (outCountUp d) <= Z.max 2 (out_cnt d).
Proof. unfold_ops; split_tests; simpl; lia. Qed.

Lemma down_never_below (d : BoardData) :
  Z.min 0 (ball_cnt d) <= ball_cnt (ballCountDown d) /\
  Z.min 0 (strike_cnt d) <= strike_cnt (strikeCountDown d) /\
  Z.min 0 (out_cnt d) <= out_cnt (outCountDown d) /\
  Z.min 0 (score_top d) <= score_top (decrementScoreTop d) /\
  Z.min 0 (score_bottom d) <= score_bottom (decrementScoreBottom d).
Proof. unfold_ops; split_tests; simpl; lia. Qed.

Lemma noop_at_upper_bound (d : BoardData) :
  (3 <= ball_cnt d -> ballCountUp d = d) /\
  (2 <= strike_cnt d -> strikeCountUp d = d) /\
  (2 <= out_cnt d -> outCountUp d = d).
Proof. unfold_ops; repeat split; intros; split_tests; try reflexivity; lia. Qed.

Lemma noop_at_lower_bound (d : BoardData) :
  (ball_cnt d <= 0 -> ballCountDown d = d) /\
  (strike_cnt d <= 0 -> strikeCountDown d = d) /\
  (out_cnt d <= 0 -> outCountDown d = d) /\
  (score_top d <= 0 -> decrementScoreTop d = d) /\
  (score_bottom d <= 0 -> decrementScoreBottom d = d).
Proof. unfold_ops; repeat split; intros; split_tests; try reflexivity; lia. Qed.

(** C4. Clamping. From a state whose bounded fields are in their domains,
    every operation of the panel leaves balls in [0,3], strikes and outs in
    [0,2] and both scores at 0 or above; the count increments saturate at
    the cap and the decrements at 0 (so at a bound the operation returns
    the state it was given); a score increment always adds one.  From any
    state at all, an increment never lifts a count above its cap and a
    decrement never lowers a count or a score below 0. *)
Theorem bounded_fields_clamped (o : Op) (d : BoardData) :
  (in_domain d ->
   in_domain (run_op o d) /\
   ball_cnt (ballCountUp d) = Z.min 3 (ball_cnt d + 1) /\
   strike_cnt (strikeCountUp d) = Z.min 2 (strike_cnt d + 1) /\
   out_cnt (outCountUp d) = Z.min 2 (out_cnt d + 1) /\
   ball_cnt (ballCountDown d) = Z.max 0 (ball_cnt d - 1) /\
   strike_cnt (strikeCountDown d) = Z.max 0 (strike_cnt d - 1) /\
   out_cnt (outCountDown d) = Z.max 0 (out_cnt d - 1) /\
   score_top (decrementScoreTop d) = Z.max 0 (score_top d - 1) /\
   score_bottom (decrementScoreBottom d) = Z.max 0 (score_bottom d - 1)) /\
  (ball_cnt d = 3 -> ballCountUp d = d) /\
  (strike_cnt d = 2 -> strikeCountUp d = d) /\
  (out_cnt d = 2 -> outCountUp d = d) /\
  (ball_cnt d = 0 -> ballCountDown d = d) /\
  (strike_cnt d = 0 -> strikeCountDown d = d) /\
  (out_cnt d = 0 -> outCountDown d = d) /\
  (score_top d = 0 -> decrementScoreTop d = d) /\
  (score_bottom d = 0 -> decrementScoreBottom d = d) /\
  ball_cnt (ballCountUp d) <= Z.max 3 (ball_cnt d) /\
  strike_cnt (strikeCountUp d) <= Z.max 2 (strike_cnt d) /\
  out_cnt (outCountUp d) <= Z.max 2 (out_cnt d) /\
  Z.min 0 (ball_cnt d) <= ball_cnt (ballCountDown d) /\
  Z.min 0 (strike_cnt d) <= strike_cnt (strikeCountDown d) /\
  Z.min 0 (out_cnt d) <= out_cnt (outCountDown d) /\
  Z.min 0 (score_top d) <= score_top (decrementScoreTop d) /\
  Z.min 0 (score_bottom d) <= score_bottom (decrementScoreBottom d) /\
  score_top (incrementScoreTop d) = score_top d + 1 /\
  score_bottom (incrementScoreBottom d) = score_bottom d + 1.
Proof.
  pose proof (up_never_above d) as (Hu1 & Hu2 & Hu3).
  pose proof (down_never_below d) as (Hd1 & Hd2 & Hd3 & Hd4 & Hd5).
  pose proof (noop_at_upper_bound d) as (Nu1 & Nu2 & Nu3).
  pose proof (noop_at_lower_bound d) as (Nl1 & Nl2 & Nl3 & Nl4 & Nl5).
  split.
  - intros Hdom.
    pose proof (count_up_saturates d Hdom) as (U1 & U2 & U3).
    pose proof (count_down_saturates d Hdom) as (D1 & D2 & D3 & D4 & D5).
    split; [ apply in_domain_run_op; assumption | tauto ].
  - repeat split; try assumption; try reflexivity; intros;
      first [ apply Nu1 | apply Nu2 | apply Nu3 | apply Nl1 | apply Nl2
            | apply Nl3 | apply Nl4 | apply Nl5 ]; lia.
Qed.


Lemma sample_board_in_domain : in_domain sample_board.
Proof. unfold in_domain; simpl; lia. Qed.

Lemma bounded_fields_clamped_witness :
  in_domain sample_board /\
  in_domain (run_op OpBallCountUp sample_board) /\
  ballCountUp sample_board = sample_board /\
  strikeCountUp sample_board = sample_board /\
  outCountUp sample_board = sample_board.
Proof.
  destruct (bounded_fields_clamped OpBallCountUp sample_board)
    as (Hdom & Hb & Hs & Ho & _).
  split; [ exact sample_board_in_domain | ].
  split; [ exact (proj1 (Hdom sample_board_in_domain)) | ].
  split; [ apply Hb; reflexivity | ].
  split; [ apply Hs; reflexivity | apply Ho; reflexivity ].
Defined.

(** C8. [gameForward] acts exactly while the inning is at most the last
    inning: from the top of inning [i] it goes to the bottom of [i], from
    the bottom of [i] to the top of [i + 1]; it then clears the three
    bases and the three counts; above the last inning it returns the
    state unchanged.  It never touches the scores (nor the titles or the
    last inning).  From (3, bottom) it yields (4, top) and from (3, top)
    it yields (3, bottom). *)
Theorem gameForward_spec (d : BoardData) :
  (game_inning d <= last_inning d ->
   (top d = true ->
    game_inning (gameForward d) = game_inning d /\
    top (gameForward d) = false) /\
   (top d = false ->
    game_inning (gameForward d) = game_inning d + 1 /\
    top (gameForward d) = true) /\
   bases_and_counts_reset (gameForward d)) /\
  (game_inning d > last_inning d -> gameForward d = d) /\
  score_top (gameForward d) = score_top d /\
  score_bottom (gameForward d) = score_bottom d /\
  same_config d (gameForward d) /\
  (game_inning d = 3 -> 3 <= last_inning d ->
   (top d = false ->
    game_inning (gameForward d) = 4 /\ top (gameForward d) = true) /\
   (top d = true ->
    game_inning (gameForward d) = 3 /\ top (gameForward d) = false)).
Proof.
  unfold bases_and_counts_reset, same_config, gameForward, initParams.
  repeat split; intros; split_tests; simpl in *; try reflexivity;
    try congruence; try lia.
Qed.

Lemma gameForward_spec_witness :
  (game_inning (gameForward sample_board) = 4 /\
   top (gameForward sample_board) = true) /\
  bases_and_counts_reset (gameForward sample_board) /\
  score_top (gameForward sample_board) = 4.
Proof.
  destruct (gameForward_spec sample_board) as (Hact & _ & Hst & _ & _ & Hex).
  split.
  - apply Hex; [ reflexivity | simpl; lia | reflexivity ].
  - split; [ apply Hact; simpl; lia | exact Hst ].
Defined.

(** C7. [gameBackward] acts exactly while the inning is at least 1: from
    the top of inning [i] it goes to the bottom of [i - 1], from the
    bottom of [i] to the top of [i]; it then clears the three bases and
    the three counts; when the inning it lands on is 0 both scores become
    0, and otherwise both scores are kept.  Below inning 1 it returns the
    state unchanged.  From (1, bottom) one call yields (1, top) and a
    second call yields (0, bottom) with both scores 0. *)
Theorem gameBackward_spec (d : BoardData) :
  (1 <= game_inning d ->
   (top d = true ->
    game_inning (gameBackward d) = game_inning d - 1 /\
    top (gameBackward d) = false) /\
   (top d = false ->
    game_inning (gameBackward d) = game_inning d /\
    top (gameBackward d) = true) /\
   bases_and_counts_reset (gameBackward d) /\
   (game_inning (gameBackward d) = 0 ->
    score_top (gameBackward d) = 0 /\ score_bottom (gameBackward d) = 0) /\
   (game_inning (gameBackward d) <> 0 ->
    score_top (gameBackward d) = score_top d /\
    score_bottom (gameBackward d) = score_bottom d) /\
   same_config d (gameBackward d)) /\
  (game_inning d < 1 -> gameBackward d = d) /\
  (game_inning d = 1 -> top d = false ->
   game_inning (gameBackward d) = 1 /\ top (gameBackward d) = true /\
   game_inning (gameBackward (gameBackward d)) = 0 /\
   top (gameBackward (gameBackward d)) = false /\
   score_top (gameBackward (gameBackward d)) = 0 /\
   score_bottom (gameBackward (gameBackward d)) = 0).
Proof.
  unfold bases_and_counts_reset, same_config, gameBackward, initParams.
  repeat split; intros; split_tests; simpl in *; try reflexivity;
    try congruence; try lia.
Qed.


Lemma gameBackward_spec_witness :
  bases_and_counts_reset (gameBackward first_inning_bottom) /\
  score_top (gameBackward first_inning_bottom) = 2 /\
  game_inning (gameBackward (gameBackward first_inning_bottom)) = 0 /\
  top (gameBackward (gameBackward first_inning_bottom)) = false /\
  score_top (gameBackward (gameBackward first_inning_bottom)) = 0 /\
  score_bottom (gameBackward (gameBackward first_inning_bottom)) = 0.
Proof.
  destruct (gameBackward_spec first_inning_bottom) as (Hact & _ & Hex).
  assert (Hin : 1 <= game_inning first_inning_bottom) by (simpl; lia).
  destruct (Hact Hin) as (_ & _ & Hreset & _ & Hkeep & _).
  destruct (Hex eq_refl eq_refl) as (Hi & _ & H0 & Ht & Hs1 & Hs2).
  split; [ exact Hreset | ].
  split; [ apply Hkeep; rewrite Hi; discriminate | ].
  auto.
Defined.

End GameOperations.

(** ** The receivers of game state *)

Section Receivers.

Lemma assign_other {A B : Type} (proj : BoardData -> B) (o : option A)
      (set : A -> BoardData -> BoardData) (d : BoardData) :
  (forall v d', proj (set v d') = proj d') ->
  proj (Board.assign o set d) = proj d.
Proof. intros H. destruct o; simpl; [ apply H | reflexivity ]. Qed.

Lemma assign_same {A : Type} (f : Field) (inj : A -> Value) (o : option A)
      (set : A -> BoardData -> BoardData) (d : BoardData) :
  (forall v d', get_field f (set v d') = inj v) ->
  get_field f (Board.assign o set d) =
  match inj <$> o with
  | Some v => v
  | None => get_field f d
  end.
Proof. intros H. destruct o; simpl; [ apply H | reflexivity ]. Qed.

Lemma board_presence_merge : presence_merge Board.applyBoardData.
Proof.
  intros p d f. unfold Board.applyBoardData.
  destruct f; cbn [payload_field];
    repeat first
      [ rewrite (assign_other (get_field _)) by reflexivity
      | rewrite (assign_same _ VStr) by reflexivity
      | rewrite (assign_same _ VNum) by reflexivity
      | rewrite (assign_same _ VBool) by reflexivity ];
    reflexivity.
Qed.

Lemma restoreState_field (p : Payload) (d : BoardData) (f : Field) :
  get_field f (Operation.restoreState p d) =
  match payload_field f p with
  | Some v => if truthy v then v else fallback f d
  | None => fallback f d
  end.
Proof.
  destruct p as [t1 t2 t3 n1 n2 b1 b2 b3 b4 n3 n4 n5 n6 n7].
  unfold Operation.restoreState, js_or, truthy.
  destruct f; simpl;
    match goal with
    | |- context [match ?o with Some _ => _ | None => _ end] =>
      destruct o; simpl; try reflexivity
    end;
    match goal with
    | |- context [if ?b then _ else _] => destruct b; reflexivity
    end.
Qed.

Lemma restoreState_applies_present (p : Payload) (d : BoardData) (f : Field)
      (v : Value) :
  is_text f = false -> f <> F_last_inning ->
  payload_field f p = Some v ->
  get_field f (Operation.restoreState p d) = v.
Proof.
  intros Htext Hlast Hp. rewrite restoreState_field, Hp.
  destruct (truthy v) eqn:Hv; [ reflexivity | ].
  destruct p as [t1 t2 t3 n1 n2 b1 b2 b3 b4 n3 n4 n5 n6 n7].
  destruct f; try discriminate; try congruence; simpl in *;
    match goal with
    | H : _ <$> ?o = Some _ |- _ => destruct o; simpl in H; inversion H; subst
    end; simpl in Hv;
    unfold truthy_num, truthy_bool in Hv.
  all: try (apply negb_false_iff, Z.eqb_eq in Hv; subst; reflexivity).
  all: subst; reflexivity.
Qed.

Lemma handle_game_state (m : Message) (w : Operation.World) :
  is_game_state m = true ->
  Operation.handleWebSocketMessage (Parsed m) w =
  Operation.upd_app (Operation.set_restoredFromServer true)
    (Operation.upd_app
       (fun a => Operation.set_board
                   (Operation.restoreState (state_payload m)
                      (Operation.board a)) a) w).
Proof.
  intros Hm. unfold Operation.handleWebSocketMessage.
  assert (Hnot : forall lit, lit <> "game_state" -> lit <> "" ->
                             type_is m lit = false).
  { intros lit H1 H2. unfold is_game_state, type_is, truthy_opt_str,
      truthy_str in *.
    destruct (m_type m) as [t|]; [ | reflexivity ].
    destruct (String.eqb_spec t lit) as [->|]; [ | reflexivity ].
    destruct (String.eqb_spec lit "game_state"); [ contradiction | ].
    destruct (String.eqb_spec lit ""); [ contradiction | discriminate Hm ]. }
  rewrite (Hnot "role_assignment"), (Hnot "role_changed"), Hm
    by discriminate.
  reflexivity.
Qed.

(** C2 as stated, refuted on the operator panel: with the payload
    [{out_cnt: 0}] the field [ball_cnt] is absent, the local value is 3,
    and the restore leaves 0 there. *)
Lemma operator_restore_is_not_presence_merge :
  payload_field F_ball_cnt out0_payload = None /\
  get_field F_ball_cnt sample_board = VNum 3 /\
  get_field F_ball_cnt (Operation.restoreState out0_payload sample_board) = VNum 0 /\
  ~ presence_merge Operation.restoreState.
Proof.
  repeat split.
  intros H. specialize (H out0_payload sample_board F_ball_cnt).
  discriminate H.
Qed.

(** C2, amended. On the display board the merge is by presence: a field
    takes the payload's value exactly when the payload contains the field
    and keeps its local value otherwise.  On the operator panel every
    field is assigned [payload.f || fallback]: a present truthy value is
    applied; a missing or falsy one gives the local text for the three
    text fields, 9 for the last inning, 0 for the other numbers and
    [false] for the flags, so that the counters, scores, inning and flags
    always take a present value (0 and [false] included).  On both
    clients [{out_cnt: 0}] with two local outs leaves no outs. *)
Theorem receivers_merge (p : Payload) (d : BoardData) (f : Field) :
  get_field f (Board.applyBoardData p d) =
    match payload_field f p with
    | Some v => v
    | None => get_field f d
    end /\
  get_field f (Operation.restoreState p d) =
    match payload_field f p with
    | Some v => if truthy v then v else fallback f d
    | None => fallback f d
    end /\
  (forall v : Value,
     is_text f = false -> f <> F_last_inning ->
     payload_field f p = Some v ->
     get_field f (Operation.restoreState p d) = v) /\
  (out_cnt d = 2 ->
   out_cnt (Board.applyBoardData out0_payload d) = 0 /\
   out_cnt (Operation.restoreState out0_payload d) = 0) /\
  (forall (m : Message) (a : Board.App),
     is_game_state m = true ->
     Board.boardData (Board.handleWebSocketMessage (Parsed m) a) =
     Board.applyBoardData (state_payload m) (Board.boardData a)) /\
  (forall (m : Message) (w : Operation.World),
     is_game_state m = true ->
     Operation.board (Operation.app
       (Operation.handleWebSocketMessage (Parsed m) w)) =
     Operation.restoreState (state_payload m)
       (Operation.board (Operation.app w))).
Proof.
  split; [ apply board_presence_merge | ].
  split; [ apply restoreState_field | ].
  split; [ intros v; apply restoreState_applies_present | ].
  split; [ intros _; split; reflexivity | ].
  split.
  - intros m a Hm. unfold Board.handleWebSocketMessage. rewrite Hm.
    reflexivity.
  - intros m w Hm. rewrite (handle_game_state m w Hm). reflexivity.
Qed.

Lemma receivers_merge_witness :
  out_cnt (Board.applyBoardData out0_payload sample_board) = 0 /\
  out_cnt (Operation.restoreState out0_payload sample_board) = 0 /\
  get_field F_out_cnt (Operation.restoreState out0_payload sample_board) = VNum 0.
Proof.
  destruct (receivers_merge out0_payload sample_board F_out_cnt)
    as (_ & _ & Hpresent & Hout & _).
  destruct (Hout eq_refl) as (Hb & Ho).
  split; [ exact Hb | ].
  split; [ exact Ho | ].
  apply Hpresent; [ reflexivity | discriminate | reflexivity ].
Defined.

End Receivers.

(** ** Background colours of the display board *)

Section HexColors.
Import Board.

Lemma lower_char_is_lower_hex (c : ascii) :
  is_lower_hex (lower_char c) = is_hex_digit c.
Proof. each_char c; reflexivity. Qed.

Lemma lower_char_hash (c : ascii) :
  Ascii.eqb (lower_char c) "#" = Ascii.eqb c "#".
Proof. each_char c; reflexivity. Qed.

Lemma lower_char_hex_digit (c : ascii) :
  is_hex_digit c = true -> lower_char c = lower_hex_digit c.
Proof. each_char c; intros H; try reflexivity; discriminate H. Qed.

Lemma lower_hex_digit_is_lower_hex (c : ascii) :
  is_hex_digit c = true -> is_lower_hex (lower_hex_digit c) = true.
Proof. each_char c; intros H; try reflexivity; discriminate H. Qed.

Lemma toLowerCase_hex_digits (ds : string) :
  all_hex ds = true -> toLowerCase ds = lower_hex_digits ds.
Proof.
  induction ds as [|c ds IH]; simpl; [ reflexivity | ].
  intros H. apply andb_true_iff in H as [Hc Hds].
  rewrite (lower_char_hex_digit c Hc), (IH Hds). reflexivity.
Qed.

Lemma hex_run_toLowerCase (n : nat) (ds : string) :
  hex_run n (toLowerCase ds) = true <->
  String.length ds = n /\ all_hex ds = true.
Proof.
  revert ds. induction n as [|n IH]; intros [|c ds]; simpl.
  - tauto.
  - split; [ discriminate | intros [H _]; discriminate H ].
  - split; [ discriminate | intros [H _]; discriminate H ].
  - rewrite lower_char_is_lower_hex, !andb_true_iff, IH.
    split; intros (H1 & H2 & H3); repeat split; congruence.
Qed.

Lemma pattern_test_toLowerCase (t : string) :
  hexColorPattern_test (toLowerCase t) = true <-> hex_color t.
Proof.
  unfold hex_color. destruct t as [|c ds].
  - simpl. split; [ discriminate | intros (ds & H & _); discriminate H ].
  - cbn [toLowerCase hexColorPattern_test].
    assert (Hc : lower_char c = "#"%char <-> c = "#"%char).
    { rewrite <- !Ascii.eqb_eq, lower_char_hash. tauto. }
    split.
    + intros H.
      destruct (Ascii.eqb (lower_char c) "#") eqn:E.
      * apply Ascii.eqb_eq in E. rewrite E in H. apply Hc in E. subst c.
        exists ds. split; [ reflexivity | ].
        apply orb_true_iff in H as [H | H];
          apply hex_run_toLowerCase in H as [Hl Hh]; auto.
      * exfalso. apply Ascii.eqb_neq in E.
        destruct (lower_char c) as [[] [] [] [] [] [] [] []];
          try discriminate H; apply E; reflexivity.
    + intros (ds' & Heq & Hlen & Hhex). inversion Heq; subst c ds'.
      change (lower_char "#") with "#"%char. cbv iota beta.
      apply orb_true_iff.
      destruct Hlen as [H3 | H6]; [ right | left ];
        apply hex_run_toLowerCase; auto.
Qed.

Lemma valid_iff_hex_color (s : string) :
  valid (validateHexColor (JsString s)) = true <-> hex_color (trim s).
Proof.
  unfold validateHexColor.
  destruct (String.eqb (trim s) "") eqn:E.
  - apply String.eqb_eq in E. rewrite E. simpl.
    split; [ discriminate | intros (ds & H & _); discriminate H ].
  - rewrite <- pattern_test_toLowerCase.
    destruct (hexColorPattern_test (toLowerCase (trim s))); simpl;
      split; congruence.
Qed.

Lemma normalized_of_hex_color (s ds : string) :
  trim s = String "#" ds ->
  (String.length ds = 3%nat \/ String.length ds = 6%nat) ->
  all_hex ds = true ->
  validateHexColor (JsString s) =
  {| valid := true;
     normalizedColor := Some (String "#" (six_digit_form ds));
     error := None |}.
Proof.
  intros Ht Hlen Hhex.
  assert (Hcol : hex_color (trim s)) by (exists ds; auto).
  apply pattern_test_toLowerCase in Hcol.
  unfold validateHexColor. rewrite Hcol, Ht. cbn [String.eqb negb].
  change (Ascii.eqb "#" "#") with true.
  cbn [toLowerCase]. change (lower_char "#") with "#"%char.
  rewrite (toLowerCase_hex_digits ds Hhex).
  unfold six_digit_form.
  destruct Hlen as [H | H].
  - destruct ds as [|r [|g [|b [|x ds]]]]; try discriminate H. reflexivity.
  - destruct ds as [|a [|b [|c [|d [|e [|f [|x ds]]]]]]]; try discriminate H.
    reflexivity.
Qed.

Lemma six_digit_form_shape (ds : string) :
  (String.length ds = 3%nat \/ String.length ds = 6%nat) ->
  all_hex ds = true ->
  hex_run 6 (six_digit_form ds) = true.
Proof.
  intros Hlen Hhex. unfold six_digit_form.
  destruct Hlen as [H | H].
  - destruct ds as [|r [|g [|b [|x ds]]]]; try discriminate H.
    simpl in Hhex. rewrite !andb_true_iff in Hhex.
    destruct Hhex as (Hr & Hg & Hb & _). simpl.
    rewrite !lower_hex_digit_is_lower_hex by assumption. reflexivity.
  - destruct ds as [|a [|b [|c [|d [|e [|f [|x ds]]]]]]]; try discriminate H.
    simpl in Hhex. rewrite !andb_true_iff in Hhex.
    destruct Hhex as (Ha & Hb & Hc & Hd & He & Hf & _). simpl.
    rewrite !lower_hex_digit_is_lower_hex by assumption. reflexivity.
Qed.

(** C9. [validateHexColor] accepts a value exactly when it is a string
    that, once trimmed, is [#] followed by three or six hexadecimal
    digits of either case; the result it gives for such a string is [#]
    followed by six lower-case hexadecimal digits, three digits being
    doubled one by one.  [setBackgroundColor] applies that result when
    the value is accepted and the default colour, which it never
    changes, for every other value.  ["#GGGGGG"] is rejected and the
    default is used; ["#abc"] and ["#AABBCC"] are accepted and both give
    ["#aabbcc"]. *)
Theorem validateHexColor_spec :
  (forall s : string,
     valid (validateHexColor (JsString s)) = true <-> hex_color (trim s)) /\
  (forall v : JsValue,
     (forall s, v <> JsString s) -> valid (validateHexColor v) = false) /\
  (forall s ds : string,
     trim s = String "#" ds ->
     (String.length ds = 3%nat \/ String.length ds = 6%nat) ->
     all_hex ds = true ->
     validateHexColor (JsString s) =
       {| valid := true;
          normalizedColor := Some (String "#" (six_digit_form ds));
          error := None |} /\
     hex_run 6 (six_digit_form ds) = true) /\
  (forall (v : JsValue) (a : App),
     valid (validateHexColor v) = false ->
     backgroundColor (setBackgroundColor v a) = defaultBackgroundColor a /\
     body_style_backgroundColor (setBackgroundColor v a) =
       defaultBackgroundColor a) /\
  (forall (v : JsValue) (a : App) (c : string),
     valid (validateHexColor v) = true ->
     normalizedColor (validateHexColor v) = Some c ->
     backgroundColor (setBackgroundColor v a) = c /\
     body_style_backgroundColor (setBackgroundColor v a) = c) /\
  (forall (v : JsValue) (a : App),
     defaultBackgroundColor (setBackgroundColor v a) =
       defaultBackgroundColor a) /\
  defaultBackgroundColor initial_app = "#ff55ff" /\
  valid (validateHexColor (JsString "#GGGGGG")) = false /\
  backgroundColor (setBackgroundColor (JsString "#GGGGGG") initial_app) =
    "#ff55ff" /\
  validateHexColor (JsString "#abc") =
    {| valid := true; normalizedColor := Some "#aabbcc"; error := None |} /\
  validateHexColor (JsString "#AABBCC") =
    {| valid := true; normalizedColor := Some "#aabbcc"; error := None |}.
Proof.
  split; [ exact valid_iff_hex_color | ].
  split.
  { intros v Hv. destruct v; try reflexivity. exfalso. eapply Hv; eauto. }
  split.
  { intros s ds Ht Hlen Hhex. split.
    - apply normalized_of_hex_color; assumption.
    - apply six_digit_form_shape; assumption. }
  split.
  { intros v a Hv. unfold setBackgroundColor. rewrite Hv. split; reflexivity. }
  split.
  { intros v a c Hv Hc. unfold setBackgroundColor. rewrite Hv, Hc.
    split; reflexivity. }
  split.
  { intros v a. unfold setBackgroundColor.
    destruct (valid (validateHexColor v));
      [ destruct (normalizedColor (validateHexColor v)) | ]; reflexivity. }
  repeat split.
Qed.

Lemma validateHexColor_spec_witness :
  validateHexColor (JsString " #AbC ") =
    {| valid := true; normalizedColor := Some "#aabbcc"; error := None |} /\
  backgroundColor (setBackgroundColor (JsString " #AbC ") initial_app) =
    "#aabbcc" /\
  backgroundColor (setBackgroundColor (JsNumber 7) initial_app) = "#ff55ff".
Proof.
  destruct validateHexColor_spec as (_ & Hother & Hnorm & Hbad & Hgood & _).
  destruct (Hnorm " #AbC " "AbC" eq_refl (or_introl eq_refl) eq_refl)
    as (Hv & _).
  split; [ exact Hv | ].
  split.
  - apply (Hgood (JsString " #AbC ") initial_app "#aabbcc");
      rewrite Hv; reflexivity.
  - apply (Hbad (JsNumber 7) initial_app). apply Hother. discriminate.
Defined.

End HexColors.

(** ** The operator panel: connection, roles and broadcast *)

Section OperatorPanel.
Import Operation Conn ConnView.

Lemma same_conn_refl (w : World) : same_conn w w.
Proof. unfold same_conn; tauto. Qed.

Lemma same_conn_trans (w1 w2 w3 : World) :
  same_conn w1 w2 -> same_conn w2 w3 -> same_conn w1 w3.
Proof. unfold same_conn; intuition congruence. Qed.

Lemma same_conn_socket_send (msg : Outgoing) (w : World) :
  same_conn w (socket_send msg w).
Proof.
  conn_cases.
Qed.

Lemma same_conn_watcher (w : World) : same_conn w (boardData_watcher w).
Proof. conn_cases. Qed.

Lemma same_conn_notify (w0 w : World) : same_conn w (notify w0 w).
Proof.
  unfold notify. destruct (decide _);
    [ apply same_conn_refl | apply same_conn_watcher ].
Qed.

Lemma same_conn_message (data : Inbound) (w : World) :
  same_conn w (handleWebSocketMessage data w).
Proof. conn_cases. Qed.

Lemma same_conn_release (confirmed : bool) (w : World) :
  same_conn w (releaseMasterControl confirmed w).
Proof. conn_cases. Qed.

Lemma same_conn_upd_board (f : BoardData -> BoardData) (w : World) :
  same_conn w (upd_app (fun a => set_board (f (board a)) a) w).
Proof. conn_cases. Qed.

Lemma same_conn_config (force : bool) (data : InitData) (w : World) :
  same_conn w (upd_app (loadConfiguration force data) w).
Proof.
  unfold upd_app, loadConfiguration, same_conn.
  case_tests; unfold_setters; proj_simpl; repeat split; congruence.
Qed.

Lemma wf_same_conn (w w' : World) : same_conn w w' -> wf w -> wf w'.
Proof.
  unfold same_conn, wf, config_ok, timers_owned, one_live_socket,
    closed_while_waiting.
  intros (E1 & E2 & E3 & E4 & E5 & E6 & E7 & E8 & _).
  rewrite E2, E3, E4, E5, E6, E7, E8. tauto.
Qed.

Lemma terminal_same_conn (w w' : World) :
  same_conn w w' -> terminal w -> terminal w'.
Proof.
  unfold same_conn, terminal.
  intros (E1 & _ & _ & _ & _ & _ & E7 & E8 & _).
  rewrite E1, E7, E8. tauto.
Qed.

End OperatorPanel.

Section Connection.
Import Operation Conn ConnView.

Lemma world_eta (w : World) :
  w = {| app := app w; sockets := sockets w; next_socket := next_socket w;
         timers := timers w; next_timer := next_timer w;
         sessionStorage := sessionStorage w; sent := sent w |}.
Proof. destruct w; reflexivity. Qed.

Lemma app_eta (a : App) :
  a = {| board := board a; socket := socket a;
         restoredFromServer := restoredFromServer a;
         connectionStatus := connectionStatus a;
         reconnectAttempts := reconnectAttempts a;
         maxReconnectAttempts := maxReconnectAttempts a;
         reconnectDelay := reconnectDelay a;
         reconnectTimer := reconnectTimer a; clientRole := clientRole a;
         clientId := clientId a; masterClientId := masterClientId a |}.
Proof. destruct a; reflexivity. Qed.

Lemma timers_owned_none (w : World) :
  timers_owned w -> reconnectTimer (app w) = None -> timers w = ∅.
Proof.
  intros Hown Hnone. apply map_empty. intros t.
  destruct (timers w !! t) as [delay|] eqn:E; [ | reflexivity ].
  apply Hown in E. congruence.
Qed.

Lemma timers_owned_delete (w : World) (t : positive) :
  timers_owned w -> reconnectTimer (app w) = Some t ->
  delete t (timers w) = ∅.
Proof.
  intros Hown Ht. apply map_empty. intros i.
  destruct (decide (i = t)) as [->|Hne].
  - apply lookup_delete_eq.
  - rewrite lookup_delete_ne by congruence.
    destruct (timers w !! i) as [delay|] eqn:E; [ | reflexivity ].
    apply Hown in E. congruence.
Qed.

(** Under ownership, cancelling leaves no timer pending. *)
Lemma cancelReconnect_owned (w : World) :
  timers_owned w ->
  cancelReconnect w = upd_app (set_reconnectTimer None) (set_timers ∅ w).
Proof.
  intros Hown. unfold cancelReconnect.
  destruct (reconnectTimer (app w)) as [t|] eqn:E.
  - rewrite (timers_owned_delete w t Hown E). reflexivity.
  - pose proof (timers_owned_none w Hown E) as Hempty.
    unfold_setters. rewrite (world_eta w) at 1. rewrite (app_eta (app w)) at 1.
    rewrite Hempty, E. reflexivity.
Qed.

Lemma scheduleReconnect_terminal (w : World) :
  timers_owned w ->
  maxReconnectAttempts (app w) <= reconnectAttempts (app w) ->
  scheduleReconnect w =
  upd_app (set_connectionStatus disconnected)
    (upd_app (set_reconnectTimer None) (set_timers ∅ w)).
Proof.
  intros Hown Hmax. unfold scheduleReconnect.
  rewrite (cancelReconnect_owned w Hown).
  unfold_setters; proj_simpl.
  rewrite Z.geb_leb. destruct (Z.leb_spec (maxReconnectAttempts (app w))
                                          (reconnectAttempts (app w)));
    [ reflexivity | lia ].
Qed.

Lemma scheduleReconnect_arms (w : World) :
  timers_owned w ->
  reconnectAttempts (app w) < maxReconnectAttempts (app w) ->
  scheduleReconnect w =
  upd_app (set_reconnectTimer (Some (next_timer w)))
    (set_next_timer (next_timer w + 1)%positive
       (set_timers {[ next_timer w := backoff_delay (app w) ]}
          (upd_app (set_reconnectTimer None) w))).
Proof.
  intros Hown Hmax. unfold scheduleReconnect.
  rewrite (cancelReconnect_owned w Hown).
  unfold_setters; proj_simpl.
  rewrite Z.geb_leb. destruct (Z.leb_spec (maxReconnectAttempts (app w))
                                          (reconnectAttempts (app w)));
    [ lia | ].
  rewrite insert_empty. reflexivity.
Qed.

Lemma wf_scheduleReconnect (w : World) :
  config_ok (app w) -> 0 <= reconnectAttempts (app w) ->
  timers_owned w -> all_closed w ->
  wf (scheduleReconnect w).
Proof.
  intros Hcfg Hatt Hown Hclosed.
  destruct (Z.le_gt_cases (maxReconnectAttempts (app w))
                          (reconnectAttempts (app w))) as [Hmax | Hmax].
  - rewrite (scheduleReconnect_terminal w Hown Hmax).
    unfold wf, config_ok, timers_owned, one_live_socket,
      closed_while_waiting, all_closed in *.
    unfold_setters; proj_simpl.
    repeat split; try tauto.
    + intros t delay H. rewrite lookup_empty in H. discriminate H.
    + intros s st H Hst. apply Hclosed in H. contradiction.
    + intros t delay s st _ H. eapply Hclosed; eassumption.
  - rewrite (scheduleReconnect_arms w Hown Hmax).
    unfold wf, config_ok, timers_owned, one_live_socket,
      closed_while_waiting, all_closed in *.
    unfold_setters; proj_simpl.
    repeat split; try tauto.
    + intros t delay H. apply lookup_singleton_Some in H as [<- _].
      reflexivity.
    + intros s st H Hst. apply Hclosed in H. contradiction.
    + intros t delay s st _ H. eapply Hclosed; eassumption.
Qed.

Lemma wf_connected (w : World) (s : nat) :
  wf w -> timers w = ∅ -> all_closed w ->
  wf (upd_app (set_socket (Some s))
        (set_next_socket (S s)
           (set_sockets (<[s := CONNECTING]> (sockets w)) w))).
Proof.
  unfold wf, config_ok, timers_owned, one_live_socket,
    closed_while_waiting, all_closed.
  intros (Hcfg & Hatt & Hown & Hlive & Hwait) Hempty Hclosed.
  unfold_setters; proj_simpl. rewrite Hempty.
  repeat split; try tauto.
  - intros t delay H. rewrite lookup_empty in H. discriminate H.
  - intros s' st H Hst. destruct (decide (s' = s)) as [->|Hne];
      [ reflexivity | ].
    rewrite lookup_insert_ne in H by congruence.
    apply Hclosed in H. contradiction.
  - intros t delay s' st H. rewrite lookup_empty in H. discriminate H.
Qed.

Lemma wf_fresh (storage : gmap string string) : wf (fresh_world storage).
Proof.
  unfold wf, config_ok, timers_owned, one_live_socket,
    closed_while_waiting, fresh_world; simpl.
  repeat split; try lia; intros *; rewrite lookup_empty; discriminate.
Qed.

Lemma wf_connectWebSocket (constructed : bool) (w : World) :
  wf w -> timers w = ∅ -> all_closed w ->
  wf (connectWebSocket constructed w).
Proof.
  intros Hwf Hempty Hclosed. unfold connectWebSocket.
  destruct constructed.
  - apply wf_connected; assumption.
  - destruct Hwf as (Hcfg & Hatt & Hown & _).
    apply wf_scheduleReconnect; assumption.
Qed.

Lemma wf_created (constructed : bool) (storage : gmap string string) :
  wf (created constructed (fresh_world storage)).
Proof.
  apply wf_connectWebSocket; [ apply wf_fresh | reflexivity | ].
  intros s st H. simpl in H. rewrite lookup_empty in H. discriminate H.
Qed.

End Connection.

Section EventLoop.
Import Operation Conn ConnView.

Lemma wf_parts (w w' : World) :
  maxReconnectAttempts (app w') = maxReconnectAttempts (app w) ->
  reconnectDelay (app w') = reconnectDelay (app w) ->
  0 <= reconnectAttempts (app w') ->
  timers_owned w' -> one_live_socket w' -> closed_while_waiting w' ->
  wf w -> wf w'.
Proof.
  unfold wf, config_ok. intros E1 E2 ? ? ? ? (Hcfg & _).
  rewrite E1, E2. tauto.
Qed.

(** A live socket is the current one, so closing it leaves none live. *)
Lemma all_closed_after_close (w : World) (s : nat) (st : ReadyState) :
  one_live_socket w -> sockets w !! s = Some st -> st <> CLOSED ->
  all_closed (set_sockets (<[s := CLOSED]> (sockets w)) w).
Proof.
  intros Hlive Hs Hst s' st' H. unfold_setters; proj_simpl.
  destruct (decide (s' = s)) as [->|Hne].
  - rewrite lookup_insert_eq in H. congruence.
  - rewrite lookup_insert_ne in H by congruence.
    destruct (decide (st' = CLOSED)) as [|Hlive']; [ assumption | ].
    pose proof (Hlive s st Hs Hst). pose proof (Hlive s' st' H Hlive').
    congruence.
Qed.

Lemma wf_open (w : World) (s : nat) :
  wf w -> sockets w !! s = Some CONNECTING ->
  wf (handleWebSocketOpen (set_sockets (<[s := OPEN]> (sockets w)) w)).
Proof.
  intros Hwf Hs. unfold handleWebSocketOpen.
  eapply wf_same_conn; [ apply same_conn_socket_send | ].
  revert Hwf.
  unfold wf, config_ok, timers_owned, one_live_socket, closed_while_waiting.
  unfold_setters; proj_simpl.
  intros (Hcfg & Hatt & Hown & Hlive & Hwait).
  repeat split; try tauto; try lia.
  - intros s' st H Hst. destruct (decide (s' = s)) as [->|Hne].
    + apply (Hlive s CONNECTING Hs). discriminate.
    + rewrite lookup_insert_ne in H by congruence. eauto.
  - intros t delay s' st Ht H.
    pose proof (Hwait t delay s CONNECTING Ht Hs). discriminate.
Qed.

Lemma wf_close (w : World) (s : nat) (st : ReadyState) :
  wf w -> sockets w !! s = Some st -> st <> CLOSED ->
  wf (handleWebSocketClose (set_sockets (<[s := CLOSED]> (sockets w)) w)).
Proof.
  intros Hwf Hs Hst.
  pose proof Hwf as (Hcfg & Hatt & Hown & Hlive & Hwait).
  pose proof (all_closed_after_close w s st Hlive Hs Hst) as Hclosed.
  unfold handleWebSocketClose. case_bool_decide.
  - apply wf_scheduleReconnect; assumption.
  - eapply wf_parts; try eassumption; try reflexivity.
    + intros s' st' Hs' Hlive'. apply Hclosed in Hs'. contradiction.
    + intros t delay s' st' _ Hs'. eapply Hclosed; eassumption.
Qed.

Lemma timer_fired_world (w : World) (t : positive) (delay : Z) :
  wf w -> timers w !! t = Some delay ->
  let w0 := upd_app (fun a => set_reconnectAttempts (reconnectAttempts a + 1) a)
              (set_timers (delete t (timers w)) w) in
  wf w0 /\ timers w0 = ∅ /\ all_closed w0.
Proof.
  intros (Hcfg & Hatt & Hown & Hlive & Hwait) Ht w0.
  pose proof (Hown t delay Ht) as Hcur.
  pose proof (timers_owned_delete w t Hown Hcur) as Hempty.
  subst w0. unfold_setters; proj_simpl. rewrite Hempty.
  unfold wf, config_ok, timers_owned, one_live_socket,
    closed_while_waiting, all_closed in *.
  proj_simpl.
  repeat split; try tauto; try lia; try (intros *; rewrite lookup_empty;
    discriminate).
  intros s st H. exact (Hwait t delay s st Ht H).
Qed.

Lemma wf_timer (w : World) (t : positive) (delay : Z) (constructed : bool) :
  wf w -> timers w !! t = Some delay ->
  wf (reconnect_timer_fired constructed (set_timers (delete t (timers w)) w)).
Proof.
  intros Hwf Ht.
  destruct (timer_fired_world w t delay Hwf Ht) as (H1 & H2 & H3).
  unfold reconnect_timer_fired. apply wf_connectWebSocket; assumption.
Qed.

Lemma wf_unmount (w : World) : wf w -> wf (beforeUnmount w).
Proof.
  intros (Hcfg & Hatt & Hown & Hlive & Hwait).
  unfold beforeUnmount. rewrite (cancelReconnect_owned w Hown).
  assert (Hbase : wf (upd_app (set_reconnectTimer None) (set_timers ∅ w))).
  { unfold wf, config_ok, timers_owned, one_live_socket,
      closed_while_waiting in *.
    unfold_setters; proj_simpl.
    repeat split; try tauto;
      intros *; rewrite lookup_empty; discriminate. }
  unfold_setters; proj_simpl.
  destruct (socket (app w)) as [s|] eqn:Es; [ | exact Hbase ].
  unfold close_socket; proj_simpl.
  destruct (sockets w !! s) as [[| | |]|] eqn:E; try exact Hbase.
  all: revert Hbase;
    unfold wf, config_ok, timers_owned, one_live_socket,
      closed_while_waiting; unfold_setters; proj_simpl;
    intros (? & ? & ? & Hl & ?); repeat split; try tauto;
    try (intros *; rewrite lookup_empty; discriminate).
  all: intros s' st Hs' Hst; destruct (decide (s' = s)) as [->|Hne];
    [ congruence | rewrite lookup_insert_ne in Hs' by congruence; eauto ].
Qed.

Lemma wf_handle (e : Event) (w w' : World) :
  wf w -> handle e w = Some w' -> wf w'.
Proof.
  intros Hwf H. destruct e; simpl in H.
  - destruct (sockets w !! s) as [[| | |]|] eqn:E; inversion H; subst.
    apply wf_open; assumption.
  - destruct (sockets w !! s) as [[| | |]|] eqn:E; inversion H; subst;
      (eapply wf_same_conn; [ apply same_conn_message | assumption ]).
  - destruct (sockets w !! s) as [[| | |]|] eqn:E; inversion H; subst;
      assumption.
  - destruct (sockets w !! s) as [[| | |]|] eqn:E; inversion H; subst;
      (eapply wf_close; [ assumption | eassumption | discriminate ]).
  - destruct (timers w !! t) as [delay|] eqn:E; inversion H; subst.
    eapply wf_timer; eassumption.
  - inversion H; subst.
    eapply wf_same_conn; [ apply same_conn_upd_board | assumption ].
  - inversion H; subst.
    eapply wf_same_conn; [ apply same_conn_config | assumption ].
  - inversion H; subst.
    eapply wf_same_conn; [ apply same_conn_upd_board | assumption ].
  - inversion H; subst.
    eapply wf_same_conn; [ apply same_conn_release | assumption ].
  - inversion H; subst. apply wf_unmount; assumption.
Qed.

Lemma dispatch_inv (e : Event) (w w' : World) :
  dispatch e w = Some w' ->
  exists w0, handle e w = Some w0 /\ w' = notify w w0.
Proof.
  unfold dispatch. destruct (handle e w) as [w0|]; simpl; intros H;
    inversion H; eauto.
Qed.

Lemma wf_dispatch (e : Event) (w w' : World) :
  wf w -> dispatch e w = Some w' -> wf w'.
Proof.
  intros Hwf H. apply dispatch_inv in H as (w0 & Hh & ->).
  eapply wf_same_conn; [ apply same_conn_notify | ].
  eapply wf_handle; eassumption.
Qed.

Lemma wf_run (es : list Event) (w w' : World) :
  wf w -> run es w = Some w' -> wf w'.
Proof.
  revert w. induction es as [|e es IH]; simpl; intros w Hwf H.
  - inversion H; subst; assumption.
  - destruct (dispatch e w) as [w1|] eqn:E; [ | discriminate ].
    eapply IH; [ eapply wf_dispatch; eassumption | assumption ].
Qed.

Lemma wf_reachable (w : World) : reachable w -> wf w.
Proof.
  intros (c & st & es & H). eapply wf_run; [ apply wf_created | exact H ].
Qed.

End EventLoop.

Section Frames.
Import Operation Conn ConnView.

(** What the reconnect scheduling leaves alone. *)
Lemma scheduleReconnect_frame (w : World) :
  let w' := scheduleReconnect w in
  reconnectAttempts (app w') = reconnectAttempts (app w) /\
  restoredFromServer (app w') = restoredFromServer (app w) /\
  board (app w') = board (app w) /\
  clientRole (app w') = clientRole (app w) /\
  socket (app w') = socket (app w) /\
  sockets w' = sockets w /\ next_socket w' = next_socket w /\
  sent w' = sent w.
Proof.
  unfold scheduleReconnect, cancelReconnect.
  destruct (reconnectTimer (app w)) as [t|];
    case_tests; unfold_setters; proj_simpl; repeat split; reflexivity.
Qed.

Lemma cancelReconnect_frame (w : World) :
  let w' := cancelReconnect w in
  connectionStatus (app w') = connectionStatus (app w) /\
  reconnectAttempts (app w') = reconnectAttempts (app w) /\
  restoredFromServer (app w') = restoredFromServer (app w) /\
  board (app w') = board (app w) /\
  socket (app w') = socket (app w) /\
  sockets w' = sockets w /\ next_socket w' = next_socket w /\
  sent w' = sent w /\
  (timers w = ∅ -> timers w' = ∅).
Proof.
  unfold cancelReconnect.
  case_tests; unfold_setters; proj_simpl; repeat split; try reflexivity;
    try tauto.
  intros ->. apply delete_empty.
Qed.

Lemma connectWebSocket_frame (constructed : bool) (w : World) :
  let w' := connectWebSocket constructed w in
  reconnectAttempts (app w') = reconnectAttempts (app w) /\
  restoredFromServer (app w') = restoredFromServer (app w) /\
  board (app w') = board (app w) /\ sent w' = sent w.
Proof.
  unfold connectWebSocket. destruct constructed.
  - unfold_setters; proj_simpl; repeat split; reflexivity.
  - pose proof (scheduleReconnect_frame w). simpl in *. tauto.
Qed.

Lemma open_frame (w : World) :
  let w' := handleWebSocketOpen w in
  reconnectAttempts (app w') = 0 /\
  connectionStatus (app w') = connected /\
  restoredFromServer (app w') = restoredFromServer (app w) /\
  board (app w') = board (app w).
Proof.
  unfold handleWebSocketOpen, socket_send.
  case_tests; unfold_setters; proj_simpl; repeat split; reflexivity.
Qed.

Lemma close_frame (w : World) :
  let w' := handleWebSocketClose w in
  reconnectAttempts (app w') = reconnectAttempts (app w) /\
  restoredFromServer (app w') = restoredFromServer (app w) /\
  board (app w') = board (app w) /\ sent w' = sent w.
Proof.
  unfold handleWebSocketClose. case_bool_decide.
  - pose proof (scheduleReconnect_frame
                  (upd_app (set_connectionStatus reconnecting) w)) as Hf.
    simpl in Hf. revert Hf. unfold_setters; proj_simpl. tauto.
  - simpl. tauto.
Qed.

Lemma timer_frame (constructed : bool) (w : World) :
  let w' := reconnect_timer_fired constructed w in
  reconnectAttempts (app w') = reconnectAttempts (app w) + 1 /\
  restoredFromServer (app w') = restoredFromServer (app w) /\
  board (app w') = board (app w) /\ sent w' = sent w.
Proof.
  unfold reconnect_timer_fired.
  pose proof (connectWebSocket_frame constructed
    (upd_app (fun a => set_reconnectAttempts (reconnectAttempts a + 1) a) w))
    as Hf.
  simpl in Hf. revert Hf. unfold_setters; proj_simpl. tauto.
Qed.

Lemma unmount_frame (w : World) :
  let w' := beforeUnmount w in
  connectionStatus (app w') = connectionStatus (app w) /\
  reconnectAttempts (app w') = reconnectAttempts (app w) /\
  restoredFromServer (app w') = restoredFromServer (app w) /\
  board (app w') = board (app w) /\
  next_socket w' = next_socket w /\ sent w' = sent w /\
  (timers w = ∅ -> timers w' = ∅) /\
  ((forall s, sockets w !! s <> Some CONNECTING) ->
   forall s, sockets w' !! s <> Some CONNECTING).
Proof.
  unfold beforeUnmount.
  pose proof (cancelReconnect_frame w) as Hc. simpl in Hc.
  destruct Hc as (C1 & C2 & C3 & C4 & C5 & C6 & C7 & C8 & C9).
  destruct (socket (app (cancelReconnect w))) as [s|];
    [ | simpl; rewrite C6; tauto ].
  unfold close_socket.
  destruct (sockets (cancelReconnect w) !! s) as [[| | |]|] eqn:E;
    unfold_setters; proj_simpl; rewrite ?C6; repeat split; try tauto.
  all: intros Hno s'; destruct (decide (s' = s)) as [->|Hne];
    [ rewrite lookup_insert_eq; discriminate
    | rewrite lookup_insert_ne by congruence; apply Hno ].
Qed.

Lemma message_flag (data : Inbound) (w : World) :
  restoredFromServer (app (handleWebSocketMessage data w)) =
  match data with
  | Parsed m => is_game_state m || restoredFromServer (app w)
  | Unparsable => restoredFromServer (app w)
  end.
Proof.
  destruct data as [|m]; [ reflexivity | ].
  destruct (is_game_state m) eqn:Hm.
  - rewrite (handle_game_state m w Hm). reflexivity.
  - unfold handleWebSocketMessage, store_token. rewrite Hm.
    case_tests; unfold_setters; proj_simpl; reflexivity.
Qed.

Lemma release_flag (confirmed : bool) (w : World) :
  restoredFromServer (app (releaseMasterControl confirmed w)) =
  restoredFromServer (app w).
Proof.
  unfold releaseMasterControl, socket_send.
  case_tests; unfold_setters; proj_simpl; reflexivity.
Qed.

Lemma config_flag (force : bool) (data : InitData) (a : App) :
  restoredFromServer (loadConfiguration force data a) = restoredFromServer a.
Proof. unfold loadConfiguration. case_tests; reflexivity. Qed.

(** Only a game-state message raises the flag. *)
Lemma flag_raised_by_receiver (e : Event) (w w' : World) :
  handle e w = Some w' ->
  restoredFromServer (app w) = false ->
  restoredFromServer (app w') = true ->
  is_game_state_event e = true.
Proof.
  intros H Hoff Hon. destruct e; simpl in H.
  - destruct (sockets w !! s) as [[| | |]|]; inversion H; subst.
    pose proof (open_frame (set_sockets (<[s:=OPEN]> (sockets w)) w)) as Hf.
    simpl in Hf. destruct Hf as (_ & _ & Hf & _).
    rewrite Hf in Hon. simpl in Hon. congruence.
  - assert (Hw : w' = handleWebSocketMessage data w)
      by (destruct (sockets w !! s) as [[| | |]|]; inversion H; reflexivity).
    subst w'. rewrite message_flag in Hon.
    destruct data as [|m]; [ congruence | ].
    simpl. rewrite Hoff, orb_false_r in Hon. exact Hon.
  - destruct (sockets w !! s) as [[| | |]|]; inversion H; subst;
      unfold handleWebSocketError in Hon; congruence.
  - assert (Hw : w' = handleWebSocketClose
                        (set_sockets (<[s:=CLOSED]> (sockets w)) w))
      by (destruct (sockets w !! s) as [[| | |]|]; inversion H; reflexivity).
    subst w'.
    pose proof (close_frame (set_sockets (<[s:=CLOSED]> (sockets w)) w)) as Hf.
    simpl in Hf. destruct Hf as (_ & Hf & _).
    rewrite Hf in Hon. simpl in Hon. congruence.
  - destruct (timers w !! t); inversion H; subst.
    pose proof (timer_frame constructed
                  (set_timers (delete t (timers w)) w)) as Hf.
    simpl in Hf. destruct Hf as (_ & Hf & _).
    rewrite Hf in Hon. simpl in Hon. congruence.
  - inversion H; subst. simpl in Hon. congruence.
  - inversion H; subst. unfold upd_app, set_app in Hon; proj_simpl.
    rewrite config_flag in Hon. congruence.
  - inversion H; subst. simpl in Hon. congruence.
  - inversion H; subst. rewrite release_flag in Hon. congruence.
  - inversion H; subst.
    pose proof (unmount_frame w) as Hf. simpl in Hf.
    destruct Hf as (_ & _ & Hf & _). congruence.
Qed.

(** No callback lowers the flag; only the watcher does. *)
Lemma flag_kept_by_handlers (e : Event) (w w' : World) :
  handle e w = Some w' ->
  restoredFromServer (app w) = true ->
  restoredFromServer (app w') = true.
Proof.
  intros H Hon. destruct e; simpl in H.
  - destruct (sockets w !! s) as [[| | |]|]; inversion H; subst.
    pose proof (open_frame (set_sockets (<[s:=OPEN]> (sockets w)) w)) as Hf.
    simpl in Hf. destruct Hf as (_ & _ & Hf & _). rewrite Hf. exact Hon.
  - assert (Hw : w' = handleWebSocketMessage data w)
      by (destruct (sockets w !! s) as [[| | |]|]; inversion H; reflexivity).
    subst w'. rewrite message_flag, Hon.
    destruct data; [ reflexivity | apply orb_true_r ].
  - destruct (sockets w !! s) as [[| | |]|]; inversion H; subst; exact Hon.
  - assert (Hw : w' = handleWebSocketClose
                        (set_sockets (<[s:=CLOSED]> (sockets w)) w))
      by (destruct (sockets w !! s) as [[| | |]|]; inversion H; reflexivity).
    subst w'.
    pose proof (close_frame (set_sockets (<[s:=CLOSED]> (sockets w)) w)) as Hf.
    simpl in Hf. destruct Hf as (_ & Hf & _). rewrite Hf. exact Hon.
  - destruct (timers w !! t); inversion H; subst.
    pose proof (timer_frame constructed
                  (set_timers (delete t (timers w)) w)) as Hf.
    simpl in Hf. destruct Hf as (_ & Hf & _). rewrite Hf. exact Hon.
  - inversion H; subst. exact Hon.
  - inversion H; subst. unfold upd_app, set_app; proj_simpl.
    rewrite config_flag. exact Hon.
  - inversion H; subst. exact Hon.
  - inversion H; subst. rewrite release_flag. exact Hon.
  - inversion H; subst.
    pose proof (unmount_frame w) as Hf. simpl in Hf.
    destruct Hf as (_ & _ & Hf & _). congruence.
Qed.

Lemma watcher_flag (w : World) :
  restoredFromServer (app (boardData_watcher w)) = false.
Proof.
  unfold boardData_watcher, updateBoard, socket_send.
  case_tests; unfold_setters; proj_simpl; congruence.
Qed.

Lemma notify_flag (w0 w : World) :
  restoredFromServer (app (notify w0 w)) = true ->
  restoredFromServer (app w) = true.
Proof.
  unfold notify. destruct (decide _); [ tauto | ].
  rewrite watcher_flag. discriminate.
Qed.

Lemma notify_board (w0 w : World) : board (app (notify w0 w)) = board (app w).
Proof.
  unfold notify, boardData_watcher, updateBoard, socket_send.
  case_tests; unfold_setters; proj_simpl; reflexivity.
Qed.

(** The attempt counter: zero after an open, never lowered otherwise. *)
Lemma attempts_handle (e : Event) (w w' : World) :
  handle e w = Some w' ->
  if is_open_event e then reconnectAttempts (app w') = 0
  else reconnectAttempts (app w) <= reconnectAttempts (app w').
Proof.
  intros H. destruct e; simpl in H; cbn [is_open_event].
  - destruct (sockets w !! s) as [[| | |]|]; inversion H; subst.
    apply open_frame.
  - assert (Hw : w' = handleWebSocketMessage data w)
      by (destruct (sockets w !! s) as [[| | |]|]; inversion H; reflexivity).
    subst w'. pose proof (same_conn_message data w) as (_ & E & _).
    rewrite E. lia.
  - destruct (sockets w !! s) as [[| | |]|]; inversion H; subst;
      unfold handleWebSocketError; lia.
  - assert (Hw : w' = handleWebSocketClose
                        (set_sockets (<[s:=CLOSED]> (sockets w)) w))
      by (destruct (sockets w !! s) as [[| | |]|]; inversion H; reflexivity).
    subst w'.
    pose proof (close_frame (set_sockets (<[s:=CLOSED]> (sockets w)) w)) as Hf.
    simpl in Hf. destruct Hf as (Hf & _). rewrite Hf. simpl. lia.
  - destruct (timers w !! t); inversion H; subst.
    pose proof (timer_frame constructed
                  (set_timers (delete t (timers w)) w)) as Hf.
    simpl in Hf. destruct Hf as (Hf & _). rewrite Hf. simpl. lia.
  - inversion H; subst. simpl. lia.
  - inversion H; subst.
    pose proof (same_conn_config forceReload data w) as (_ & E & _).
    rewrite E. lia.
  - inversion H; subst. simpl. lia.
  - inversion H; subst.
    pose proof (same_conn_release confirmed w) as (_ & E & _).
    rewrite E. lia.
  - inversion H; subst.
    pose proof (unmount_frame w) as Hf. simpl in Hf.
    destruct Hf as (_ & Hf & _). rewrite Hf. lia.
Qed.

Lemma attempts_dispatch (e : Event) (w w' : World) :
  dispatch e w = Some w' ->
  if is_open_event e then reconnectAttempts (app w') = 0
  else reconnectAttempts (app w) <= reconnectAttempts (app w').
Proof.
  intros H. apply dispatch_inv in H as (w0 & Hh & ->).
  pose proof (same_conn_notify w w0) as (_ & E & _). rewrite E.
  apply attempts_handle; assumption.
Qed.

End Frames.

Section Broadcast.
Import Operation Conn ConnView.

Lemma watcher_flag_set (w : World) :
  restoredFromServer (app w) = true ->
  boardData_watcher w = upd_app (set_restoredFromServer false) w.
Proof. intros H. unfold boardData_watcher. rewrite H. reflexivity. Qed.

Lemma watcher_not_master (w : World) :
  isMaster (app w) = false -> sent (boardData_watcher w) = sent w.
Proof.
  unfold isMaster, boardData_watcher, updateBoard. intros H. rewrite H.
  rewrite andb_false_r. destruct (restoredFromServer (app w)); reflexivity.
Qed.

Lemma watcher_broadcasts (w : World) (s : nat) :
  restoredFromServer (app w) = false -> isMaster (app w) = true ->
  socket (app w) = Some s -> sockets w !! s = Some OPEN ->
  sent (boardData_watcher w) =
  (sent w ++ [(s, GameStateUpdate (board (app w)))])%list.
Proof.
  unfold isMaster, boardData_watcher, updateBoard, socket_open, socket_send.
  intros -> -> -> Hs. rewrite !bool_decide_eq_true_2 by assumption.
  reflexivity.
Qed.

Lemma slave_is_not_master (a : App) :
  isOperationDisabled a = true -> isMaster a = false.
Proof.
  unfold isOperationDisabled, isMaster, opt_str_is.
  destruct (clientRole a) as [r|]; [ | reflexivity ].
  intros H. apply String.eqb_eq in H. subst r. reflexivity.
Qed.

Lemma notify_not_master (w0 w : World) :
  isMaster (app w) = false -> sent (notify w0 w) = sent w.
Proof.
  intros H. unfold notify. destruct (decide _);
    [ reflexivity | apply watcher_not_master; assumption ].
Qed.

Lemma notify_role (w0 w : World) :
  clientRole (app (notify w0 w)) = clientRole (app w).
Proof.
  unfold notify, boardData_watcher, updateBoard, socket_send.
  case_tests; unfold_setters; proj_simpl; reflexivity.
Qed.

(** C1 as stated, refuted: with the role [slave], so that
    [isOperationDisabled] holds, [ballCountUp] takes the ball count from 0
    to 1. *)
Lemma slave_ballCountUp_changes_state :
  isOperationDisabled (app slave_world) = true /\
  ball_cnt (board (app slave_world)) = 0 /\
  exists w' : World,
    dispatch (EvOp Game.OpBallCountUp) slave_world = Some w' /\
    ball_cnt (board (app w')) = 1 /\
    board (app w') <> board (app slave_world).
Proof.
  split; [ reflexivity | ]. split; [ reflexivity | ].
  eexists. split; [ vm_compute; reflexivity | ].
  split; [ reflexivity | discriminate ].
Qed.

(** C1, amended. While [isOperationDisabled] holds (the role is
    [slave]) an operation invoked on the app still runs and changes the
    local game state as it does for a master; no error arises, the role is
    unchanged, and nothing is written to the socket: the change is not
    published, because [updateBoard] sends only for the role [master]. *)
Theorem slave_operation_stays_local (o : Game.Op) (w : World) :
  isOperationDisabled (app w) = true ->
  exists w' : World,
    dispatch (EvOp o) w = Some w' /\
    board (app w') = Game.run_op o (board (app w)) /\
    sent w' = sent w /\
    clientRole (app w') = clientRole (app w).
Proof.
  intros Hslave. apply slave_is_not_master in Hslave.
  eexists. split; [ reflexivity | ].
  rewrite notify_board, notify_role, notify_not_master by exact Hslave.
  repeat split.
Qed.

Lemma slave_operation_stays_local_witness :
  exists w' : World,
    dispatch (EvOp Game.OpBallCountUp) slave_world = Some w' /\
    board (app w') = Game.run_op Game.OpBallCountUp (board (app slave_world)) /\
    sent w' = sent slave_world /\
    clientRole (app w') = clientRole (app slave_world).
Proof.
  apply (slave_operation_stays_local Game.OpBallCountUp slave_world).
  vm_compute. reflexivity.
Defined.

Lemma message_dispatch (w : World) (s : nat) (m : Message) (w' : World) :
  is_game_state m = true ->
  dispatch (EvMessage s (Parsed m)) w = Some w' ->
  w' = notify w (handleWebSocketMessage (Parsed m) w).
Proof.
  intros Hm H. apply dispatch_inv in H as (w0 & Hh & ->). simpl in Hh.
  destruct (sockets w !! s) as [[| | |]|]; inversion Hh; reflexivity.
Qed.

Lemma remote_update_effects (w : World) (s : nat) (m : Message)
      (w' : World) :
  is_game_state m = true ->
  dispatch (EvMessage s (Parsed m)) w = Some w' ->
  (restoreState (state_payload m) (board (app w)) = board (app w) ->
   restoredFromServer (app w') = true) /\
  board (app w') = restoreState (state_payload m) (board (app w)) /\
  sent w' = sent w.
Proof.
  intros Hm H. pose proof (message_dispatch w s m w' Hm H) as ->.
  rewrite notify_board, (handle_game_state m w Hm).
  split; [ | split; [ reflexivity | ] ].
  - intros Hsame. unfold notify. destruct (decide _) as [|Hne];
      [ reflexivity | ].
    exfalso. apply Hne. unfold_setters; proj_simpl. exact Hsame.
  - unfold notify. destruct (decide _); [ reflexivity | ].
    rewrite watcher_flag_set by reflexivity. reflexivity.
Qed.

(** C3. When the operator panel receives a game state, the handler
    stores it and raises [restoredFromServer]; the change notification
    that follows finds the flag raised, lowers it and sends nothing, so
    the whole event writes nothing to the socket.  If the stored state
    equals the previous one no notification runs and the flag stays
    raised.  No other event raises the flag. *)
Theorem remote_update_not_rebroadcast (w : World) (s : nat) (m : Message)
        (w' : World) :
  is_game_state m = true ->
  dispatch (EvMessage s (Parsed m)) w = Some w' ->
  let received := handleWebSocketMessage (Parsed m) w in
  restoredFromServer (app received) = true /\
  board (app received) = restoreState (state_payload m) (board (app w)) /\
  sent received = sent w /\
  sent (boardData_watcher received) = sent w /\
  restoredFromServer (app (boardData_watcher received)) = false /\
  sent w' = sent w /\
  board (app w') = board (app received) /\
  (board (app received) <> board (app w) ->
   restoredFromServer (app w') = false) /\
  (board (app received) = board (app w) ->
   restoredFromServer (app w') = true) /\
  (forall (e : Event) (w1 w2 : World),
     dispatch e w1 = Some w2 ->
     restoredFromServer (app w1) = false ->
     restoredFromServer (app w2) = true ->
     is_game_state_event e = true).
Proof.
  intros Hm H received.
  pose proof (message_dispatch w s m w' Hm H) as ->.
  assert (Hflag : restoredFromServer (app received) = true).
  { subst received. rewrite message_flag, Hm. reflexivity. }
  assert (Hsent : sent received = sent w).
  { subst received. rewrite (handle_game_state m w Hm). reflexivity. }
  assert (Hw : sent (boardData_watcher received) = sent w).
  { rewrite (watcher_flag_set received Hflag). exact Hsent. }
  split; [ exact Hflag | ].
  split; [ subst received; rewrite (handle_game_state m w Hm); reflexivity | ].
  split; [ exact Hsent | ].
  split; [ exact Hw | ].
  split; [ apply watcher_flag | ].
  split.
  { fold received. unfold notify. destruct (decide _); assumption. }
  split; [ apply notify_board | ].
  split.
  { intros Hne. fold received. unfold notify.
    destruct (decide _); [ contradiction | apply watcher_flag ]. }
  split.
  { intros Heq. fold received. unfold notify.
    destruct (decide _); [ exact Hflag | contradiction ]. }
  intros e w1 w2 Hd Hoff Hon.
  apply dispatch_inv in Hd as (w0 & Hh & ->).
  apply notify_flag in Hon.
  eapply flag_raised_by_receiver; eassumption.
Qed.

Lemma flag_kept_while_board_unchanged (e : Event) (w w' : World) :
  dispatch e w = Some w' ->
  restoredFromServer (app w) = true ->
  board (app w') = board (app w) ->
  restoredFromServer (app w') = true.
Proof.
  intros H Hon Hsame. apply dispatch_inv in H as (w0 & Hh & ->).
  rewrite notify_board in Hsame. unfold notify.
  destruct (decide _); [ | contradiction ].
  eapply flag_kept_by_handlers; eassumption.
Qed.

Lemma raised_flag_drops_operation (w : World) (o : Game.Op) :
  restoredFromServer (app w) = true ->
  Game.run_op o (board (app w)) <> board (app w) ->
  exists w' : World,
    dispatch (EvOp o) w = Some w' /\
    board (app w') = Game.run_op o (board (app w)) /\
    sent w' = sent w /\
    restoredFromServer (app w') = false.
Proof.
  intros Hon Hop. eexists. split; [ reflexivity | ].
  unfold notify. destruct (decide _) as [Heq | Hne].
  - exfalso. apply Hop. exact Heq.
  - rewrite watcher_flag_set by exact Hon. repeat split.
Qed.

Lemma lowered_flag_broadcasts_operation (w : World) (o : Game.Op) (c : nat) :
  restoredFromServer (app w) = false -> isMaster (app w) = true ->
  socket (app w) = Some c -> sockets w !! c = Some OPEN ->
  Game.run_op o (board (app w)) <> board (app w) ->
  exists w' : World,
    dispatch (EvOp o) w = Some w' /\
    sent w' =
      (sent w ++ [(c, GameStateUpdate (Game.run_op o (board (app w))))])%list.
Proof.
  intros Hoff Hmaster Hsock Hopen Hop. eexists. split; [ reflexivity | ].
  unfold notify. destruct (decide _) as [Heq | Hne].
  - exfalso. apply Hop. exact Heq.
  - rewrite (watcher_broadcasts _ c); try assumption. reflexivity.
Qed.

(** C10. On the operator panel, when a received game state equals the
    local one, no notification runs and the flag is still raised after
    the event.  The flag then stays raised across every event that leaves
    the board data unchanged, and the next operation that changes the
    board finds it raised: its notification lowers the flag and sends
    nothing, although the same operation, run by an open master with the
    flag down, is broadcast. *)
Theorem stale_flag_drops_local_change (w : World) (s : nat) (m : Message)
        (w1 : World) (o : Game.Op) :
  is_game_state m = true ->
  dispatch (EvMessage s (Parsed m)) w = Some w1 ->
  restoreState (state_payload m) (board (app w)) = board (app w) ->
  Game.run_op o (board (app w)) <> board (app w) ->
  restoredFromServer (app w1) = true /\
  board (app w1) = board (app w) /\
  sent w1 = sent w /\
  (exists w2 : World,
     dispatch (EvOp o) w1 = Some w2 /\
     board (app w2) = Game.run_op o (board (app w)) /\
     sent w2 = sent w /\
     restoredFromServer (app w2) = false) /\
  (forall (e : Event) (wa wb : World),
     dispatch e wa = Some wb ->
     restoredFromServer (app wa) = true ->
     board (app wb) = board (app wa) ->
     restoredFromServer (app wb) = true) /\
  (forall (wa : World) (o' : Game.Op),
     restoredFromServer (app wa) = true ->
     Game.run_op o' (board (app wa)) <> board (app wa) ->
     exists wb : World,
       dispatch (EvOp o') wa = Some wb /\
       board (app wb) = Game.run_op o' (board (app wa)) /\
       sent wb = sent wa /\
       restoredFromServer (app wb) = false) /\
  (forall c : nat,
     restoredFromServer (app w) = false -> isMaster (app w) = true ->
     socket (app w) = Some c -> sockets w !! c = Some OPEN ->
     exists w2 : World,
       dispatch (EvOp o) w = Some w2 /\
       sent w2 =
         (sent w ++
            [(c, GameStateUpdate (Game.run_op o (board (app w))))])%list).
Proof.
  intros Hm H Hsame Hop.
  destruct (remote_update_effects w s m w1 Hm H)
    as (Hflag & Hboard & Hsent).
  rewrite Hsame in Hboard. specialize (Hflag Hsame).
  split; [ exact Hflag | ]. split; [ exact Hboard | ].
  split; [ exact Hsent | ]. split.
  { destruct (raised_flag_drops_operation w1 o Hflag) as (w2 & H1 & H2 & H3 & H4).
    - rewrite Hboard. exact Hop.
    - exists w2. rewrite <- Hboard, <- Hsent. auto. }
  split; [ exact flag_kept_while_board_unchanged | ].
  split; [ exact raised_flag_drops_operation | ].
  intros c Hoff Hmaster Hsock Hopen.
  apply lowered_flag_broadcasts_operation; assumption.
Qed.

Lemma remote_update_not_rebroadcast_witness :
  exists w' : World,
    dispatch (EvMessage 0%nat (Parsed Publish.sample_state_message))
             master_world = Some w' /\
    board (app w') = sample_board /\
    board (app w') <> board (app master_world) /\
    sent w' = sent master_world /\
    restoredFromServer (app w') = false.
Proof.
  pose (m := Publish.sample_state_message).
  pose (w' := notify master_world
                (handleWebSocketMessage (Parsed m) master_world)).
  assert (Hm : is_game_state m = true) by reflexivity.
  assert (Hd : dispatch (EvMessage 0%nat (Parsed m)) master_world = Some w')
    by (vm_compute; reflexivity).
  destruct (remote_update_not_rebroadcast master_world 0%nat m w' Hm Hd)
    as (_ & Hrestored & _ & _ & _ & Hsent & Hboard & Hlowered & _).
  assert (Hchanged : board (app (handleWebSocketMessage (Parsed m)
                                   master_world))
                     <> board (app master_world))
    by (vm_compute; discriminate).
  exists w'. split; [ exact Hd | ].
  split; [ rewrite Hboard, Hrestored; vm_compute; reflexivity | ].
  split; [ rewrite Hboard; exact Hchanged | ].
  split; [ exact Hsent | ].
  apply Hlowered. exact Hchanged.
Defined.

Lemma stale_flag_drops_local_change_witness :
  exists w1 w2 : World,
    dispatch (EvMessage 0%nat
                (Parsed (game_state_message (snapshot initial_board))))
             master_world = Some w1 /\
    restoredFromServer (app w1) = true /\
    dispatch (EvOp Game.OpBallCountUp) w1 = Some w2 /\
    ball_cnt (board (app w2)) = 1 /\
    sent w2 = sent master_world.
Proof.
  pose (m := game_state_message (snapshot initial_board)).
  pose (w1 := notify master_world
                (handleWebSocketMessage (Parsed m) master_world)).
  assert (Hd : dispatch (EvMessage 0%nat (Parsed m)) master_world = Some w1)
    by (vm_compute; reflexivity).
  destruct (stale_flag_drops_local_change master_world 0%nat m w1
              Game.OpBallCountUp)
    as (Hflag & _ & _ & (w2 & Hop & Hboard & Hsent & _) & _).
  - vm_compute; reflexivity.
  - exact Hd.
  - vm_compute; reflexivity.
  - vm_compute; discriminate.
  - exists w1, w2. split; [ exact Hd | ]. split; [ exact Hflag | ].
    split; [ exact Hop | ]. split; [ rewrite Hboard; reflexivity | exact Hsent ].
Defined.

End Broadcast.

Section Reconnect.
Import Operation Conn ConnView.

Lemma fresh_timers_eq (w w' : World) :
  timers w' = timers w -> next_timer w' = next_timer w ->
  fresh_timers w -> fresh_timers w'.
Proof. unfold fresh_timers. intros -> ->. tauto. Qed.

Lemma fresh_timers_delete (w : World) (t : positive) :
  fresh_timers w -> fresh_timers (set_timers (delete t (timers w)) w).
Proof.
  unfold fresh_timers. unfold_setters; proj_simpl.
  intros H t' delay Ht'. apply lookup_delete_Some in Ht' as [_ Ht'].
  eauto.
Qed.

Lemma fresh_timers_cancel (w : World) :
  fresh_timers w -> fresh_timers (cancelReconnect w).
Proof.
  unfold cancelReconnect. intros H.
  destruct (reconnectTimer (app w)) as [t|]; [ | exact H ].
  apply (fresh_timers_delete w t) in H. exact H.
Qed.

Lemma fresh_timers_schedule (w : World) :
  fresh_timers w -> fresh_timers (scheduleReconnect w).
Proof.
  intros H. apply fresh_timers_cancel in H. revert H.
  unfold scheduleReconnect. generalize (cancelReconnect w). clear w.
  intros w H. destruct (_ >=? _); [ exact H | ].
  unfold fresh_timers in *. unfold_setters; proj_simpl.
  intros t delay Ht. apply lookup_insert_Some in Ht as [[<- _] | [_ Ht]].
  - lia.
  - apply H in Ht. lia.
Qed.

Lemma fresh_timers_connect (constructed : bool) (w : World) :
  fresh_timers w -> fresh_timers (connectWebSocket constructed w).
Proof.
  unfold connectWebSocket. destruct constructed;
    [ tauto | apply fresh_timers_schedule ].
Qed.

Lemma fresh_timers_handle (e : Event) (w w' : World) :
  fresh_timers w -> handle e w = Some w' -> fresh_timers w'.
Proof.
  intros Hf H. destruct e; simpl in H.
  - destruct (sockets w !! s) as [[| | |]|]; inversion H; subst.
    unfold handleWebSocketOpen.
    eapply fresh_timers_eq; [ | | exact Hf ];
      unfold socket_send; case_tests; reflexivity.
  - assert (Hw : w' = handleWebSocketMessage data w)
      by (destruct (sockets w !! s) as [[| | |]|]; inversion H; reflexivity).
    subst w'. pose proof (same_conn_message data w)
      as (_ & _ & _ & _ & _ & _ & _ & E8 & _ & E10).
    eapply fresh_timers_eq; eassumption.
  - destruct (sockets w !! s) as [[| | |]|]; inversion H; subst; exact Hf.
  - assert (Hw : w' = handleWebSocketClose
                        (set_sockets (<[s:=CLOSED]> (sockets w)) w))
      by (destruct (sockets w !! s) as [[| | |]|]; inversion H; reflexivity).
    subst w'. unfold handleWebSocketClose. case_bool_decide; [ | exact Hf ].
    apply fresh_timers_schedule. exact Hf.
  - destruct (timers w !! t); inversion H; subst.
    unfold reconnect_timer_fired. apply fresh_timers_connect.
    apply (fresh_timers_delete w t Hf).
  - inversion H; subst. exact Hf.
  - inversion H; subst. exact Hf.
  - inversion H; subst. exact Hf.
  - inversion H; subst.
    pose proof (same_conn_release confirmed w)
      as (_ & _ & _ & _ & _ & _ & _ & E8 & _ & E10).
    eapply fresh_timers_eq; eassumption.
  - inversion H; subst. unfold beforeUnmount.
    apply fresh_timers_cancel in Hf.
    destruct (socket (app (cancelReconnect w))) as [s|]; [ | exact Hf ].
    unfold close_socket.
    destruct (sockets (cancelReconnect w) !! s) as [[| | |]|]; exact Hf.
Qed.

Lemma fresh_timers_run (es : list Event) (w w' : World) :
  fresh_timers w -> run es w = Some w' -> fresh_timers w'.
Proof.
  revert w. induction es as [|e es IH]; simpl; intros w Hw H.
  - inversion H; subst; assumption.
  - destruct (dispatch e w) as [w1|] eqn:E; [ | discriminate ].
    apply (IH w1); [ | assumption ].
    apply dispatch_inv in E as (w2 & Hh & ->).
    pose proof (same_conn_notify w w2)
      as (_ & _ & _ & _ & _ & _ & _ & E8 & _ & E10).
    eapply fresh_timers_eq; [ exact E8 | exact E10 | ].
    eapply fresh_timers_handle; eassumption.
Qed.

Lemma fresh_timers_reachable (w : World) : reachable w -> fresh_timers w.
Proof.
  intros (c & st & es & H).
  eapply fresh_timers_run; [ | exact H ].
  apply fresh_timers_connect. intros t delay Ht. simpl in Ht.
  rewrite lookup_empty in Ht. discriminate Ht.
Qed.

Lemma scheduleReconnect_only_new (w : World) (t : positive) :
  timers w = ∅ -> t <> next_timer w ->
  timers (scheduleReconnect w) !! t = None.
Proof.
  intros Hempty Hne. unfold scheduleReconnect.
  pose proof (cancelReconnect_frame w) as Hc. simpl in Hc.
  destruct Hc as (_ & _ & _ & _ & _ & _ & _ & _ & Hc).
  specialize (Hc Hempty).
  assert (Hn : next_timer (cancelReconnect w) = next_timer w)
    by (unfold cancelReconnect; case_tests; reflexivity).
  revert Hc Hn. generalize (cancelReconnect w). intros w0 Hc Hn.
  case_tests; unfold_setters; proj_simpl; rewrite Hc.
  - apply lookup_empty.
  - rewrite lookup_insert_ne by congruence. apply lookup_empty.
Qed.

(** Firing the timer that [scheduleReconnect] armed. *)
Lemma armed_timer_fires (w : World) (constructed : bool) :
  timers_owned w ->
  reconnectAttempts (app w) < maxReconnectAttempts (app w) ->
  exists w2 : World,
    dispatch (EvTimer (next_timer w) constructed) (scheduleReconnect w)
      = Some w2 /\
    reconnectAttempts (app w2) = reconnectAttempts (app w) + 1 /\
    timers w2 !! next_timer w = None /\
    (constructed = true ->
     timers w2 = ∅ /\ socket (app w2) = Some (next_socket w) /\
     sockets w2 !! next_socket w = Some CONNECTING).
Proof.
  intros Hown Hlt.
  pose proof (scheduleReconnect_arms w Hown Hlt) as Harm.
  set (w1 := scheduleReconnect w) in *.
  assert (Ht : timers w1 = {[ next_timer w := backoff_delay (app w) ]})
    by (rewrite Harm; reflexivity).
  assert (Hn : next_timer w1 = (next_timer w + 1)%positive)
    by (rewrite Harm; reflexivity).
  assert (Hr : reconnectTimer (app w1) = Some (next_timer w))
    by (rewrite Harm; reflexivity).
  assert (Ha : reconnectAttempts (app w1) = reconnectAttempts (app w))
    by (rewrite Harm; reflexivity).
  assert (Hm : maxReconnectAttempts (app w1) = maxReconnectAttempts (app w))
    by (rewrite Harm; reflexivity).
  assert (Hs : next_socket w1 = next_socket w) by (rewrite Harm; reflexivity).
  clearbody w1.
  unfold dispatch, handle. rewrite Ht, lookup_singleton_eq.
  rewrite delete_singleton_eq. cbn [fmap option_fmap option_map].
  eexists. split; [ reflexivity | ].
  set (w0 := set_timers ∅ w1).
  pose proof (timer_frame constructed w0) as (Hatt & _).
  pose proof (same_conn_notify w1 (reconnect_timer_fired constructed w0))
    as (_ & E2 & _ & _ & _ & E6 & E7 & E8 & _).
  rewrite E2, E6, E7, E8, Hatt. subst w0.
  split; [ unfold_setters; proj_simpl; lia | ].
  unfold reconnect_timer_fired, connectWebSocket. destruct constructed.
  - unfold_setters; proj_simpl. rewrite Hs.
    split; [ apply lookup_empty | ].
    intros _. split; [ reflexivity | ]. split; [ reflexivity | ].
    apply lookup_insert_eq.
  - split; [ | discriminate ].
    apply scheduleReconnect_only_new; [ reflexivity | ].
    unfold_setters; proj_simpl. rewrite Hn. lia.
Qed.

(** C5. Whenever [scheduleReconnect] runs with [n] attempts so far,
    [n] below the maximum of ten, on a state where the only timer that
    can be pending is the one [reconnectTimer] holds, it leaves exactly
    one timer pending: a new one (any earlier one is cancelled) whose delay
    is min(1000 * 2^n, 30000) ms; status and attempt count are kept.  When
    that timer fires the attempt count becomes [n + 1] and the connection
    is retried: a new connecting socket, or, when the socket cannot be
    constructed, the next schedule.  An open event sets the attempt count
    to 0 and no other event ever lowers it.  The conditions on the state
    hold in every world the page can reach. *)
Theorem reconnect_backoff (w : World) (n : Z) :
  config_ok (app w) -> timers_owned w -> fresh_timers w ->
  reconnectAttempts (app w) = n -> 0 <= n < 10 ->
  timers (scheduleReconnect w) =
    {[ next_timer w := Z.min (1000 * 2 ^ n) 30000 ]} /\
  reconnectTimer (app (scheduleReconnect w)) = Some (next_timer w) /\
  timers w !! next_timer w = None /\
  connectionStatus (app (scheduleReconnect w)) = connectionStatus (app w) /\
  reconnectAttempts (app (scheduleReconnect w)) = n /\
  (forall constructed : bool,
     exists w2 : World,
       dispatch (EvTimer (next_timer w) constructed) (scheduleReconnect w)
         = Some w2 /\
       reconnectAttempts (app w2) = n + 1 /\
       timers w2 !! next_timer w = None /\
       (constructed = true ->
        timers w2 = ∅ /\ socket (app w2) = Some (next_socket w) /\
        sockets w2 !! next_socket w = Some CONNECTING)) /\
  (forall (e : Event) (w1 w2 : World),
     dispatch e w1 = Some w2 ->
     if is_open_event e then reconnectAttempts (app w2) = 0
     else reconnectAttempts (app w1) <= reconnectAttempts (app w2)) /\
  (forall w' : World,
     reachable w' ->
     config_ok (app w') /\ timers_owned w' /\ fresh_timers w').
Proof.
  intros (Hmax & Hdelay) Hown Hfresh Hn Hrange.
  assert (Hlt : reconnectAttempts (app w) < maxReconnectAttempts (app w))
    by lia.
  pose proof (scheduleReconnect_arms w Hown Hlt) as Harm.
  split.
  { rewrite Harm. unfold backoff_delay. rewrite Hdelay, Hn. reflexivity. }
  split; [ rewrite Harm; reflexivity | ].
  split.
  { destruct (timers w !! next_timer w) as [delay|] eqn:E; [ | reflexivity ].
    apply Hfresh in E. lia. }
  split; [ rewrite Harm; reflexivity | ].
  split; [ rewrite Harm; exact Hn | ].
  split.
  { intros constructed. rewrite <- Hn.
    apply armed_timer_fires; assumption. }
  split; [ apply attempts_dispatch | ].
  intros w' Hreach. pose proof (fresh_timers_reachable w' Hreach).
  apply wf_reachable in Hreach as (? & _ & ? & _). auto.
Qed.

(** After two failed attempts a timer of 4000 ms is pending; scheduling
    again cancels it and arms a new one with the same delay. *)
Lemma reconnect_backoff_witness :
  let w := after two_failures created_world in
  timers w = {[ 3%positive := 4000 ]} /\
  timers (scheduleReconnect w) = {[ 4%positive := 4000 ]} /\
  exists w2 : World,
    dispatch (EvTimer 4 true) (scheduleReconnect w) = Some w2 /\
    reconnectAttempts (app w2) = 3.
Proof.
  intros w.
  assert (Hcfg : config_ok (app w)) by (split; reflexivity).
  assert (Hown : timers_owned w)
    by (apply (bool_decide_unpack _); vm_compute; exact I).
  assert (Hfresh : fresh_timers w)
    by (apply (bool_decide_unpack _); vm_compute; exact I).
  assert (Hn : reconnectAttempts (app w) = 2) by reflexivity.
  assert (Hrange : 0 <= 2 < 10) by lia.
  destruct (reconnect_backoff w 2 Hcfg Hown Hfresh Hn Hrange)
    as (Ht & _ & _ & _ & _ & Hfire & _).
  split; [ vm_compute; reflexivity | ].
  split; [ exact Ht | ].
  destruct (Hfire true) as (w2 & Hd & Ha & _).
  exists w2. split; [ exact Hd | exact Ha ].
Defined.

End Reconnect.

Section Terminal.
Import Operation Conn ConnView.

Lemma close_when_disconnected (w : World) :
  connectionStatus (app w) = disconnected -> handleWebSocketClose w = w.
Proof.
  intros H. unfold handleWebSocketClose.
  rewrite bool_decide_eq_false_2; [ reflexivity | ]. intros Hne. tauto.
Qed.

Lemma terminal_handle (e : Event) (w w' : World) :
  terminal w -> handle e w = Some w' ->
  terminal w' /\ next_socket w' = next_socket w.
Proof.
  intros Hterm H. pose proof Hterm as (Hst & Htm & Hno).
  destruct e; simpl in H.
  - pose proof (Hno s).
    destruct (sockets w !! s) as [[| | |]|]; inversion H; congruence.
  - assert (Hw : w' = handleWebSocketMessage data w)
      by (destruct (sockets w !! s) as [[| | |]|]; inversion H; reflexivity).
    subst w'. pose proof (same_conn_message data w) as Hc.
    split; [ eapply terminal_same_conn; eassumption | apply Hc ].
  - destruct (sockets w !! s) as [[| | |]|]; inversion H; subst;
      split; (assumption || reflexivity).
  - assert (Hw : w' = handleWebSocketClose
                        (set_sockets (<[s:=CLOSED]> (sockets w)) w))
      by (destruct (sockets w !! s) as [[| | |]|]; inversion H; reflexivity).
    subst w'. rewrite close_when_disconnected by exact Hst.
    split; [ | reflexivity ].
    split; [ exact Hst | ]. split; [ exact Htm | ].
    intros s'. unfold_setters; proj_simpl.
    destruct (decide (s' = s)) as [->|Hne];
      [ rewrite lookup_insert_eq; discriminate
      | rewrite lookup_insert_ne by congruence; apply Hno ].
  - rewrite Htm, lookup_empty in H. discriminate H.
  - inversion H; subst.
    pose proof (same_conn_upd_board (Game.run_op o) w) as Hc.
    split; [ eapply terminal_same_conn; eassumption | apply Hc ].
  - inversion H; subst.
    pose proof (same_conn_config forceReload data w) as Hc.
    split; [ eapply terminal_same_conn; eassumption | apply Hc ].
  - inversion H; subst.
    pose proof (same_conn_upd_board (loadFromInitData data) w) as Hc.
    split; [ eapply terminal_same_conn; eassumption | apply Hc ].
  - inversion H; subst.
    pose proof (same_conn_release confirmed w) as Hc.
    split; [ eapply terminal_same_conn; eassumption | apply Hc ].
  - inversion H; subst.
    pose proof (unmount_frame w) as Hf. simpl in Hf.
    destruct Hf as (F1 & _ & _ & _ & F5 & _ & F7 & F8).
    split; [ | exact F5 ].
    split; [ congruence | ]. split; [ auto | auto ].
Qed.

Lemma terminal_run (es : list Event) (w w' : World) :
  terminal w -> run es w = Some w' ->
  terminal w' /\ next_socket w' = next_socket w.
Proof.
  revert w. induction es as [|e es IH]; simpl; intros w Hterm H.
  - inversion H; subst. split; [ assumption | reflexivity ].
  - destruct (dispatch e w) as [w1|] eqn:E; [ | discriminate ].
    apply dispatch_inv in E as (w0 & Hh & ->).
    destruct (terminal_handle e w w0 Hterm Hh) as (Ht0 & Hn0).
    pose proof (same_conn_notify w w0) as Hc.
    destruct (IH (notify w w0)) as (Ht & Hn);
      [ eapply terminal_same_conn; eassumption | assumption | ].
    split; [ exact Ht | ].
    destruct Hc as (_ & _ & _ & _ & _ & _ & _ & _ & E9 & _). congruence.
Qed.

Lemma close_at_max_attempts (w : World) (s : nat) (w1 : World) :
  reachable w -> 10 <= reconnectAttempts (app w) ->
  connectionStatus (app w) <> disconnected ->
  dispatch (EvClose s) w = Some w1 ->
  terminal w1 /\ reconnectTimer (app w1) = None.
Proof.
  intros Hreach Hten Hstatus H.
  apply wf_reachable in Hreach as ((Hmax & Hdelay) & _ & Hown & Hlive & _).
  apply dispatch_inv in H as (w0 & Hh & ->). simpl in Hh.
  destruct (sockets w !! s) as [st|] eqn:Es;
    [ | discriminate Hh ].
  assert (Hst : st <> CLOSED) by (intros ->; discriminate Hh).
  assert (Hw0 : w0 = handleWebSocketClose
                       (set_sockets (<[s:=CLOSED]> (sockets w)) w))
    by (destruct st; inversion Hh; reflexivity).
  pose proof (all_closed_after_close w s st Hlive Es Hst) as Hclosed.
  pose proof (same_conn_notify w w0) as Hc.
  assert (Hgoal : terminal w0 /\ reconnectTimer (app w0) = None).
  { subst w0. unfold handleWebSocketClose.
    rewrite bool_decide_eq_true_2 by exact Hstatus.
    rewrite scheduleReconnect_terminal; [ | exact Hown | simpl; lia ].
    split; [ | reflexivity ].
    split; [ reflexivity | ]. split; [ reflexivity | ].
    intros s' Hs'. apply Hclosed in Hs'. discriminate Hs'. }
  destruct Hgoal as (Ht & Hr).
  split; [ eapply terminal_same_conn; eassumption | ].
  destruct Hc as (_ & _ & _ & _ & E5 & _). congruence.
Qed.

(** C6. When [scheduleReconnect] runs with the attempt count at the
    maximum of ten or above, the status becomes [disconnected] and no
    timer is pending.  In a world the page can reach, a close event at
    that count leaves the page in this state with every socket closed,
    and whatever events follow, the status stays [disconnected], no timer
    is ever pending and no socket is ever created: the close handler
    returns the state unchanged once the status is [disconnected]. *)
Theorem max_attempts_terminal (w : World) (s : nat) (w1 : World) :
  reachable w -> 10 <= reconnectAttempts (app w) ->
  connectionStatus (app w) <> disconnected ->
  dispatch (EvClose s) w = Some w1 ->
  (connectionStatus (app w1) = disconnected /\ timers w1 = ∅ /\
   reconnectTimer (app w1) = None /\
   forall s' : nat, sockets w1 !! s' <> Some CONNECTING) /\
  handleWebSocketClose w1 = w1 /\
  (forall (es : list Event) (w2 : World),
     run es w1 = Some w2 ->
     connectionStatus (app w2) = disconnected /\ timers w2 = ∅ /\
     next_socket w2 = next_socket w1 /\
     forall s' : nat, sockets w2 !! s' <> Some CONNECTING) /\
  (forall w0 : World,
     timers_owned w0 ->
     maxReconnectAttempts (app w0) <= reconnectAttempts (app w0) ->
     connectionStatus (app (scheduleReconnect w0)) = disconnected /\
     timers (scheduleReconnect w0) = ∅ /\
     reconnectTimer (app (scheduleReconnect w0)) = None) /\
  (forall w0 : World,
     connectionStatus (app w0) = disconnected ->
     handleWebSocketClose w0 = w0).
Proof.
  intros Hreach Hten Hstatus H.
  destruct (close_at_max_attempts w s w1 Hreach Hten Hstatus H)
    as (Hterm & Htimer).
  pose proof Hterm as (Hst & Htm & Hno).
  split; [ auto | ].
  split; [ apply close_when_disconnected; exact Hst | ].
  split.
  { intros es w2 Hrun.
    destruct (terminal_run es w1 w2 Hterm Hrun) as ((? & ? & ?) & ?). auto. }
  split; [ | exact close_when_disconnected ].
  intros w0 Hown Hmax. rewrite (scheduleReconnect_terminal w0 Hown Hmax).
  repeat split.
Qed.

(** The tenth attempt in a row fails. *)
Lemma max_attempts_terminal_witness :
  let w := after tenth_attempt created_world in
  reconnectAttempts (app w) = 10 /\
  connectionStatus (app w) = reconnecting /\
  exists w1 : World,
    dispatch (EvClose 10%nat) w = Some w1 /\
    connectionStatus (app w1) = disconnected /\ timers w1 = ∅ /\
    forall (es : list Event) (w2 : World),
      run es w1 = Some w2 ->
      connectionStatus (app w2) = disconnected /\ timers w2 = ∅ /\
      next_socket w2 = next_socket w1.
Proof.
  intros w.
  assert (Hreach : reachable w).
  { exists true, ∅, tenth_attempt. vm_compute. reflexivity. }
  assert (Hten : 10 <= reconnectAttempts (app w)) by (vm_compute; discriminate).
  assert (Hstatus : connectionStatus (app w) <> disconnected)
    by (vm_compute; discriminate).
  pose (w1 := after [EvClose 10%nat] w).
  assert (Hd : dispatch (EvClose 10%nat) w = Some w1)
    by (vm_compute; reflexivity).
  destruct (max_attempts_terminal w 10%nat w1 Hreach Hten Hstatus Hd)
    as ((Hst & Htm & _) & _ & Hrun & _).
  split; [ vm_compute; reflexivity | ].
  split; [ vm_compute; reflexivity | ].
  exists w1. split; [ exact Hd | ]. split; [ exact Hst | ].
  split; [ exact Htm | ].
  intros es w2 Hes. destruct (Hrun es w2 Hes) as (? & ? & ? & _). auto.
Defined.

End Terminal.

(** ** Further properties of the game operations *)

Section GameExtras.
Import Game.

Lemma board_data_eta (d : BoardData) :
  d = {| game_title := game_title d; team_top := team_top d;
         team_bottom := team_bottom d; game_inning := game_inning d;
         last_inning := last_inning d; top := top d;
         first_base := first_base d; second_base := second_base d;
         third_base := third_base d; ball_cnt := ball_cnt d;
         strike_cnt := strike_cnt d; out_cnt := out_cnt d;
         score_top := score_top d; score_bottom := score_bottom d |}.
Proof. destruct d; reflexivity. Qed.

(** X1. Every operation of the panel keeps the inning between 0 and one
    past the last inning, provided the last inning is not negative, and
    no operation changes the last inning or the three texts. *)
Theorem inning_stays_in_range (o : Op) (d : BoardData) :
  (0 <= last_inning d -> inning_in_range d -> inning_in_range (run_op o d)) /\
  same_config d (run_op o d).
Proof.
  unfold inning_in_range, same_config. split.
  - intros Hlast Hin.
    destruct o as [| | | | | | | | | | | | | | | | | | [|] |]; unfold_ops;
      split_tests; simpl; lia.
  - destruct o as [| | | | | | | | | | | | | | | | | | [|] |]; unfold_ops;
      split_tests; simpl; repeat split; reflexivity.
Qed.

Lemma inning_stays_in_range_witness :
  inning_in_range (run_op OpEndGame sample_board) /\
  game_inning (run_op OpEndGame sample_board) = 10 /\
  last_inning (run_op OpGameForward sample_board) = 9.
Proof.
  destruct (inning_stays_in_range OpEndGame sample_board) as (Hin & _).
  destruct (inning_stays_in_range OpGameForward sample_board)
    as (_ & _ & _ & _ & Hlast).
  split.
  - apply Hin; unfold inning_in_range; simpl; lia.
  - split; [ reflexivity | exact Hlast ].
Defined.

(** X2. Whenever an operation changes the inning or the half, the state
    it returns has the three bases empty and the three counts at 0. *)
Theorem inning_change_clears_bases_and_counts (o : Op) (d : BoardData) :
  game_inning (run_op o d) <> game_inning d \/ top (run_op o d) <> top d ->
  bases_and_counts_reset (run_op o d).
Proof.
  unfold bases_and_counts_reset.
  destruct o as [| | | | | | | | | | | | | | | | | | [|] |]; unfold_ops;
    split_tests; simpl; intros [H | H]; try (exfalso; apply H; reflexivity);
    repeat split; reflexivity.
Qed.

Lemma inning_change_clears_bases_and_counts_witness :
  bases_and_counts_reset (run_op OpChangeOffense sample_board).
Proof.
  apply (inning_change_clears_bases_and_counts OpChangeOffense sample_board).
  right. simpl. discriminate.
Defined.

(** X3. Forward and backward undo each other during the game: for an
    inning from 1 to the last inning, stepping forward and then backward
    gives the state with bases and counts cleared, and so does stepping
    backward and then forward, except from the top of the 1st, where the
    step back lands on inning 0 and the scores come back as 0. *)
Theorem forward_backward_round_trip (d : BoardData) :
  (1 <= game_inning d <= last_inning d ->
   gameBackward (gameForward d) = initParams d) /\
  (1 <= game_inning d <= last_inning d ->
   (top d = false \/ 2 <= game_inning d) ->
   gameForward (gameBackward d) = initParams d) /\
  (game_inning d = 1 -> 1 <= last_inning d -> top d = true ->
   gameForward (gameBackward d) =
   set_score_bottom 0 (set_score_top 0 (initParams d))).
Proof.
  destruct d as [t1 t2 t3 i l tp b1 b2 b3 nb ns no st sb].
  unfold gameForward, gameBackward, initParams.
  repeat split; intros; destruct tp; unfold_board_setters;
    repeat (split_tests; unfold_board_setters);
    try (exfalso; lia); try discriminate; try (f_equal; lia);
    try (exfalso; destruct H0; [ discriminate | lia ]).
Qed.

Lemma forward_backward_round_trip_witness :
  gameBackward (gameForward sample_board) = initParams sample_board /\
  gameForward (gameBackward sample_board) = initParams sample_board /\
  score_top (gameForward (gameBackward first_inning_top)) = 0.
Proof.
  destruct (forward_backward_round_trip sample_board) as (H1 & H2 & _).
  destruct (forward_backward_round_trip first_inning_top) as (_ & _ & H3).
  split; [ apply H1; simpl; lia | ].
  split; [ apply H2; [ simpl; lia | left; reflexivity ] | ].
  rewrite H3; [ reflexivity | reflexivity | simpl; lia | reflexivity ].
Defined.

(** X4. A count or score step and its opposite undo each other whenever
    the first step acts: below the cap an increment followed by a
    decrement gives the state back, and above 0 a decrement followed by
    an increment does.  At the cap the increment does nothing, so the pair
    leaves the count one lower. *)
Theorem count_steps_round_trip (d : BoardData) :
  (0 <= ball_cnt d < 3 -> ballCountDown (ballCountUp d) = d) /\
  (1 <= ball_cnt d <= 3 -> ballCountUp (ballCountDown d) = d) /\
  (0 <= strike_cnt d < 2 -> strikeCountDown (strikeCountUp d) = d) /\
  (1 <= strike_cnt d <= 2 -> strikeCountUp (strikeCountDown d) = d) /\
  (0 <= out_cnt d < 2 -> outCountDown (outCountUp d) = d) /\
  (1 <= out_cnt d <= 2 -> outCountUp (outCountDown d) = d) /\
  (0 <= score_top d -> decrementScoreTop (incrementScoreTop d) = d) /\
  (1 <= score_top d -> incrementScoreTop (decrementScoreTop d) = d) /\
  (0 <= score_bottom d ->
   decrementScoreBottom (incrementScoreBottom d) = d) /\
  (1 <= score_bottom d ->
   incrementScoreBottom (decrementScoreBottom d) = d) /\
  (ball_cnt d = 3 -> ballCountDown (ballCountUp d) = set_ball_cnt 2 d) /\
  (strike_cnt d = 2 ->
   strikeCountDown (strikeCountUp d) = set_strike_cnt 1 d) /\
  (out_cnt d = 2 -> outCountDown (outCountUp d) = set_out_cnt 1 d).
Proof.
  destruct d as [t1 t2 t3 i l tp b1 b2 b3 nb ns no st sb].
  unfold_ops.
  repeat split; intros; unfold_board_setters;
    repeat (split_tests; unfold_board_setters);
    try (exfalso; lia); f_equal; lia.
Qed.

Lemma count_steps_round_trip_witness :
  ballCountUp (ballCountDown sample_board) = sample_board /\
  ballCountDown (ballCountUp sample_board) = set_ball_cnt 2 sample_board /\
  decrementScoreTop (incrementScoreTop sample_board) = sample_board.
Proof.
  destruct (count_steps_round_trip sample_board)
    as (_ & H2 & _ & _ & _ & _ & H7 & _ & _ & _ & H11 & _).
  split; [ apply H2; simpl; lia | ].
  split; [ apply H11; reflexivity | apply H7; simpl; lia ].
Defined.

(** X5. The phases of a game.  [isPlaying] holds exactly when the inning
    is between 1 and the last inning, which is exactly when [inningMsg]
    shows the inning and the half; below 1 it shows the game as not
    started, whatever the last inning is.  After [endGame], with a last
    inning of 0 or more, the game shows as over and stepping forward does
    nothing; with a negative last inning it shows as not started.  After
    a confirmed [resetGame] the game shows as not started and stepping
    backward does nothing. *)
Theorem game_phases (d : BoardData) :
  (isPlaying d = true <-> 1 <= game_inning d <= last_inning d) /\
  (isPlaying d = true <-> inningMsg d = Playing (game_inning d) (top d)) /\
  (inningMsg d = BeforeGame <-> game_inning d < 1) /\
  (inningMsg d = GameOver <->
   1 <= game_inning d /\ last_inning d < game_inning d) /\
  (0 <= last_inning d ->
   inningMsg (endGame d) = GameOver /\ isPlaying (endGame d) = false /\
   gameForward (endGame d) = endGame d /\
   gameStatusUp (endGame d) = endGame d) /\
  (last_inning d < 0 -> inningMsg (endGame d) = BeforeGame) /\
  inningMsg (resetGame true d) = BeforeGame /\
  isPlaying (resetGame true d) = false /\
  gameBackward (resetGame true d) = resetGame true d /\
  gameStatusDown (resetGame true d) = resetGame true d.
Proof.
  destruct d as [t1 t2 t3 i l tp b1 b2 b3 nb ns no st sb].
  unfold isPlaying, inningMsg, endGame, resetGame, gameForward, gameStatusUp,
    gameBackward, gameStatusDown, initParams.
  unfold_board_setters. cbn [negb].
  destruct (i <? 1) eqn:E1, (i >? l) eqn:E2, (i >=? 1) eqn:E3,
    (i <=? l) eqn:E4; cbn [andb];
  repeat split; intros;
    repeat (split_tests; unfold_board_setters);
    try reflexivity; try discriminate; try lia;
    try (exfalso; lia);
    try match goal with
        | H : Playing _ _ = _ |- _ => discriminate H
        | H : _ = Playing _ _ |- _ => discriminate H
        end.
Qed.

Lemma game_phases_witness :
  isPlaying sample_board = true /\
  inningMsg (endGame sample_board) = GameOver /\
  gameForward (endGame sample_board) = endGame sample_board.
Proof.
  destruct (game_phases sample_board) as (Hplay & _ & _ & _ & Hend & _).
  split; [ apply Hplay; simpl; lia | ].
  destruct Hend as (H1 & _ & H3 & _); [ simpl; lia | ].
  split; [ exact H1 | exact H3 ].
Defined.

(** X6. [changeOffense] flips the half and clears bases and counts; it
    keeps the inning and the scores, and applied twice it gives the state
    it started from with bases and counts cleared. *)
Theorem changeOffense_flips_half (d : BoardData) :
  top (changeOffense d) = negb (top d) /\
  game_inning (changeOffense d) = game_inning d /\
  score_top (changeOffense d) = score_top d /\
  score_bottom (changeOffense d) = score_bottom d /\
  bases_and_counts_reset (changeOffense d) /\
  changeOffense (changeOffense d) = initParams d.
Proof.
  destruct d as [t1 t2 t3 i l tp b1 b2 b3 nb ns no st sb].
  unfold changeOffense, initParams, bases_and_counts_reset.
  destruct tp; unfold_board_setters; repeat split; reflexivity.
Qed.

(** X7. The scores are written only by the four score steps, by
    [gameBackward] and by a confirmed [resetGame]: every other operation
    returns both scores as they were. *)
Theorem scores_written_only_by_score_operations (o : Op) (d : BoardData) :
  writes_score o = false ->
  score_top (run_op o d) = score_top d /\
  score_bottom (run_op o d) = score_bottom d.
Proof.
  destruct o as [| | | | | | | | | | | | | | | | | | [|] |];
    intros H; try discriminate H; unfold_ops; cbn [negb]; split_tests;
    simpl; split; reflexivity.
Qed.

Lemma scores_written_only_by_score_operations_witness :
  score_top (run_op OpEndGame sample_board) = 4 /\
  score_bottom (run_op OpEndGame sample_board) = 2.
Proof.
  apply (scores_written_only_by_score_operations OpEndGame sample_board).
  reflexivity.
Defined.

End GameExtras.

(** ** Further properties of the receivers *)

Section ReceiverExtras.

Lemma board_data_ext (d1 d2 : BoardData) :
  (forall f : Field, get_field f d1 = get_field f d2) -> d1 = d2.
Proof.
  intros H.
  destruct d1 as [a1 a2 a3 a4 a5 a6 a7 a8 a9 a10 a11 a12 a13 a14].
  destruct d2 as [c1 c2 c3 c4 c5 c6 c7 c8 c9 c10 c11 c12 c13 c14].
  pose proof (H F_game_title) as H1. pose proof (H F_team_top) as H2.
  pose proof (H F_team_bottom) as H3. pose proof (H F_game_inning) as H4.
  pose proof (H F_last_inning) as H5. pose proof (H F_top) as H6.
  pose proof (H F_first_base) as H7. pose proof (H F_second_base) as H8.
  pose proof (H F_third_base) as H9. pose proof (H F_ball_cnt) as H10.
  pose proof (H F_strike_cnt) as H11. pose proof (H F_out_cnt) as H12.
  pose proof (H F_score_top) as H13. pose proof (H F_score_bottom) as H14.
  cbn [get_field game_title team_top team_bottom game_inning last_inning
       top first_base second_base third_base ball_cnt strike_cnt out_cnt
       score_top score_bottom] in *.
  inversion H1; inversion H2; inversion H3; inversion H4; inversion H5;
    inversion H6; inversion H7; inversion H8; inversion H9; inversion H10;
    inversion H11; inversion H12; inversion H13; inversion H14.
  reflexivity.
Qed.

Lemma snapshot_field (f : Field) (d : BoardData) :
  payload_field f (snapshot d) = Some (get_field f d).
Proof. destruct f; reflexivity. Qed.

Lemma truthy_text (f : Field) (d d' : BoardData) :
  game_title d <> "" -> team_top d <> "" -> team_bottom d <> "" ->
  last_inning d <> 0 ->
  truthy (get_field f d) = false -> get_field f d = fallback f d'.
Proof.
  intros H1 H2 H3 H4.
  destruct f; simpl; unfold truthy_str, truthy_num, truthy_bool; intros Hf;
    try reflexivity;
    try (apply negb_false_iff, String.eqb_eq in Hf; contradiction);
    try (apply negb_false_iff, Z.eqb_eq in Hf; congruence);
    try (rewrite Hf; reflexivity).
Qed.

(** X8. A full snapshot of one board replaces the receiving board.  On
    the display board the result is the sender's board, whatever the
    local one was.  On the operator panel the result is the sender's
    board when its three texts are not empty and its last inning is not
    0; every count, score, flag and the inning always arrive, while an
    empty title keeps the local title and a last inning of 0 arrives
    as 9. *)
Theorem snapshot_round_trip (d d' : BoardData) :
  Board.applyBoardData (snapshot d) d' = d /\
  (game_title d <> "" -> team_top d <> "" -> team_bottom d <> "" ->
   last_inning d <> 0 ->
   Operation.restoreState (snapshot d) d' = d) /\
  (forall f : Field,
     is_text f = false -> f <> F_last_inning ->
     get_field f (Operation.restoreState (snapshot d) d') = get_field f d) /\
  (game_title d = "" ->
   game_title (Operation.restoreState (snapshot d) d') = game_title d') /\
  (last_inning d = 0 ->
   last_inning (Operation.restoreState (snapshot d) d') = 9).
Proof.
  split.
  { apply board_data_ext. intros f.
    rewrite board_presence_merge, snapshot_field. reflexivity. }
  split.
  { intros H1 H2 H3 H4. apply board_data_ext. intros f.
    rewrite restoreState_field, snapshot_field.
    destruct (truthy (get_field f d)) eqn:E; [ reflexivity | ].
    symmetry. apply truthy_text; assumption. }
  split.
  { intros f Ht Hl.
    apply restoreState_applies_present; [ assumption | assumption | ].
    apply snapshot_field. }
  split.
  - intros H. pose proof (restoreState_field (snapshot d) d' F_game_title) as E.
    rewrite snapshot_field in E. cbn [get_field truthy fallback] in E.
    rewrite H in E. cbn in E. injection E as E. exact E.
  - intros H. pose proof (restoreState_field (snapshot d) d' F_last_inning) as E.
    rewrite snapshot_field in E. cbn [get_field truthy fallback] in E.
    rewrite H in E. cbn in E. injection E as E. exact E.
Qed.

Lemma snapshot_round_trip_witness :
  Operation.restoreState (snapshot sample_board) Operation.initial_board =
    sample_board /\
  game_title (Operation.restoreState (snapshot Operation.initial_board)
                sample_board) = "Final".
Proof.
  destruct (snapshot_round_trip sample_board Operation.initial_board)
    as (_ & Hop & _).
  destruct (snapshot_round_trip Operation.initial_board sample_board)
    as (_ & _ & _ & Htitle & _).
  split.
  - apply Hop; simpl; discriminate.
  - rewrite Htitle; reflexivity.
Defined.

Lemma fallback_after_restore (f : Field) (p : Payload) (d : BoardData) :
  match payload_field f p with
  | Some v => truthy v = false
  | None => True
  end ->
  fallback f (Operation.restoreState p d) = fallback f d.
Proof.
  intros H. destruct f; try reflexivity; cbn [fallback];
    rewrite restoreState_field;
    destruct (payload_field _ p) as [v|]; try reflexivity;
    rewrite H; reflexivity.
Qed.

(** X9. Both receivers are idempotent: applying the same payload a
    second time changes nothing more. *)
Theorem receivers_idempotent (p : Payload) (d : BoardData) :
  Board.applyBoardData p (Board.applyBoardData p d) =
    Board.applyBoardData p d /\
  Operation.restoreState p (Operation.restoreState p d) =
    Operation.restoreState p d.
Proof.
  split; apply board_data_ext; intros f.
  - rewrite !board_presence_merge.
    destruct (payload_field f p); reflexivity.
  - rewrite (restoreState_field p (Operation.restoreState p d)).
    rewrite (restoreState_field p d).
    pose proof (fallback_after_restore f p d) as Hf.
    destruct (payload_field f p) as [v|].
    + destruct (truthy v); [ reflexivity | apply Hf; reflexivity ].
    + apply Hf. exact I.
Qed.

(** X10. Messages that are not for the receiver leave the client as it
    was.  Text that does not parse changes nothing on either client; the
    display board ignores every message whose type is a non-empty string
    other than [game_state] (role messages among them), and the operator
    panel ignores every message whose type is a non-empty string other
    than [game_state], [role_assignment] and [role_changed].  A message
    with no type, or with the empty string as type, is taken as a game
    state. *)
Theorem foreign_messages_ignored (m : Message) (t : string) :
  m_type m = Some t -> t <> "" -> t <> "game_state" ->
  (forall a : Board.App, Board.handleWebSocketMessage (Parsed m) a = a) /\
  (t <> "role_assignment" -> t <> "role_changed" ->
   forall w : Operation.World,
     Operation.handleWebSocketMessage (Parsed m) w = w /\
     forall s : nat,
       Operation.sockets w !! s = Some Operation.OPEN ->
       Operation.dispatch (Operation.EvMessage s (Parsed m)) w = Some w) /\
  (forall (a : Board.App) (w : Operation.World),
     Board.handleWebSocketMessage Unparsable a = a /\
     Operation.handleWebSocketMessage Unparsable w = w) /\
  (forall m' : Message,
     m_type m' = None \/ m_type m' = Some "" -> is_game_state m' = true).
Proof.
  intros Ht Hne Hgs.
  assert (Hnot : is_game_state m = false).
  { unfold is_game_state, type_is, truthy_opt_str, truthy_str. rewrite Ht.
    destruct (String.eqb_spec t "game_state"); [ contradiction | ].
    destruct (String.eqb_spec t ""); [ contradiction | reflexivity ]. }
  split.
  { intros a. unfold Board.handleWebSocketMessage. rewrite Hnot.
    reflexivity. }
  split.
  { intros Hra Hrc w.
    assert (Hw : Operation.handleWebSocketMessage (Parsed m) w = w).
    { unfold Operation.handleWebSocketMessage, type_is. rewrite Ht, Hnot.
      destruct (String.eqb_spec t "role_assignment"); [ contradiction | ].
      destruct (String.eqb_spec t "role_changed"); [ contradiction | ].
      reflexivity. }
    split; [ exact Hw | ].
    intros s Hs. unfold Operation.dispatch, Operation.handle.
    rewrite Hs, Hw. simpl. unfold Operation.notify.
    destruct (decide _); [ reflexivity | contradiction ]. }
  split; [ intros a w; split; reflexivity | ].
  intros m' [H | H]; unfold is_game_state, type_is, truthy_opt_str;
    rewrite H; reflexivity.
Qed.

Lemma foreign_messages_ignored_witness :
  Board.handleWebSocketMessage
    (Parsed (typed_message "role_changed" out0_payload)) Board.initial_app =
    Board.initial_app /\
  Operation.handleWebSocketMessage
    (Parsed (typed_message "handshake" out0_payload)) Conn.master_world =
    Conn.master_world.
Proof.
  destruct (foreign_messages_ignored
              (typed_message "role_changed" out0_payload) "role_changed")
    as (Hb & _); try reflexivity; try discriminate.
  destruct (foreign_messages_ignored
              (typed_message "handshake" out0_payload) "handshake")
    as (_ & Ho & _); try reflexivity; try discriminate.
  split; [ apply Hb | ].
  apply Ho; discriminate.
Defined.

(** X11. [loadFromInitData] starts a new game from the file alone: the
    board it returns does not depend on the board it was given; the
    inning is 0 (the game is not started), the half is the top, both scores are 0, bases and
    counts are cleared, and the last inning is the file's value or, when
    the file has none or has 0, the number 9 - never 0. *)
Theorem loadFromInitData_new_game (data : Operation.InitData)
        (d d' : BoardData) :
  Operation.loadFromInitData data d = Operation.loadFromInitData data d' /\
  game_inning (Operation.loadFromInitData data d) = 0 /\
  Game.inningMsg (Operation.loadFromInitData data d) = Game.BeforeGame /\
  top (Operation.loadFromInitData data d) = true /\
  in_domain (Operation.loadFromInitData data d) /\
  bases_and_counts_reset (Operation.loadFromInitData data d) /\
  score_top (Operation.loadFromInitData data d) = 0 /\
  score_bottom (Operation.loadFromInitData data d) = 0 /\
  game_title (Operation.loadFromInitData data d) =
    Operation.i_game_title data /\
  last_inning (Operation.loadFromInitData data d) <> 0 /\
  last_inning (Operation.loadFromInitData data d) =
    match Operation.i_last_inning data with
    | Some n => if n =? 0 then 9 else n
    | None => 9
    end.
Proof.
  destruct d as [a1 a2 a3 a4 a5 a6 a7 a8 a9 a10 a11 a12 a13 a14].
  destruct d' as [c1 c2 c3 c4 c5 c6 c7 c8 c9 c10 c11 c12 c13 c14].
  unfold Operation.loadFromInitData, Game.initParams, Game.inningMsg,
    in_domain, bases_and_counts_reset, js_or, truthy_num, truthy_str.
  unfold_board_setters.
  destruct (Operation.i_last_inning data) as [n|];
    [ destruct (Z.eqb_spec n 0) | ]; cbn [negb];
    repeat split; try reflexivity; try lia; try discriminate;
    try (destruct (String.eqb _ ""); reflexivity).
  - destruct (String.eqb_spec (Operation.i_game_title data) "") as [->|];
      reflexivity.
  - destruct (String.eqb_spec (Operation.i_game_title data) "") as [->|];
      reflexivity.
  - destruct (String.eqb_spec (Operation.i_game_title data) "") as [->|];
      reflexivity.
Qed.

End ReceiverExtras.

(** ** Roles, the master token and what the panel sends *)

Section SessionExtras.
Import Operation Conn ConnView Session.

Lemma same_session_refl (w : World) : same_session w w.
Proof. unfold same_session; tauto. Qed.

Lemma same_session_trans (w1 w2 w3 : World) :
  same_session w1 w2 -> same_session w2 w3 -> same_session w1 w3.
Proof. unfold same_session; intuition congruence. Qed.

Lemma session_socket_send (msg : Outgoing) (w : World) :
  same_session w (socket_send msg w).
Proof. unfold socket_send. session_cases. Qed.

Lemma session_cancel (w : World) : same_session w (cancelReconnect w).
Proof. unfold cancelReconnect. session_cases. Qed.

Lemma session_schedule (w : World) : same_session w (scheduleReconnect w).
Proof.
  unfold scheduleReconnect.
  eapply same_session_trans; [ apply session_cancel | ].
  generalize (cancelReconnect w). intros w0. session_cases.
Qed.

Lemma session_connect (c : bool) (w : World) :
  same_session w (connectWebSocket c w).
Proof.
  unfold connectWebSocket. destruct c; [ | apply session_schedule ].
  unfold same_session, upd_app; unfold_setters; proj_simpl.
  repeat split; reflexivity.
Qed.

Lemma session_timer (c : bool) (w : World) :
  same_session w (reconnect_timer_fired c w).
Proof.
  unfold reconnect_timer_fired.
  eapply same_session_trans; [ | apply session_connect ].
  unfold same_session; unfold_setters; proj_simpl. repeat split; reflexivity.
Qed.

Lemma session_open (w : World) : same_session w (handleWebSocketOpen w).
Proof.
  unfold handleWebSocketOpen.
  eapply same_session_trans; [ | apply session_socket_send ].
  unfold same_session; unfold_setters; proj_simpl. repeat split; reflexivity.
Qed.

Lemma session_close (w : World) : same_session w (handleWebSocketClose w).
Proof.
  unfold handleWebSocketClose. case_bool_decide; [ | apply same_session_refl ].
  eapply same_session_trans; [ | apply session_schedule ].
  unfold same_session; unfold_setters; proj_simpl. repeat split; reflexivity.
Qed.

Lemma session_unmount (w : World) : same_session w (beforeUnmount w).
Proof.
  unfold beforeUnmount.
  eapply same_session_trans; [ apply session_cancel | ].
  generalize (cancelReconnect w). intros w0.
  destruct (socket (app w0)) as [s|]; [ | apply same_session_refl ].
  unfold close_socket.
  destruct (sockets w0 !! s) as [[| | |]|]; session_cases.
Qed.

Lemma session_watcher (w : World) : same_session w (boardData_watcher w).
Proof.
  unfold boardData_watcher, updateBoard, socket_send. session_cases.
Qed.

Lemma session_notify (w0 w : World) : same_session w (notify w0 w).
Proof.
  unfold notify. destruct (decide _);
    [ apply same_session_refl | apply session_watcher ].
Qed.

Lemma session_config (force : bool) (data : InitData) (w : World) :
  same_session w (upd_app (loadConfiguration force data) w).
Proof. unfold upd_app, loadConfiguration. session_cases. Qed.

Lemma session_upd_board (f : BoardData -> BoardData) (w : World) :
  same_session w (upd_app (fun a => set_board (f (board a)) a) w).
Proof. session_cases. Qed.

Lemma session_sockets (m : gmap nat ReadyState) (w : World) :
  same_session w (set_sockets m w).
Proof. session_cases. Qed.

Lemma session_timers (m : gmap positive Z) (w : World) :
  same_session w (set_timers m w).
Proof. session_cases. Qed.

Lemma session_message_other (data : Inbound) (w : World) :
  match data with
  | Parsed m => type_is m "role_assignment" || type_is m "role_changed"
  | Unparsable => false
  end = false ->
  same_session w (handleWebSocketMessage data w).
Proof.
  destruct data as [|m]; [ intros _; apply same_session_refl | ].
  intros H. apply orb_false_iff in H as [H1 H2].
  unfold handleWebSocketMessage. rewrite H1, H2.
  destruct (is_game_state m); [ | apply same_session_refl ].
  unfold same_session; unfold_setters; proj_simpl. repeat split; reflexivity.
Qed.

Lemma session_release_role (confirmed : bool) (w : World) :
  clientRole (app (releaseMasterControl confirmed w)) = clientRole (app w) /\
  clientId (app (releaseMasterControl confirmed w)) = clientId (app w) /\
  masterClientId (app (releaseMasterControl confirmed w)) =
    masterClientId (app w).
Proof.
  unfold releaseMasterControl, socket_send.
  case_tests; unfold_setters; proj_simpl; repeat split; reflexivity.
Qed.

Lemma session_release_declined (w : World) :
  same_session w (releaseMasterControl false w).
Proof.
  unfold releaseMasterControl.
  destruct (negb _); apply same_session_refl.
Qed.

(** Every callback but the two role messages and a confirmed release
    keeps the session. *)
Lemma session_handle (e : Event) (w w' : World) :
  handle e w = Some w' ->
  is_role_message e = false -> is_release e = false ->
  same_session w w'.
Proof.
  intros H Hrole Hrel. destruct e; simpl in H.
  - destruct (sockets w !! s) as [[| | |]|]; inversion H; subst.
    eapply same_session_trans; [ apply session_sockets | apply session_open ].
  - assert (Hw : w' = handleWebSocketMessage data w)
      by (destruct (sockets w !! s) as [[| | |]|]; inversion H; reflexivity).
    subst w'. apply session_message_other.
    destruct data; [ reflexivity | exact Hrole ].
  - destruct (sockets w !! s) as [[| | |]|]; inversion H; subst;
      apply same_session_refl.
  - assert (Hw : w' = handleWebSocketClose
                        (set_sockets (<[s:=CLOSED]> (sockets w)) w))
      by (destruct (sockets w !! s) as [[| | |]|]; inversion H; reflexivity).
    subst w'.
    eapply same_session_trans; [ apply session_sockets | apply session_close ].
  - destruct (timers w !! t); inversion H; subst.
    eapply same_session_trans; [ apply session_timers | apply session_timer ].
  - inversion H; subst. apply session_upd_board.
  - inversion H; subst. apply session_config.
  - inversion H; subst. apply session_upd_board.
  - inversion H; subst. destruct confirmed; [ discriminate Hrel | ].
    apply session_release_declined.
  - inversion H; subst. apply session_unmount.
Qed.

(** X12. The role is set by the server only: [role_assignment] sets the
    role and both ids to what the message says, [role_changed] sets the
    role and keeps the ids, and no other event changes the role or an id
    - not even a release of mastership, which waits for the server. *)
Theorem role_set_by_server_only (e : Event) (w w' : World) :
  dispatch e w = Some w' ->
  (is_role_message e = false ->
   clientRole (app w') = clientRole (app w) /\
   clientId (app w') = clientId (app w) /\
   masterClientId (app w') = masterClientId (app w)) /\
  (forall (s : nat) (m : Message),
     e = EvMessage s (Parsed m) -> type_is m "role_assignment" = true ->
     clientRole (app w') = m_role m /\ clientId (app w') = m_clientId m /\
     masterClientId (app w') = m_masterClientId m) /\
  (forall (s : nat) (m : Message),
     e = EvMessage s (Parsed m) -> type_is m "role_assignment" = false ->
     type_is m "role_changed" = true ->
     clientRole (app w') = m_newRole m /\
     clientId (app w') = clientId (app w) /\
     masterClientId (app w') = masterClientId (app w)).
Proof.
  intros H. apply dispatch_inv in H as (w0 & Hh & ->).
  destruct (session_notify w w0) as (N1 & N2 & N3 & _).
  rewrite N1, N2, N3. clear N1 N2 N3.
  split; [ | split ].
  - intros Hrole. destruct (is_release e) eqn:Hrel.
    + destruct e as [| | | | | | | | [|] |]; try discriminate Hrel.
      simpl in Hh. inversion Hh; subst. apply session_release_role.
    + destruct (session_handle e w w0 Hh Hrole Hrel) as (? & ? & ? & _).
      auto.
  - intros s m -> Hm. simpl in Hh.
    assert (Hw : w0 = handleWebSocketMessage (Parsed m) w)
      by (destruct (sockets w !! s) as [[| | |]|]; inversion Hh; reflexivity).
    subst w0. unfold handleWebSocketMessage, store_token. rewrite Hm.
    case_tests; unfold_setters; proj_simpl; repeat split; reflexivity.
  - intros s m -> Hm1 Hm2. simpl in Hh.
    assert (Hw : w0 = handleWebSocketMessage (Parsed m) w)
      by (destruct (sockets w !! s) as [[| | |]|]; inversion Hh; reflexivity).
    subst w0. unfold handleWebSocketMessage, store_token. rewrite Hm1, Hm2.
    case_tests; unfold_setters; proj_simpl; repeat split; reflexivity.
Qed.

Lemma role_set_by_server_only_witness :
  exists w' : World,
    dispatch (EvReleaseMaster true) master_world = Some w' /\
    clientRole (app w') = Some "master".
Proof.
  pose (w' := after [EvReleaseMaster true] master_world).
  assert (Hd : dispatch (EvReleaseMaster true) master_world = Some w')
    by (vm_compute; reflexivity).
  destruct (role_set_by_server_only _ _ _ Hd) as (Hkeep & _).
  destruct (Hkeep eq_refl) as (Hrole & _).
  exists w'. split; [ exact Hd | ]. rewrite Hrole. reflexivity.
Defined.

Lemma storage_other_keys_message (data : Inbound) (w : World) (k : string) :
  k <> "masterToken" ->
  sessionStorage (handleWebSocketMessage data w) !! k = sessionStorage w !! k.
Proof.
  intros Hk. unfold handleWebSocketMessage, store_token.
  case_tests; unfold_setters; proj_simpl;
    rewrite ?lookup_delete_ne, ?lookup_insert_ne by congruence; reflexivity.
Qed.

Lemma storage_other_keys_release (confirmed : bool) (w : World) (k : string) :
  k <> "masterToken" ->
  sessionStorage (releaseMasterControl confirmed w) !! k =
  sessionStorage w !! k.
Proof.
  intros Hk. unfold releaseMasterControl, socket_send.
  case_tests; unfold_setters; proj_simpl;
    rewrite ?lookup_delete_ne by congruence; reflexivity.
Qed.

(** X13. The stored items change only on a role message or a confirmed
    release of mastership, and only under the key [masterToken]: every
    other event leaves [sessionStorage] as it was, and no event touches
    another key. *)
Theorem session_storage_frame (e : Event) (w w' : World) :
  dispatch e w = Some w' ->
  (is_role_message e = false -> is_release e = false ->
   sessionStorage w' = sessionStorage w) /\
  (forall k : string,
     k <> "masterToken" -> sessionStorage w' !! k = sessionStorage w !! k).
Proof.
  intros H. apply dispatch_inv in H as (w0 & Hh & ->).
  destruct (session_notify w w0) as (_ & _ & _ & N). rewrite N. clear N.
  split.
  - intros Hrole Hrel. apply (session_handle e w w0 Hh Hrole Hrel).
  - intros k Hk.
    destruct (is_role_message e) eqn:Hrole.
    + destruct e as [|s [|m]| | | | | | | |]; try discriminate Hrole.
      simpl in Hh.
      assert (Hw : w0 = handleWebSocketMessage (Parsed m) w)
        by (destruct (sockets w !! s) as [[| | |]|]; inversion Hh;
            reflexivity).
      subst w0. apply storage_other_keys_message. exact Hk.
    + destruct (is_release e) eqn:Hrel.
      * destruct e as [| | | | | | | | [|] |]; try discriminate Hrel.
        simpl in Hh. inversion Hh; subst.
        apply storage_other_keys_release. exact Hk.
      * destruct (session_handle e w w0 Hh Hrole Hrel) as (_ & _ & _ & E).
        rewrite E. reflexivity.
Qed.

Lemma session_storage_frame_witness :
  exists w' : World,
    dispatch (EvOp Game.OpBallCountUp) master_world = Some w' /\
    sessionStorage w' = sessionStorage master_world /\
    stored_token w' = Some "T1".
Proof.
  pose (w' := after [EvOp Game.OpBallCountUp] master_world).
  assert (Hd : dispatch (EvOp Game.OpBallCountUp) master_world = Some w')
    by (vm_compute; reflexivity).
  destruct (session_storage_frame _ _ _ Hd) as (Hkeep & _).
  exists w'. split; [ exact Hd | ].
  split; [ apply Hkeep; reflexivity | ].
  unfold stored_token. rewrite Hkeep by reflexivity.
  vm_compute. reflexivity.
Defined.

Lemma message_stored_token (m : Message) (w : World) :
  stored_token (handleWebSocketMessage (Parsed m) w) =
  if type_is m "role_assignment" then
    if opt_str_is (m_role m) "master" && truthy_opt_str (m_masterToken m)
    then m_masterToken m else stored_token w
  else if type_is m "role_changed" then
    if m_clearToken m then None
    else if opt_str_is (m_newRole m) "master"
            && truthy_opt_str (m_masterToken m)
    then m_masterToken m else stored_token w
  else stored_token w.
Proof.
  unfold stored_token, handleWebSocketMessage, store_token.
  destruct (type_is m "role_assignment");
    [ | destruct (type_is m "role_changed");
        [ | destruct (is_game_state m); reflexivity ] ].
  - destruct (opt_str_is (m_role m) "master"); [ | reflexivity ].
    destruct (m_masterToken m) as [tok|]; [ | reflexivity ].
    cbn [andb truthy_opt_str]. destruct (truthy_str tok); [ | reflexivity ].
    unfold_setters; proj_simpl. apply lookup_insert_eq.
  - destruct (m_clearToken m).
    + unfold_setters; proj_simpl. apply lookup_delete_eq.
    + destruct (opt_str_is (m_newRole m) "master"); [ | reflexivity ].
      destruct (m_masterToken m) as [tok|]; [ | reflexivity ].
      cbn [andb truthy_opt_str]. destruct (truthy_str tok); [ | reflexivity ].
      unfold_setters; proj_simpl. apply lookup_insert_eq.
Qed.

Lemma dispatch_message_storage (s : nat) (m : Message) (w w' : World) :
  dispatch (EvMessage s (Parsed m)) w = Some w' ->
  stored_token w' = stored_token (handleWebSocketMessage (Parsed m) w).
Proof.
  intros H. apply dispatch_inv in H as (w0 & Hh & ->). simpl in Hh.
  assert (Hw : w0 = handleWebSocketMessage (Parsed m) w)
    by (destruct (sockets w !! s) as [[| | |]|]; inversion Hh; reflexivity).
  subst w0. unfold stored_token.
  destruct (session_notify w (handleWebSocketMessage (Parsed m) w))
    as (_ & _ & _ & N).
  rewrite N. reflexivity.
Qed.

(** X14. The life of the master token.  A role message that grants
    [master] with a non-empty token stores that token; a message that
    grants another role, or carries no token or an empty one, stores
    nothing.  [role_changed] with [clearToken] removes the stored token
    even when the same message grants [master] with a new token, while
    [role_assignment] never removes it.  A release of mastership that the
    operator confirms, on an open socket and as master, sends
    [release_master] and removes the token at once; any other release
    does nothing. *)
Theorem master_token_lifecycle (s : nat) (m : Message) (w w' : World) :
  dispatch (EvMessage s (Parsed m)) w = Some w' ->
  (forall tok : string,
     type_is m "role_assignment" = true -> m_role m = Some "master" ->
     m_masterToken m = Some tok -> tok <> "" ->
     stored_token w' = Some tok) /\
  (forall tok : string,
     type_is m "role_assignment" = false ->
     type_is m "role_changed" = true -> m_newRole m = Some "master" ->
     m_masterToken m = Some tok -> tok <> "" -> m_clearToken m = false ->
     stored_token w' = Some tok) /\
  (type_is m "role_assignment" = false ->
   type_is m "role_changed" = true -> m_clearToken m = true ->
   stored_token w' = None) /\
  (type_is m "role_assignment" = true ->
   opt_str_is (m_role m) "master" = false \/
   truthy_opt_str (m_masterToken m) = false ->
   stored_token w' = stored_token w) /\
  (type_is m "role_assignment" = false ->
   type_is m "role_changed" = true -> m_clearToken m = false ->
   opt_str_is (m_newRole m) "master" = false \/
   truthy_opt_str (m_masterToken m) = false ->
   stored_token w' = stored_token w) /\
  (forall (wr : World) (c : nat),
     isMaster (app wr) = true -> socket (app wr) = Some c ->
     sockets wr !! c = Some OPEN ->
     stored_token (releaseMasterControl true wr) = None /\
     sent (releaseMasterControl true wr) =
       (sent wr ++ [(c, ReleaseMaster)])%list) /\
  (forall (wr : World) (confirmed : bool),
     isMaster (app wr) = false \/ confirmed = false \/
     socket_open wr = false ->
     releaseMasterControl confirmed wr = wr).
Proof.
  intros H. rewrite (dispatch_message_storage s m w w' H), message_stored_token.
  assert (Htruthy : forall tok, tok <> "" -> truthy_opt_str (Some tok) = true).
  { intros tok Hne. unfold truthy_opt_str, truthy_str.
    destruct (String.eqb_spec tok ""); [ contradiction | reflexivity ]. }
  repeat split.
  - intros tok -> -> -> Hne. rewrite (Htruthy tok Hne). reflexivity.
  - intros tok -> -> -> -> Hne ->. rewrite (Htruthy tok Hne). reflexivity.
  - intros -> -> ->. reflexivity.
  - intros -> [-> | ->]; rewrite ?andb_false_r; reflexivity.
  - intros -> -> -> [-> | ->]; rewrite ?andb_false_r; reflexivity.
  - unfold releaseMasterControl, isMaster, socket_open, socket_send, stored_token
      in *.
    rewrite H0, H1. rewrite !bool_decide_eq_true_2 by assumption.
    cbn [negb]. unfold_setters; proj_simpl. apply lookup_delete_eq.
  - unfold releaseMasterControl, isMaster, socket_open, socket_send in *.
    rewrite H0, H1. rewrite !bool_decide_eq_true_2 by assumption.
    reflexivity.
  - intros wr confirmed [Hm | [-> | Ho]];
      unfold releaseMasterControl, isMaster in *.
    + rewrite Hm. reflexivity.
    + destruct (negb _); reflexivity.
    + rewrite Ho. destruct (negb _); [ reflexivity | ].
      destruct (negb confirmed); reflexivity.
Qed.

Lemma master_token_lifecycle_witness :
  exists w' : World,
    dispatch (EvMessage 0%nat
                (Parsed (role_changed "master" (Some "T2") true)))
             master_world = Some w' /\
    stored_token master_world = Some "T1" /\
    stored_token w' = None.
Proof.
  pose (m := role_changed "master" (Some "T2") true).
  pose (w' := after [EvMessage 0%nat (Parsed m)] master_world).
  assert (Hd : dispatch (EvMessage 0%nat (Parsed m)) master_world = Some w')
    by (vm_compute; reflexivity).
  destruct (master_token_lifecycle 0%nat m master_world w' Hd)
    as (_ & _ & Hclear & _).
  exists w'. split; [ exact Hd | ]. split; [ vm_compute; reflexivity | ].
  apply Hclear; reflexivity.
Defined.

End SessionExtras.

(** ** What the panel writes to the socket *)

Section PublishExtras.
Import Operation Conn ConnView Session Publish.

Lemma send_on_open_socket (msg : Outgoing) (w : World) (c : nat) :
  socket (app w) = Some c -> sockets w !! c = Some OPEN ->
  sent (socket_send msg w) = (sent w ++ [(c, msg)])%list.
Proof.
  intros Hc Ho. unfold socket_send. rewrite Hc.
  rewrite bool_decide_eq_true_2 by assumption. reflexivity.
Qed.

(** X15. In every world the page can reach, an open event sends exactly
    one message on the socket that opened: the handshake of an
    [operation] client, carrying the stored master token when there is a
    non-empty one and no token otherwise.  The status becomes
    [connected], the attempt count 0, and the board is not touched. *)
Theorem handshake_on_open (w : World) (s : nat) (w' : World) :
  reachable w -> dispatch (EvOpen s) w = Some w' ->
  sent w' = (sent w ++ [(s, Handshake "operation" (handshake_token w))])%list /\
  sockets w' !! s = Some OPEN /\
  connectionStatus (app w') = connected /\
  reconnectAttempts (app w') = 0 /\
  board (app w') = board (app w).
Proof.
  intros Hreach H.
  apply wf_reachable in Hreach as (_ & _ & _ & Hlive & _).
  apply dispatch_inv in H as (w0 & Hh & ->). simpl in Hh.
  destruct (sockets w !! s) as [[| | |]|] eqn:Es; inversion Hh; subst.
  assert (Hcur : socket (app w) = Some s)
    by (apply (Hlive s CONNECTING Es); discriminate).
  set (w1 := set_sockets (<[s:=OPEN]> (sockets w)) w) in *.
  destruct (open_frame w1) as (F1 & F2 & _ & F4).
  assert (Hsame : board (app (handleWebSocketOpen w1)) = board (app w1))
    by exact F4.
  unfold notify. destruct (decide _) as [_ | Hne];
    [ | exfalso; apply Hne; exact Hsame ].
  split.
  { unfold handleWebSocketOpen.
    rewrite (send_on_open_socket _ _ s);
      [ | exact Hcur | apply lookup_insert_eq ].
    unfold handshake_token, stored_token. subst w1.
    unfold_setters; proj_simpl.
    destruct (truthy_opt_str (sessionStorage w !! "masterToken"));
      reflexivity. }
  split.
  { unfold handleWebSocketOpen, socket_send. proj_simpl.
    case_tests; unfold_setters; proj_simpl; apply lookup_insert_eq. }
  split; [ exact F2 | ]. split; [ exact F1 | exact Hsame ].
Qed.

Lemma handshake_on_open_witness :
  let w := after [EvClose 0%nat; EvTimer 1 true] master_world in
  exists w' : World,
    dispatch (EvOpen 1%nat) w = Some w' /\
    sent w' = (sent w ++ [(1%nat, Handshake "operation" (Some "T1"))])%list.
Proof.
  intros w.
  assert (Hreach : reachable w).
  { exists true, ∅,
      [EvOpen 0%nat;
       EvMessage 0%nat (Parsed (role_assignment "master" (Some "T1")));
       EvClose 0%nat; EvTimer 1 true].
    vm_compute. reflexivity. }
  pose (w' := after [EvOpen 1%nat] w).
  assert (Hd : dispatch (EvOpen 1%nat) w = Some w')
    by (vm_compute; reflexivity).
  destruct (handshake_on_open w 1%nat w' Hreach Hd) as (Hsent & _).
  exists w'. split; [ exact Hd | ]. rewrite Hsent. reflexivity.
Defined.

Lemma message_sent (data : Inbound) (w : World) :
  sent (handleWebSocketMessage data w) = sent w.
Proof.
  unfold handleWebSocketMessage, store_token.
  case_tests; unfold_setters; proj_simpl; reflexivity.
Qed.

Lemma role_message_board (m : Message) (w : World) :
  type_is m "role_assignment" || type_is m "role_changed" = true ->
  board (app (handleWebSocketMessage (Parsed m) w)) = board (app w).
Proof.
  intros H. unfold handleWebSocketMessage, store_token.
  destruct (type_is m "role_assignment");
    [ | destruct (type_is m "role_changed"); [ | discriminate H ] ];
    case_tests; unfold_setters; proj_simpl; reflexivity.
Qed.

Lemma open_sent (w : World) :
  sent (handleWebSocketOpen w) = sent w \/
  exists (c : nat) (tok : option string),
    sent (handleWebSocketOpen w) =
      (sent w ++ [(c, Handshake "operation" tok)])%list.
Proof.
  unfold handleWebSocketOpen, socket_send. proj_simpl.
  destruct (socket _) as [c|]; [ | left; reflexivity ].
  destruct (bool_decide _); [ | left; reflexivity ].
  right. destruct (truthy_opt_str _); eexists _, _; reflexivity.
Qed.

Lemma release_not_master (confirmed : bool) (w : World) :
  isMaster (app w) = false -> releaseMasterControl confirmed w = w.
Proof.
  unfold releaseMasterControl, isMaster. intros ->. reflexivity.
Qed.

(** X16. A client that is not master writes no game state and no release
    to the socket: whatever the event, it sends nothing, or - when a
    socket opens - one handshake. *)
Theorem only_master_publishes (e : Event) (w w' : World) :
  isMaster (app w) = false -> dispatch e w = Some w' ->
  sent w' = sent w \/
  exists (c : nat) (tok : option string),
    is_open_event e = true /\
    sent w' = (sent w ++ [(c, Handshake "operation" tok)])%list.
Proof.
  intros Hrole H. apply dispatch_inv in H as (w0 & Hh & ->).
  destruct (is_role_message e) eqn:Hmsg.
  - destruct e as [|s [|m]| | | | | | | |]; try discriminate Hmsg.
    simpl in Hh.
    assert (Hw : w0 = handleWebSocketMessage (Parsed m) w)
      by (destruct (sockets w !! s) as [[| | |]|]; inversion Hh; reflexivity).
    subst w0. left. unfold notify.
    destruct (decide _) as [_ | Hne];
      [ apply message_sent
      | exfalso; apply Hne; apply role_message_board; exact Hmsg ].
  - assert (Hrole0 : isMaster (app w0) = false).
    { destruct (is_release e) eqn:Hrel.
      - destruct e as [| | | | | | | | [|] |]; try discriminate Hrel.
        simpl in Hh. inversion Hh; subst.
        rewrite release_not_master by exact Hrole. exact Hrole.
      - destruct (session_handle e w w0 Hh Hmsg Hrel) as (E & _).
        unfold isMaster in *. rewrite E. exact Hrole. }
    rewrite (notify_not_master w w0 Hrole0).
    destruct e; simpl in Hh.
    + destruct (sockets w !! s) as [[| | |]|]; inversion Hh; subst.
      destruct (open_sent (set_sockets (<[s:=OPEN]> (sockets w)) w))
        as [E | (c & tok & E)]; [ left; exact E | right ].
      exists c, tok. split; [ reflexivity | exact E ].
    + left.
      assert (Hw : w0 = handleWebSocketMessage data w)
        by (destruct (sockets w !! s) as [[| | |]|]; inversion Hh;
            reflexivity).
      subst w0. apply message_sent.
    + left. destruct (sockets w !! s) as [[| | |]|]; inversion Hh; subst;
        reflexivity.
    + left.
      assert (Hw : w0 = handleWebSocketClose
                         (set_sockets (<[s:=CLOSED]> (sockets w)) w))
        by (destruct (sockets w !! s) as [[| | |]|]; inversion Hh;
            reflexivity).
      subst w0.
      apply (close_frame (set_sockets (<[s:=CLOSED]> (sockets w)) w)).
    + left. destruct (timers w !! t); inversion Hh; subst.
      apply (timer_frame constructed (set_timers (delete t (timers w)) w)).
    + left. inversion Hh; subst. reflexivity.
    + left. inversion Hh; subst. reflexivity.
    + left. inversion Hh; subst. reflexivity.
    + left. inversion Hh; subst.
      rewrite release_not_master by exact Hrole. reflexivity.
    + left. inversion Hh; subst. apply (unmount_frame w).
Qed.

Lemma only_master_publishes_witness :
  exists w' : World,
    dispatch (EvOp Game.OpEndGame) slave_world = Some w' /\
    game_inning (board (app w')) = 10 /\
    sent w' = sent slave_world.
Proof.
  pose (w' := after [EvOp Game.OpEndGame] slave_world).
  assert (Hd : dispatch (EvOp Game.OpEndGame) slave_world = Some w')
    by (vm_compute; reflexivity).
  assert (Hrole : isMaster (app slave_world) = false) by reflexivity.
  destruct (only_master_publishes _ slave_world w' Hrole Hd)
    as [Hsent | (c & tok & Hopen & _)]; [ | discriminate Hopen ].
  exists w'. split; [ exact Hd | ]. split; [ reflexivity | exact Hsent ].
Defined.

(** X17. A master on an open socket, with no remote update pending,
    publishes every operation that changes the board, once, as a full
    snapshot of the board after the operation; an operation that leaves
    the board as it was (a count at its bound, a declined reset) sends
    nothing. *)
Theorem master_publishes_changes (o : Game.Op) (w : World) (c : nat) :
  restoredFromServer (app w) = false -> isMaster (app w) = true ->
  socket (app w) = Some c -> sockets w !! c = Some OPEN ->
  exists w' : World,
    dispatch (EvOp o) w = Some w' /\
    board (app w') = Game.run_op o (board (app w)) /\
    (Game.run_op o (board (app w)) <> board (app w) ->
     sent w' =
       (sent w ++ [(c, GameStateUpdate (Game.run_op o (board (app w))))])%list)
    /\
    (Game.run_op o (board (app w)) = board (app w) -> w' = w).
Proof.
  intros Hoff Hmaster Hsock Hopen. eexists. split; [ reflexivity | ].
  split; [ apply notify_board | ].
  split.
  - intros Hne. unfold notify. destruct (decide _) as [Heq | _];
      [ contradiction | ].
    rewrite (watcher_broadcasts _ c); try assumption. reflexivity.
  - intros Heq. unfold notify. destruct (decide _) as [_ | Hne];
      [ | contradiction ].
    unfold upd_app, set_app, set_board. rewrite Heq.
    destruct w as [a ? ? ? ? ? ?]; destruct a; reflexivity.
Qed.

Lemma master_publishes_changes_witness :
  exists w' : World,
    dispatch (EvOp Game.OpBallCountUp) master_world = Some w' /\
    sent w' =
      (sent master_world ++
         [(0%nat, GameStateUpdate (set_ball_cnt 1 initial_board))])%list.
Proof.
  destruct (master_publishes_changes Game.OpBallCountUp master_world 0%nat)
    as (w' & Hd & _ & Hsent & _); try (vm_compute; reflexivity).
  exists w'. split; [ exact Hd | ].
  rewrite Hsent; [ reflexivity | vm_compute; discriminate ].
Defined.

Lemma config_flag_raised (data : InitData) (w : World) :
  restoredFromServer (app w) = true ->
  upd_app (loadConfiguration false data) w = w.
Proof.
  intros H. unfold upd_app, set_app, loadConfiguration. rewrite H.
  cbn [orb negb]. destruct w; reflexivity.
Qed.

Lemma config_applied (force : bool) (data : InitData) (a : App) :
  force || negb (restoredFromServer a) = true ->
  game_title (board (loadConfiguration force data a)) = i_game_title data /\
  team_top (board (loadConfiguration force data a)) = i_team_top data /\
  team_bottom (board (loadConfiguration force data a)) =
    i_team_bottom data /\
  last_inning (board (loadConfiguration force data a)) =
    default (last_inning (board a)) (i_last_inning data) /\
  game_inning (board (loadConfiguration force data a)) =
    game_inning (board a) /\
  score_top (board (loadConfiguration force data a)) = score_top (board a) /\
  score_bottom (board (loadConfiguration force data a)) =
    score_bottom (board a).
Proof.
  intros H. unfold loadConfiguration. rewrite H.
  destruct (i_last_inning data); repeat split; reflexivity.
Qed.

(** X18. A configuration that is not forced is applied unless the flag
    of a received game state is still raised.  When the received state
    equals the local board the flag stays raised and the configuration
    that arrives next is skipped, the world staying as it is; when the
    received state changed the board, the notification has lowered the
    flag and the configuration that arrives next replaces the title, the
    team names and (when the file has one) the last inning that the
    server sent, keeping inning and scores.  A forced configuration is
    always applied. *)
Theorem configuration_after_restore (w : World) (s : nat) (m : Message)
        (w1 : World) (data : InitData) (w2 : World) :
  is_game_state m = true ->
  dispatch (EvMessage s (Parsed m)) w = Some w1 ->
  dispatch (EvConfigLoaded false data) w1 = Some w2 ->
  (restoreState (state_payload m) (board (app w)) = board (app w) ->
   w2 = w1) /\
  (restoreState (state_payload m) (board (app w)) <> board (app w) ->
   game_title (board (app w2)) = i_game_title data /\
   team_top (board (app w2)) = i_team_top data /\
   team_bottom (board (app w2)) = i_team_bottom data /\
   last_inning (board (app w2)) =
     default (last_inning (board (app w1))) (i_last_inning data) /\
   game_inning (board (app w2)) = game_inning (board (app w1)) /\
   score_top (board (app w2)) = score_top (board (app w1)) /\
   score_bottom (board (app w2)) = score_bottom (board (app w1))) /\
  (forall wa wb : World,
     dispatch (EvConfigLoaded true data) wa = Some wb ->
     game_title (board (app wb)) = i_game_title data /\
     team_top (board (app wb)) = i_team_top data /\
     team_bottom (board (app wb)) = i_team_bottom data).
Proof.
  intros Hm H1 H2.
  pose proof (message_dispatch w s m w1 Hm H1) as Hw1.
  apply dispatch_inv in H2 as (w0 & Hh & ->). simpl in Hh.
  inversion Hh; subst w0; clear Hh.
  split; [ | split ].
  - intros Hsame.
    destruct (remote_update_effects w s m w1 Hm H1) as (Hflag & _).
    rewrite (config_flag_raised data w1 (Hflag Hsame)).
    unfold notify. destruct (decide _); [ reflexivity | contradiction ].
  - intros Hne.
    assert (Hoff : restoredFromServer (app w1) = false).
    { rewrite Hw1. unfold notify. destruct (decide _) as [Heq | _].
      - exfalso. apply Hne. rewrite (handle_game_state m w Hm) in Heq.
        exact Heq.
      - apply watcher_flag. }
    rewrite notify_board. unfold upd_app, set_app; proj_simpl.
    apply config_applied. rewrite Hoff. reflexivity.
  - intros wa wb Hd. apply dispatch_inv in Hd as (w0 & Hh & ->).
    simpl in Hh. inversion Hh; subst w0; clear Hh.
    rewrite notify_board. unfold upd_app, set_app; proj_simpl.
    destruct (config_applied true data (app wa) eq_refl) as (? & ? & ? & _).
    auto.
Qed.

Lemma configuration_after_restore_witness :
  exists w1 w2 : World,
    dispatch (EvMessage 0%nat (Parsed sample_state_message)) slave_world
      = Some w1 /\
    game_title (board (app w1)) = "Final" /\
    dispatch (EvConfigLoaded false sample_init_data) w1 = Some w2 /\
    game_title (board (app w2)) = "Cup" /\
    game_inning (board (app w2)) = 3.
Proof.
  pose (w1 := after [EvMessage 0%nat (Parsed sample_state_message)]
                slave_world).
  pose (w2 := after [EvConfigLoaded false sample_init_data] w1).
  assert (H1 : dispatch (EvMessage 0%nat (Parsed sample_state_message))
                 slave_world = Some w1) by (vm_compute; reflexivity).
  assert (H2 : dispatch (EvConfigLoaded false sample_init_data) w1 = Some w2)
    by (vm_compute; reflexivity).
  destruct (configuration_after_restore slave_world 0%nat
              sample_state_message w1 sample_init_data w2 eq_refl H1 H2)
    as (_ & Hchanged & _).
  destruct Hchanged as (Ht & _ & _ & _ & Hi & _);
    [ vm_compute; discriminate | ].
  exists w1, w2. split; [ exact H1 | ]. split; [ reflexivity | ].
  split; [ exact H2 | ]. split; [ exact Ht | ].
  rewrite Hi. reflexivity.
Defined.

End PublishExtras.

(** ** Further properties of the connection life cycle *)

Section ConnectionExtras.
Import Operation Conn ConnView Backoff.

(** X19. In every world the page can reach at most one reconnect timer
    is pending, at most one socket is other than closed - the one
    [this.socket] refers to - and while a timer is pending every socket is
    closed. *)
Theorem one_timer_one_socket (w : World) :
  reachable w ->
  (forall (t1 t2 : positive) (d1 d2 : Z),
     timers w !! t1 = Some d1 -> timers w !! t2 = Some d2 -> t1 = t2) /\
  (forall (s1 s2 : nat) (st1 st2 : ReadyState),
     sockets w !! s1 = Some st1 -> st1 <> CLOSED ->
     sockets w !! s2 = Some st2 -> st2 <> CLOSED -> s1 = s2) /\
  (forall (s : nat) (st : ReadyState),
     sockets w !! s = Some st -> st <> CLOSED -> socket (app w) = Some s) /\
  (forall (t : positive) (d : Z) (s : nat) (st : ReadyState),
     timers w !! t = Some d -> sockets w !! s = Some st -> st = CLOSED).
Proof.
  intros Hreach.
  apply wf_reachable in Hreach as (_ & _ & Hown & Hlive & Hwait).
  repeat split.
  - intros t1 t2 d1 d2 H1 H2. apply Hown in H1, H2. congruence.
  - intros s1 s2 st1 st2 H1 N1 H2 N2.
    pose proof (Hlive s1 st1 H1 N1). pose proof (Hlive s2 st2 H2 N2).
    congruence.
  - exact Hlive.
  - exact Hwait.
Qed.

Lemma one_timer_one_socket_witness :
  let w := after two_failures created_world in
  timers w !! 3%positive = Some 4000 /\
  forall (s : nat) (st : ReadyState),
    sockets w !! s = Some st -> st = CLOSED.
Proof.
  intros w.
  assert (Hreach : reachable w).
  { exists true, ∅, two_failures. vm_compute. reflexivity. }
  destruct (one_timer_one_socket w Hreach) as (_ & _ & _ & Hwait).
  assert (Ht : timers w !! 3%positive = Some 4000)
    by (vm_compute; reflexivity).
  split; [ exact Ht | ].
  intros s st Hs. exact (Hwait 3%positive 4000 s st Ht Hs).
Defined.

Lemma backoff_inv_same_conn (w w' : World) :
  same_conn w w' -> backoff_inv w -> backoff_inv w'.
Proof.
  unfold same_conn, backoff_inv, backoff_delay.
  intros (E1 & E2 & E3 & E4 & _ & _ & _ & E8 & _).
  rewrite E1, E2, E3, E4, E8. tauto.
Qed.

Lemma backoff_inv_no_timer (w : World) :
  timers w = ∅ ->
  reconnectAttempts (app w) <= maxReconnectAttempts (app w) ->
  backoff_inv w.
Proof.
  intros He Hle. split; [ exact Hle | ].
  intros t delay H. rewrite He, lookup_empty in H. discriminate H.
Qed.

Lemma backoff_inv_schedule (w : World) :
  timers_owned w ->
  reconnectAttempts (app w) <= maxReconnectAttempts (app w) ->
  connectionStatus (app w) = connecting \/
  connectionStatus (app w) = reconnecting ->
  backoff_inv (scheduleReconnect w).
Proof.
  intros Hown Hle Hst.
  destruct (Z.le_gt_cases (maxReconnectAttempts (app w))
                          (reconnectAttempts (app w))) as [Hmax | Hlt].
  - rewrite (scheduleReconnect_terminal w Hown Hmax).
    apply backoff_inv_no_timer; [ reflexivity | exact Hle ].
  - rewrite (scheduleReconnect_arms w Hown Hlt).
    split; [ exact Hle | ].
    intros t delay H. unfold_setters; proj_simpl.
    revert H. unfold_setters; proj_simpl. intros H.
    apply lookup_singleton_Some in H as [_ <-].
    split; [ exact Hlt | ]. split; [ reflexivity | exact Hst ].
Qed.

Lemma backoff_inv_handle (e : Event) (w w' : World) :
  wf w -> backoff_inv w -> handle e w = Some w' -> backoff_inv w'.
Proof.
  intros Hwf Hinv H.
  pose proof Hwf as ((Hmax & Hdelay) & Hatt & Hown & Hlive & Hwait).
  pose proof Hinv as (Hle & Hpending).
  destruct e; simpl in H.
  - destruct (sockets w !! s) as [[| | |]|] eqn:Es; inversion H; subst.
    assert (Hempty : timers w = ∅).
    { apply map_empty. intros t.
      destruct (timers w !! t) as [d|] eqn:Et; [ | reflexivity ].
      pose proof (Hwait t d s CONNECTING Et Es). discriminate. }
    apply backoff_inv_no_timer.
    + unfold handleWebSocketOpen, socket_send.
      case_tests; unfold_setters; proj_simpl; exact Hempty.
    + destruct (open_frame (set_sockets (<[s:=OPEN]> (sockets w)) w))
        as (F1 & _).
      rewrite F1.
      unfold handleWebSocketOpen, socket_send.
      case_tests; unfold_setters; proj_simpl; lia.
  - assert (Hw : w' = handleWebSocketMessage data w)
      by (destruct (sockets w !! s) as [[| | |]|]; inversion H; reflexivity).
    subst w'. eapply backoff_inv_same_conn;
      [ apply same_conn_message | exact Hinv ].
  - destruct (sockets w !! s) as [[| | |]|]; inversion H; subst; exact Hinv.
  - assert (Hw : w' = handleWebSocketClose
                        (set_sockets (<[s:=CLOSED]> (sockets w)) w))
      by (destruct (sockets w !! s) as [[| | |]|]; inversion H; reflexivity).
    subst w'. unfold handleWebSocketClose. case_bool_decide.
    + apply backoff_inv_schedule; [ exact Hown | exact Hle | ].
      right. reflexivity.
    + exact Hinv.
  - destruct (timers w !! t) as [d|] eqn:Et; inversion H; subst.
    destruct (Hpending t d Et) as (Hlt & _ & Hst).
    pose proof (timers_owned_delete w t Hown (Hown t d Et)) as Hempty.
    rewrite Hempty.
    unfold reconnect_timer_fired, connectWebSocket. destruct constructed.
    + apply backoff_inv_no_timer; [ reflexivity | ].
      unfold_setters; proj_simpl. lia.
    + apply backoff_inv_schedule.
      * intros t' d' Ht'. unfold_setters; proj_simpl.
        revert Ht'. unfold_setters; proj_simpl.
        rewrite lookup_empty. discriminate.
      * unfold_setters; proj_simpl. lia.
      * exact Hst.
  - inversion H; subst. eapply backoff_inv_same_conn;
      [ apply same_conn_upd_board | exact Hinv ].
  - inversion H; subst. eapply backoff_inv_same_conn;
      [ apply same_conn_config | exact Hinv ].
  - inversion H; subst. eapply backoff_inv_same_conn;
      [ apply same_conn_upd_board | exact Hinv ].
  - inversion H; subst. eapply backoff_inv_same_conn;
      [ apply same_conn_release | exact Hinv ].
  - inversion H; subst.
    destruct (unmount_frame w) as (_ & F2 & _).
    apply backoff_inv_no_timer.
    + unfold beforeUnmount. rewrite (cancelReconnect_owned w Hown).
      unfold_setters; proj_simpl.
      destruct (socket (app w)) as [s|]; [ | reflexivity ].
      unfold close_socket; proj_simpl.
      destruct (sockets w !! s) as [[| | |]|]; reflexivity.
    + rewrite F2.
      unfold beforeUnmount. rewrite (cancelReconnect_owned w Hown).
      unfold_setters; proj_simpl.
      destruct (socket (app w)) as [s|]; [ | exact Hle ].
      unfold close_socket; proj_simpl.
      destruct (sockets w !! s) as [[| | |]|]; exact Hle.
Qed.

Lemma backoff_inv_run (es : list Event) (w w' : World) :
  wf w -> backoff_inv w -> run es w = Some w' -> backoff_inv w'.
Proof.
  revert w. induction es as [|e es IH]; simpl; intros w Hwf Hinv H.
  - inversion H; subst; assumption.
  - destruct (dispatch e w) as [w1|] eqn:E; [ | discriminate ].
    apply (IH w1); [ eapply wf_dispatch; eassumption | | assumption ].
    apply dispatch_inv in E as (w0 & Hh & ->).
    eapply backoff_inv_same_conn; [ apply same_conn_notify | ].
    eapply backoff_inv_handle; eassumption.
Qed.

Lemma backoff_inv_created (c : bool) (st : gmap string string) :
  backoff_inv (created c (fresh_world st)).
Proof.
  unfold created, connectWebSocket. destruct c.
  - apply backoff_inv_no_timer; [ reflexivity | simpl; lia ].
  - apply backoff_inv_schedule.
    + intros t d H. simpl in H. rewrite lookup_empty in H. discriminate H.
    + simpl. lia.
    + left. reflexivity.
Qed.

Lemma backoff_delay_bounds (a : App) :
  reconnectDelay a = 1000 -> 0 <= reconnectAttempts a ->
  backoff_delay a = Z.min (1000 * 2 ^ reconnectAttempts a) 30000 /\
  1000 <= backoff_delay a <= 30000.
Proof.
  intros Hd Ha. unfold backoff_delay. rewrite Hd. split; [ reflexivity | ].
  pose proof (Z.pow_pos_nonneg 2 (reconnectAttempts a) ltac:(lia) Ha).
  lia.
Qed.

(** X20. In every world the page can reach the attempt count is between
    0 and 10, and a pending timer means that the count is below 10, that
    the timer's delay is min(1000 * 2^attempts, 30000) ms for the current
    count - between 1000 and 30000 - and that the status is [connecting]
    or [reconnecting]: never [connected], never [disconnected]. *)
Theorem pending_timer_matches_attempts (w : World) :
  reachable w ->
  0 <= reconnectAttempts (app w) <= 10 /\
  forall (t : positive) (delay : Z),
    timers w !! t = Some delay ->
    reconnectAttempts (app w) < 10 /\
    delay = Z.min (1000 * 2 ^ reconnectAttempts (app w)) 30000 /\
    1000 <= delay <= 30000 /\
    (connectionStatus (app w) = connecting \/
     connectionStatus (app w) = reconnecting).
Proof.
  intros Hreach. pose proof (wf_reachable w Hreach) as Hwf.
  destruct Hreach as (c & st & es & Hrun).
  pose proof (backoff_inv_run es _ w (wf_created c st)
                (backoff_inv_created c st) Hrun) as (Hle & Hpending).
  destruct Hwf as ((Hmax & Hdelay) & Hatt & _).
  split; [ lia | ].
  intros t delay Ht. destruct (Hpending t delay Ht) as (Hlt & -> & Hst).
  destruct (backoff_delay_bounds (app w) Hdelay Hatt) as (E & Hb).
  split; [ lia | ]. split; [ exact E | ]. split; [ exact Hb | exact Hst ].
Qed.

Lemma pending_timer_matches_attempts_witness :
  let w := after two_failures created_world in
  reconnectAttempts (app w) = 2 /\
  timers w !! 3%positive = Some (Z.min (1000 * 2 ^ 2) 30000) /\
  connectionStatus (app w) = reconnecting.
Proof.
  intros w.
  assert (Hreach : reachable w).
  { exists true, ∅, two_failures. vm_compute. reflexivity. }
  destruct (pending_timer_matches_attempts w Hreach) as (_ & Hpending).
  assert (Ht : timers w !! 3%positive = Some 4000)
    by (vm_compute; reflexivity).
  destruct (Hpending 3%positive 4000 Ht) as (_ & Hd & _ & _).
  split; [ reflexivity | ].
  split; [ rewrite Ht; f_equal; exact Hd | reflexivity ].
Defined.

Lemma cancelReconnect_idempotent (w : World) :
  cancelReconnect (cancelReconnect w) = cancelReconnect w.
Proof.
  destruct (reconnectTimer (app w)) as [t|] eqn:E.
  - assert (H : cancelReconnect w =
                upd_app (set_reconnectTimer None)
                  (set_timers (delete t (timers w)) w))
      by (unfold cancelReconnect; rewrite E; reflexivity).
    rewrite H. reflexivity.
  - assert (H : cancelReconnect w = w)
      by (unfold cancelReconnect; rewrite E; reflexivity).
    rewrite !H. reflexivity.
Qed.

Lemma beforeUnmount_frame (w : World) :
  connectionStatus (app (beforeUnmount w)) = connectionStatus (app w) /\
  reconnectAttempts (app (beforeUnmount w)) = reconnectAttempts (app w) /\
  maxReconnectAttempts (app (beforeUnmount w)) =
    maxReconnectAttempts (app w) /\
  reconnectDelay (app (beforeUnmount w)) = reconnectDelay (app w) /\
  next_timer (beforeUnmount w) = next_timer w /\
  socket (app (beforeUnmount w)) = socket (app w) /\
  reconnectTimer (app (beforeUnmount w)) = None.
Proof.
  unfold beforeUnmount, cancelReconnect.
  destruct (reconnectTimer (app w)) as [t|] eqn:E.
  - unfold_setters; proj_simpl.
    destruct (socket (app w)) as [s|] eqn:Es;
      [ | repeat split; congruence ].
    unfold close_socket; proj_simpl.
    destruct (sockets w !! s) as [[| | |]|]; proj_simpl;
      repeat split; congruence.
  - destruct (socket (app w)) as [s|] eqn:Es;
      [ | repeat split; congruence ].
    unfold close_socket.
    destruct (sockets w !! s) as [[| | |]|]; unfold_setters; proj_simpl;
      repeat split; congruence.
Qed.

Lemma beforeUnmount_sockets (w : World) (s : nat) :
  sockets (beforeUnmount w) !! s =
  if decide (socket (app w) = Some s) then
    match sockets w !! s with
    | Some CONNECTING | Some OPEN => Some CLOSING
    | other => other
    end
  else sockets w !! s.
Proof.
  unfold beforeUnmount.
  destruct (cancelReconnect_frame w) as (_ & _ & _ & _ & F5 & F6 & _).
  simpl in F5, F6. rewrite F5.
  destruct (socket (app w)) as [c|]; [ | rewrite F6; case_decide;
                                         [ discriminate | reflexivity ] ].
  unfold close_socket. rewrite F6.
  case_decide as Hc.
  - injection Hc as ->.
    destruct (sockets w !! s) as [[| | |]|] eqn:Es;
      unfold_setters; proj_simpl; rewrite ?F6, ?lookup_insert_eq;
      try reflexivity; exact Es.
  - assert (c <> s) by congruence.
    destruct (sockets w !! c) as [[| | |]|];
      unfold_setters; proj_simpl; rewrite ?F6, ?lookup_insert_ne by assumption;
      reflexivity.
Qed.

Lemma beforeUnmount_no_timer (w : World) :
  timers_owned w -> timers (beforeUnmount w) = ∅.
Proof.
  intros Hown. unfold beforeUnmount. rewrite (cancelReconnect_owned w Hown).
  unfold_setters; proj_simpl.
  destruct (socket (app w)) as [s|]; [ | reflexivity ].
  unfold close_socket; proj_simpl.
  destruct (sockets w !! s) as [[| | |]|]; reflexivity.
Qed.

(** X21. Tearing the page down leaves nothing pending: in every world
    the page can reach, [beforeUnmount] leaves no timer, no socket open or
    connecting, and keeps status, board and sent messages; a second
    teardown changes nothing, and [cancelReconnect] is idempotent in any
    state. *)
Theorem teardown_leaves_nothing_pending (w : World) :
  reachable w ->
  timers (beforeUnmount w) = ∅ /\
  reconnectTimer (app (beforeUnmount w)) = None /\
  no_active_socket (beforeUnmount w) /\
  connectionStatus (app (beforeUnmount w)) = connectionStatus (app w) /\
  board (app (beforeUnmount w)) = board (app w) /\
  sent (beforeUnmount w) = sent w /\
  beforeUnmount (beforeUnmount w) = beforeUnmount w /\
  (forall w0 : World,
     cancelReconnect (cancelReconnect w0) = cancelReconnect w0).
Proof.
  intros Hreach.
  apply wf_reachable in Hreach as (_ & _ & Hown & Hlive & _).
  destruct (unmount_frame w) as (U1 & _ & _ & U4 & _ & U6 & _).
  destruct (beforeUnmount_frame w) as (_ & _ & _ & _ & _ & B6 & B7).
  assert (Hactive : no_active_socket (beforeUnmount w)).
  { intros s. rewrite beforeUnmount_sockets.
    case_decide as Hc.
    - destruct (sockets w !! s) as [[| | |]|]; split; discriminate.
    - destruct (sockets w !! s) as [st|] eqn:Es; [ | split; discriminate ].
      destruct (decide (st = CLOSED)) as [->|Hne]; [ split; discriminate | ].
      exfalso. apply Hc. exact (Hlive s st Es Hne). }
  split; [ exact (beforeUnmount_no_timer w Hown) | ].
  split; [ exact B7 | ]. split; [ exact Hactive | ].
  split; [ exact U1 | ]. split; [ exact U4 | ]. split; [ exact U6 | ].
  split; [ | exact cancelReconnect_idempotent ].
  assert (Hc : cancelReconnect (beforeUnmount w) = beforeUnmount w)
    by (unfold cancelReconnect; rewrite B7; reflexivity).
  unfold beforeUnmount at 1. rewrite Hc, B6.
  destruct (socket (app w)) as [s|]; [ | reflexivity ].
  unfold close_socket. destruct (Hactive s) as (Hno & Hnc).
  destruct (sockets (beforeUnmount w) !! s) as [[| | |]|];
    try reflexivity; congruence.
Qed.

Lemma teardown_leaves_nothing_pending_witness :
  let w := after two_failures created_world in
  timers w = {[ 3%positive := 4000 ]} /\
  timers (beforeUnmount w) = ∅ /\
  timers (beforeUnmount master_world) = ∅ /\
  sockets (beforeUnmount master_world) !! 0%nat = Some CLOSING.
Proof.
  intros w.
  assert (Hreach : reachable w).
  { exists true, ∅, two_failures. vm_compute. reflexivity. }
  assert (Hreach' : reachable master_world).
  { exists true, ∅,
      [EvOpen 0%nat;
       EvMessage 0%nat (Parsed (role_assignment "master" (Some "T1")))].
    vm_compute. reflexivity. }
  destruct (teardown_leaves_nothing_pending w Hreach) as (H1 & _).
  destruct (teardown_leaves_nothing_pending master_world Hreach')
    as (H2 & _).
  split; [ vm_compute; reflexivity | ].
  split; [ exact H1 | ]. split; [ exact H2 | vm_compute; reflexivity ].
Defined.

Lemma run_snoc (es : list Event) (e : Event) (w0 w w' : World) :
  run es w0 = Some w -> dispatch e w = Some w' ->
  run (es ++ [e])%list w0 = Some w'.
Proof.
  revert w0. induction es as [|e0 es IH]; simpl; intros w0 Hrun Hd.
  - inversion Hrun; subst. rewrite Hd. reflexivity.
  - destruct (dispatch e0 w0); [ apply IH; assumption | discriminate ].
Qed.

Lemma close_arms_timer (w : World) (s : nat) (w' : World) :
  wf w -> connectionStatus (app w) <> disconnected ->
  reconnectAttempts (app w) < 10 ->
  dispatch (EvClose s) w = Some w' ->
  connectionStatus (app w') = reconnecting /\
  timers w' =
    {[ next_timer w :=
         Z.min (1000 * 2 ^ reconnectAttempts (app w)) 30000 ]} /\
  reconnectTimer (app w') = Some (next_timer w).
Proof.
  intros ((Hmax & Hdelay) & _ & Hown & _) Hstatus Hlt H.
  apply dispatch_inv in H as (w0 & Hh & ->). simpl in Hh.
  assert (Hw0 : w0 = handleWebSocketClose
                       (set_sockets (<[s:=CLOSED]> (sockets w)) w))
    by (destruct (sockets w !! s) as [[| | |]|]; inversion Hh; reflexivity).
  clear Hh.
  destruct (same_conn_notify w w0) as (E1 & _ & _ & _ & E5 & _ & _ & E8 & _).
  rewrite E1, E5, E8. subst w0.
  unfold handleWebSocketClose.
  rewrite bool_decide_eq_true_2 by exact Hstatus.
  set (W := upd_app (set_connectionStatus reconnecting)
              (set_sockets (<[s:=CLOSED]> (sockets w)) w)).
  assert (W1 : connectionStatus (app W) = reconnecting) by reflexivity.
  assert (W2 : reconnectAttempts (app W) = reconnectAttempts (app w))
    by reflexivity.
  assert (W3 : maxReconnectAttempts (app W) = 10) by exact Hmax.
  assert (W4 : reconnectDelay (app W) = 1000) by exact Hdelay.
  assert (W5 : next_timer W = next_timer w) by reflexivity.
  assert (W6 : timers_owned W) by exact Hown.
  clearbody W.
  rewrite scheduleReconnect_arms; [ | exact W6 | rewrite W2, W3; exact Hlt ].
  unfold backoff_delay. unfold_setters; proj_simpl.
  rewrite W1, W2, W4, W5. repeat split.
Qed.

(** X22. Teardown does not end the reconnection: it closes the socket
    without marking the connection as finished, so when the close event of
    that socket arrives afterwards (status not [disconnected], fewer than
    ten attempts) the close handler sets the status to [reconnecting] and
    arms a new reconnect timer with the backoff delay. *)
Theorem close_after_teardown_reconnects (w : World) (s : nat)
        (w1 w2 : World) :
  reachable w ->
  connectionStatus (app w) <> disconnected ->
  reconnectAttempts (app w) < 10 ->
  dispatch EvUnmount w = Some w1 ->
  dispatch (EvClose s) w1 = Some w2 ->
  timers w1 = ∅ /\
  connectionStatus (app w2) = reconnecting /\
  timers w2 =
    {[ next_timer w :=
         Z.min (1000 * 2 ^ reconnectAttempts (app w)) 30000 ]} /\
  reconnectTimer (app w2) = Some (next_timer w).
Proof.
  intros Hreach Hstatus Hlt H1 H2.
  assert (Hreach1 : reachable w1).
  { destruct Hreach as (c & st & es & Hrun).
    exists c, st, (es ++ [EvUnmount])%list.
    eapply run_snoc; eassumption. }
  pose proof (beforeUnmount_no_timer w
                (proj1 (proj2 (proj2 (wf_reachable w Hreach))))) as T1.
  pose proof (wf_reachable w1 Hreach1) as Hwf1.
  apply dispatch_inv in H1 as (w0 & Hh & Hw1). simpl in Hh.
  inversion Hh; subst w0; clear Hh.
  destruct (unmount_frame w) as (_ & _ & _ & U4 & _).
  assert (Hw1' : w1 = beforeUnmount w).
  { rewrite Hw1. unfold notify.
    destruct (decide _); [ reflexivity | contradiction ]. }
  destruct (beforeUnmount_frame w) as (B1 & B2 & _ & _ & B5 & _).
  rewrite <- Hw1' in B1, B2, B5, T1.
  split; [ exact T1 | ].
  rewrite <- B2, <- B5.
  apply (close_arms_timer w1 s w2 Hwf1); [ congruence | lia | exact H2 ].
Qed.

Lemma close_after_teardown_reconnects_witness :
  exists w1 w2 : World,
    dispatch EvUnmount master_world = Some w1 /\
    dispatch (EvClose 0%nat) w1 = Some w2 /\
    connectionStatus (app w2) = reconnecting /\
    timers w2 = {[ 1%positive := 1000 ]}.
Proof.
  pose (w1 := after [EvUnmount] master_world).
  pose (w2 := after [EvClose 0%nat] w1).
  assert (Hreach : reachable master_world).
  { exists true, ∅,
      [EvOpen 0%nat;
       EvMessage 0%nat (Parsed (role_assignment "master" (Some "T1")))].
    vm_compute. reflexivity. }
  assert (H1 : dispatch EvUnmount master_world = Some w1)
    by (vm_compute; reflexivity).
  assert (H2 : dispatch (EvClose 0%nat) w1 = Some w2)
    by (vm_compute; reflexivity).
  destruct (close_after_teardown_reconnects master_world 0%nat w1 w2 Hreach)
    as (_ & Hst & Ht & _);
    [ vm_compute; discriminate | vm_compute; reflexivity | exact H1
    | exact H2 | ].
  exists w1, w2. split; [ exact H1 | ]. split; [ exact H2 | ].
  split; [ exact Hst | exact Ht ].
Defined.

Lemma run_app (es1 es2 : list Event) (w0 w w' : World) :
  run es1 w0 = Some w -> run es2 w = Some w' ->
  run (es1 ++ es2)%list w0 = Some w'.
Proof.
  revert w0. induction es1 as [|e es IH]; simpl; intros w0 H1 H2.
  - inversion H1; subst. exact H2.
  - destruct (dispatch e w0); [ apply IH; assumption | discriminate ].
Qed.

Lemma reachable_run (es : list Event) (w w' : World) :
  reachable w -> run es w = Some w' -> reachable w'.
Proof.
  intros (c & st & es0 & H0) H. exists c, st, (es0 ++ es)%list.
  eapply run_app; eassumption.
Qed.

Lemma close_sockets (w : World) :
  sockets (handleWebSocketClose w) = sockets w /\
  next_socket (handleWebSocketClose w) = next_socket w.
Proof.
  unfold handleWebSocketClose. case_bool_decide; [ | tauto ].
  destruct (scheduleReconnect_frame
              (upd_app (set_connectionStatus reconnecting) w))
    as (_ & _ & _ & _ & _ & F6 & F7 & _).
  split; [ exact F6 | exact F7 ].
Qed.

Lemma open_sockets (w : World) :
  sockets (handleWebSocketOpen w) = sockets w /\
  next_socket (handleWebSocketOpen w) = next_socket w /\
  socket (app (handleWebSocketOpen w)) = socket (app w) /\
  timers (handleWebSocketOpen w) = timers w.
Proof.
  unfold handleWebSocketOpen, socket_send.
  case_tests; unfold_setters; proj_simpl; repeat split; reflexivity.
Qed.

Lemma timer_sockets (c : bool) (w : World) (s : nat) :
  (s < next_socket w)%nat ->
  sockets (reconnect_timer_fired c w) !! s = sockets w !! s /\
  (next_socket w <= next_socket (reconnect_timer_fired c w))%nat.
Proof.
  intros Hs. unfold reconnect_timer_fired, connectWebSocket. destruct c.
  - unfold_setters; proj_simpl.
    rewrite lookup_insert_ne by lia. split; [ reflexivity | lia ].
  - destruct (scheduleReconnect_frame
                (upd_app (fun a => set_reconnectAttempts
                                     (reconnectAttempts a + 1) a) w))
      as (_ & _ & _ & _ & _ & F6 & F7 & _).
    rewrite F6, F7. split; [ reflexivity | ].
    unfold_setters; proj_simpl. lia.
Qed.

Lemma fresh_sockets_same_conn (w w' : World) :
  same_conn w w' -> fresh_sockets w -> fresh_sockets w'.
Proof.
  unfold same_conn, fresh_sockets.
  intros (_ & _ & _ & _ & _ & _ & E7 & _ & E9 & _) H.
  rewrite E7, E9. exact H.
Qed.

Lemma fresh_sockets_handle (e : Event) (w w' : World) :
  fresh_sockets w -> handle e w = Some w' -> fresh_sockets w'.
Proof.
  intros Hf H. destruct e; simpl in H.
  - destruct (sockets w !! s) as [[| | |]|] eqn:Es; inversion H; subst.
    destruct (open_sockets (set_sockets (<[s:=OPEN]> (sockets w)) w))
      as (F1 & F2 & _).
    intros s' st'. rewrite F1, F2. unfold_setters; proj_simpl.
    destruct (decide (s = s')) as [<-|Hne].
    + intros _. exact (Hf s CONNECTING Es).
    + rewrite lookup_insert_ne by exact Hne. apply Hf.
  - assert (Hw : w' = handleWebSocketMessage data w)
      by (destruct (sockets w !! s) as [[| | |]|]; inversion H; reflexivity).
    subst w'. eapply fresh_sockets_same_conn;
      [ apply same_conn_message | exact Hf ].
  - destruct (sockets w !! s) as [[| | |]|]; inversion H; subst; exact Hf.
  - destruct (sockets w !! s) as [st|] eqn:Es; [ | discriminate ].
    assert (Hw : w' = handleWebSocketClose
                        (set_sockets (<[s:=CLOSED]> (sockets w)) w))
      by (destruct st; inversion H; reflexivity).
    subst w'.
    destruct (close_sockets (set_sockets (<[s:=CLOSED]> (sockets w)) w))
      as (F1 & F2).
    intros s' st'. rewrite F1, F2. unfold_setters; proj_simpl.
    destruct (decide (s = s')) as [<-|Hne].
    + intros _. exact (Hf s st Es).
    + rewrite lookup_insert_ne by exact Hne. apply Hf.
  - destruct (timers w !! t) as [d|] eqn:Et; inversion H; subst.
    intros s' st'.
    unfold reconnect_timer_fired, connectWebSocket. destruct constructed.
    + unfold_setters; proj_simpl.
      destruct (decide (next_socket w = s')) as [<-|Hne].
      * intros _. lia.
      * rewrite lookup_insert_ne by exact Hne.
        intros Hs. pose proof (Hf s' st' Hs). lia.
    + match goal with
      | |- context [scheduleReconnect ?W] =>
        destruct (scheduleReconnect_frame W)
          as (_ & _ & _ & _ & _ & F6 & F7 & _)
      end.
      rewrite F6, F7. unfold_setters; proj_simpl. apply Hf.
  - inversion H; subst. eapply fresh_sockets_same_conn;
      [ apply same_conn_upd_board | exact Hf ].
  - inversion H; subst. eapply fresh_sockets_same_conn;
      [ apply same_conn_config | exact Hf ].
  - inversion H; subst. eapply fresh_sockets_same_conn;
      [ apply same_conn_upd_board | exact Hf ].
  - inversion H; subst. eapply fresh_sockets_same_conn;
      [ apply same_conn_release | exact Hf ].
  - inversion H; subst.
    destruct (unmount_frame w) as (_ & _ & _ & _ & F5 & _).
    intros s' st'. rewrite F5, beforeUnmount_sockets.
    destruct (sockets w !! s') as [st|] eqn:Es;
      [ intros _; exact (Hf s' st Es) | ].
    case_decide; discriminate.
Qed.

Lemma fresh_sockets_run (es : list Event) (w w' : World) :
  fresh_sockets w -> run es w = Some w' -> fresh_sockets w'.
Proof.
  revert w. induction es as [|e es IH]; simpl; intros w Hf H.
  - inversion H; subst; assumption.
  - destruct (dispatch e w) as [w1|] eqn:E; [ | discriminate ].
    apply (IH w1); [ | assumption ].
    apply dispatch_inv in E as (w0 & Hh & ->).
    eapply fresh_sockets_same_conn; [ apply same_conn_notify | ].
    eapply fresh_sockets_handle; eassumption.
Qed.

Lemma fresh_sockets_reachable (w : World) : reachable w -> fresh_sockets w.
Proof.
  intros (c & st & es & H). eapply fresh_sockets_run; [ | exact H ].
  intros s st'. unfold created, connectWebSocket. destruct c.
  - unfold fresh_world. unfold_setters; proj_simpl.
    destruct (decide (0%nat = s)) as [<-|Hne]; [ intros _; lia | ].
    rewrite lookup_insert_ne by exact Hne. rewrite lookup_empty.
    discriminate.
  - destruct (scheduleReconnect_frame (fresh_world st))
      as (_ & _ & _ & _ & _ & F6 & _).
    rewrite F6. unfold fresh_world; proj_simpl. rewrite lookup_empty.
    discriminate.
Qed.

Lemma since_open_same_conn (s : nat) (w w' : World) :
  same_conn w w' -> since_open s w -> since_open s w'.
Proof.
  unfold same_conn, since_open, session_up.
  intros (E1 & E2 & _ & _ & _ & E6 & E7 & E8 & E9 & _).
  rewrite E1, E2, E6, E7, E8, E9. tauto.
Qed.

(** Once socket [s] has opened, every event keeps [since_open s]: a closed
    socket stays closed, and while the connection is up no timer can fire
    and no other socket can open or close. *)
Lemma since_open_handle (s : nat) (e : Event) (w w' : World) :
  wf w -> since_open s w -> handle e w = Some w' -> since_open s w'.
Proof.
  intros Hwf (Hlt & Hs) H.
  pose proof Hwf as (_ & _ & Hown & Hlive & _).
  destruct e as [s0 | s0 data | s0 | s0 | t c | o | f data | data | c | ];
    simpl in H.
  - (* open *)
    destruct (sockets w !! s0) as [[| | |]|] eqn:Es0; inversion H; subst.
    assert (Hne : s0 <> s).
    { intros ->. destruct Hs as [Hc | (_ & [Ho | Ho] & _)]; congruence. }
    destruct (open_sockets (set_sockets (<[s0:=OPEN]> (sockets w)) w))
      as (F1 & F2 & _).
    destruct Hs as [Hc | (Hsock & _)].
    + split; [ rewrite F2; exact Hlt | ]. left. rewrite F1.
      unfold_setters; proj_simpl.
      rewrite lookup_insert_ne by exact Hne. exact Hc.
    + exfalso. pose proof (Hlive s0 CONNECTING Es0) as Hcur.
      rewrite Hsock in Hcur. apply Hne.
      assert (Some s = Some s0) as [=] by (apply Hcur; discriminate).
      congruence.
  - assert (Hw : w' = handleWebSocketMessage data w)
      by (destruct (sockets w !! s0) as [[| | |]|]; inversion H;
          reflexivity).
    subst w'. eapply since_open_same_conn;
      [ apply same_conn_message | split; assumption ].
  - destruct (sockets w !! s0) as [[| | |]|]; inversion H; subst;
      split; assumption.
  - (* close *)
    destruct (sockets w !! s0) as [st0|] eqn:Es0; [ | discriminate ].
    assert (Hst0 : st0 <> CLOSED) by (intros ->; discriminate).
    assert (Hw : w' = handleWebSocketClose
                        (set_sockets (<[s0:=CLOSED]> (sockets w)) w))
      by (destruct st0; inversion H; reflexivity).
    subst w'.
    destruct (close_sockets (set_sockets (<[s0:=CLOSED]> (sockets w)) w))
      as (F1 & F2).
    split; [ rewrite F2; exact Hlt | ]. left. rewrite F1.
    unfold_setters; proj_simpl.
    destruct (decide (s0 = s)) as [->|Hne];
      [ apply lookup_insert_eq | ].
    rewrite lookup_insert_ne by exact Hne.
    destruct Hs as [Hc | (Hsock & _)]; [ exact Hc | ].
    exfalso. pose proof (Hlive s0 st0 Es0 Hst0) as Hcur.
    rewrite Hsock in Hcur. congruence.
  - (* timer *)
    destruct (timers w !! t) as [d|] eqn:Et; inversion H; subst.
    destruct Hs as [Hc | (_ & _ & _ & _ & Hempty)].
    + destruct (timer_sockets c (set_timers (delete t (timers w)) w) s Hlt)
        as (T1 & T2).
      split; [ revert T2; unfold_setters; proj_simpl; lia | ].
      left. rewrite T1. exact Hc.
    + rewrite Hempty, lookup_empty in Et. discriminate.
  - inversion H; subst. eapply since_open_same_conn;
      [ apply same_conn_upd_board | split; assumption ].
  - inversion H; subst. eapply since_open_same_conn;
      [ apply same_conn_config | split; assumption ].
  - inversion H; subst. eapply since_open_same_conn;
      [ apply same_conn_upd_board | split; assumption ].
  - inversion H; subst. eapply since_open_same_conn;
      [ apply same_conn_release | split; assumption ].
  - (* teardown *)
    inversion H; subst.
    destruct (unmount_frame w) as (U1 & U2 & _ & _ & U5 & _ & U7 & _).
    destruct (beforeUnmount_frame w) as (_ & _ & _ & _ & _ & B6 & _).
    split; [ rewrite U5; exact Hlt | ].
    pose proof (beforeUnmount_sockets w s) as Hlook.
    destruct Hs as [Hc | (Hsock & Hopen & Ha & Hstatus & Hempty)].
    + left. rewrite Hlook, Hc. case_decide; reflexivity.
    + right. unfold session_up.
      rewrite B6, U1, U2, Hlook.
      rewrite decide_True by exact Hsock.
      split; [ exact Hsock | ].
      split; [ right; destruct Hopen as [-> | ->]; reflexivity | ].
      split; [ exact Ha | ]. split; [ exact Hstatus | ].
      apply U7. exact Hempty.
Qed.

Lemma since_open_run (s : nat) (es : list Event) (w w' : World) :
  wf w -> since_open s w -> run es w = Some w' -> since_open s w'.
Proof.
  revert w. induction es as [|e es IH]; simpl; intros w Hwf Hinv H.
  - inversion H; subst; assumption.
  - destruct (dispatch e w) as [w1|] eqn:E; [ | discriminate ].
    apply (IH w1); [ eapply wf_dispatch; eassumption | | assumption ].
    apply dispatch_inv in E as (w0 & Hh & ->).
    eapply since_open_same_conn; [ apply same_conn_notify | ].
    eapply since_open_handle; eassumption.
Qed.

(** The open event of a socket brings its connection up. *)
Lemma open_starts_session (w : World) (s : nat) (w1 : World) :
  wf w -> fresh_sockets w -> dispatch (EvOpen s) w = Some w1 ->
  since_open s w1 /\ session_up s w1.
Proof.
  intros (_ & _ & _ & Hlive & Hwait) Hfresh H.
  apply dispatch_inv in H as (w0 & Hh & ->). simpl in Hh.
  destruct (sockets w !! s) as [[| | |]|] eqn:Es; inversion Hh; subst.
  assert (Hup : session_up s (handleWebSocketOpen
                  (set_sockets (<[s:=OPEN]> (sockets w)) w))).
  { destruct (open_sockets (set_sockets (<[s:=OPEN]> (sockets w)) w))
      as (F1 & _ & F3 & F4).
    destruct (open_frame (set_sockets (<[s:=OPEN]> (sockets w)) w))
      as (A1 & A2 & _).
    unfold session_up. rewrite F1, F3, F4, A1, A2.
    unfold_setters; proj_simpl.
    split; [ apply (Hlive s CONNECTING Es); discriminate | ].
    split; [ left; apply lookup_insert_eq | ].
    split; [ reflexivity | ]. split; [ reflexivity | ].
    apply map_empty. intros t.
    destruct (timers w !! t) as [d|] eqn:Et; [ | reflexivity ].
    pose proof (Hwait t d s CONNECTING Et Es). discriminate. }
  assert (Hlt : (s < next_socket (handleWebSocketOpen
                       (set_sockets (<[s:=OPEN]> (sockets w)) w)))%nat).
  { destruct (open_sockets (set_sockets (<[s:=OPEN]> (sockets w)) w))
      as (_ & F2 & _).
    rewrite F2. exact (Hfresh s CONNECTING Es). }
  assert (Hinv : since_open s (notify w (handleWebSocketOpen
                    (set_sockets (<[s:=OPEN]> (sockets w)) w)))).
  { eapply since_open_same_conn; [ apply same_conn_notify | ].
    split; [ exact Hlt | right; exact Hup ]. }
  split; [ exact Hinv | ].
  destruct Hinv as (_ & [Hc | Hup']); [ | exact Hup' ].
  exfalso.
  destruct (same_conn_notify w (handleWebSocketOpen
              (set_sockets (<[s:=OPEN]> (sockets w)) w)))
    as (_ & _ & _ & _ & _ & _ & E7 & _).
  rewrite E7 in Hc. destruct Hup as (_ & [Ho | Ho] & _); congruence.
Qed.

(** X26. A successful open restarts the backoff: in every world the page
    can reach, when a socket opens and later closes - after any events in
    between - the attempt count is 0 from the open to the close, no timer
    is pending when the close arrives, and the close handler arms a
    reconnect timer of 1000 ms, whatever the attempt count was before the
    open. *)
Theorem backoff_restarts_after_open (w : World) (s : nat)
        (es : list Event) (w1 w1' w2 : World) :
  reachable w ->
  dispatch (EvOpen s) w = Some w1 ->
  run es w1 = Some w1' ->
  dispatch (EvClose s) w1' = Some w2 ->
  reconnectAttempts (app w1) = 0 /\
  connectionStatus (app w1) = connected /\
  reconnectAttempts (app w1') = 0 /\
  connectionStatus (app w1') = connected /\
  timers w1' = ∅ /\
  connectionStatus (app w2) = reconnecting /\
  timers w2 = {[ next_timer w1' := 1000 ]} /\
  reconnectAttempts (app w2) = 0.
Proof.
  intros Hreach H1 Hrun H2.
  assert (Hreach1 : reachable w1)
    by (apply (reachable_run [EvOpen s] w w1 Hreach); simpl; rewrite H1;
        reflexivity).
  pose proof (reachable_run es w1 w1' Hreach1 Hrun) as Hreach1'.
  pose proof (wf_reachable w1 Hreach1) as Hwf1.
  pose proof (wf_reachable w1' Hreach1') as Hwf1'.
  destruct (open_starts_session w s w1 (wf_reachable w Hreach)
              (fresh_sockets_reachable w Hreach) H1)
    as (Hinv1 & (_ & _ & Ha1 & Hst1 & _)).
  pose proof (since_open_run s es w1 w1' Hwf1 Hinv1 Hrun) as (_ & Hs).
  assert (Hup : session_up s w1').
  { destruct Hs as [Hc | Hup]; [ | exact Hup ].
    exfalso. apply dispatch_inv in H2 as (w0 & Hh & _). simpl in Hh.
    rewrite Hc in Hh. discriminate. }
  destruct Hup as (_ & _ & Ha & Hst & Hempty).
  destruct (close_arms_timer w1' s w2 Hwf1') as (C1 & C2 & _);
    [ rewrite Hst; discriminate | lia | exact H2 | ].
  rewrite Ha in C2.
  split; [ exact Ha1 | ]. split; [ exact Hst1 | ].
  split; [ exact Ha | ]. split; [ exact Hst | ]. split; [ exact Hempty | ].
  split; [ exact C1 | ]. split; [ exact C2 | ].
  apply dispatch_inv in H2 as (w0 & Hh & ->). simpl in Hh.
  assert (Hw0 : w0 = handleWebSocketClose
                       (set_sockets (<[s:=CLOSED]> (sockets w1')) w1'))
    by (destruct (sockets w1' !! s) as [[| | |]|]; inversion Hh; reflexivity).
  destruct (same_conn_notify w1' w0) as (_ & E2 & _). rewrite E2, Hw0.
  destruct (close_frame (set_sockets (<[s:=CLOSED]> (sockets w1')) w1'))
    as (F & _).
  rewrite F. exact Ha.
Qed.

Lemma backoff_restarts_after_open_witness :
  let w := after [EvClose 0%nat; EvTimer 1 true; EvClose 1%nat;
                  EvTimer 2 true] created_world in
  let es := [EvMessage 2%nat (Parsed (role_assignment "master" (Some "T1")));
             EvOp Game.OpGameForward;
             EvMessage 2%nat (Parsed Publish.sample_state_message);
             EvOp Game.OpStrikeCountUp; EvUnmount] in
  reconnectAttempts (app w) = 2 /\
  exists w1 w1' w2 : World,
    dispatch (EvOpen 2%nat) w = Some w1 /\
    run es w1 = Some w1' /\
    dispatch (EvClose 2%nat) w1' = Some w2 /\
    reconnectAttempts (app w1') = 0 /\
    timers w2 = {[ 3%positive := 1000 ]}.
Proof.
  intros w es.
  pose (w1 := after [EvOpen 2%nat] w).
  pose (w1' := after es w1).
  pose (w2 := after [EvClose 2%nat] w1').
  assert (Hreach : reachable w).
  { exists true, ∅,
      [EvClose 0%nat; EvTimer 1 true; EvClose 1%nat; EvTimer 2 true].
    vm_compute. reflexivity. }
  assert (H1 : dispatch (EvOpen 2%nat) w = Some w1)
    by (vm_compute; reflexivity).
  assert (Hrun : run es w1 = Some w1') by (vm_compute; reflexivity).
  assert (H2 : dispatch (EvClose 2%nat) w1' = Some w2)
    by (vm_compute; reflexivity).
  destruct (backoff_restarts_after_open w 2%nat es w1 w1' w2
              Hreach H1 Hrun H2)
    as (_ & _ & Ha & _ & _ & _ & Ht & _).
  split; [ reflexivity | ].
  exists w1, w1', w2. split; [ exact H1 | ]. split; [ exact Hrun | ].
  split; [ exact H2 | ]. split; [ exact Ha | exact Ht ].
Defined.

End ConnectionExtras.

(** ** Further properties of the background colour *)

Section ColorExtras.
Import Board.

Lemma lower_hex_facts (c : ascii) :
  is_lower_hex c = true ->
  is_white_space c = false /\ is_hex_digit c = true /\
  lower_hex_digit c = c /\ lower_char c = c.
Proof. each_char c; intros H; try discriminate H; repeat split. Qed.

Lemma lower_char_idempotent (c : ascii) :
  lower_char (lower_char c) = lower_char c.
Proof. each_char c; reflexivity. Qed.

Lemma lower_char_white_space (c : ascii) :
  is_white_space (lower_char c) = is_white_space c.
Proof. each_char c; reflexivity. Qed.

Lemma hex_run_facts (n : nat) (s : string) :
  hex_run n s = true ->
  String.length s = n /\ all_hex s = true /\ no_white_space s = true /\
  lower_hex_digits s = s.
Proof.
  revert s. induction n as [|n IH]; intros [|c s]; simpl; try discriminate.
  - intros _. repeat split.
  - intros H. apply andb_true_iff in H as [Hc Hs].
    destruct (lower_hex_facts c Hc) as (F1 & F2 & F3 & _).
    destruct (IH s Hs) as (I1 & I2 & I3 & I4).
    rewrite F1, F2, F3, I1, I2, I3, I4. repeat split.
Qed.

Lemma trimEnd_no_white_space (s : string) :
  no_white_space s = true -> trimEnd s = s.
Proof.
  induction s as [|c s IH]; simpl; [ reflexivity | ].
  intros H. apply andb_true_iff in H as [Hc Hs]. rewrite (IH Hs).
  apply negb_true_iff in Hc. rewrite Hc. destruct s; reflexivity.
Qed.

Lemma trim_css_hex_color (c : string) :
  is_css_hex_color c = true ->
  exists ds, c = String "#" ds /\ trim c = c /\ hex_run 6 ds = true.
Proof.
  unfold is_css_hex_color. destruct c as [|h ds]; [ discriminate | ].
  destruct (Ascii.eqb_spec h "#") as [->|Hne].
  - intros H. exists ds. split; [ reflexivity | ]. split; [ | exact H ].
    destruct (hex_run_facts 6 ds H) as (_ & _ & Hns & _).
    unfold trim. change (trimStart (String "#" ds)) with (String "#" ds).
    apply trimEnd_no_white_space. simpl. exact Hns.
  - intros H. exfalso.
    destruct h as [[] [] [] [] [] [] [] []]; try discriminate H.
    apply Hne. reflexivity.
Qed.

Lemma validate_css_hex_color (c : string) :
  is_css_hex_color c = true ->
  validateHexColor (JsString c) =
  {| valid := true; normalizedColor := Some c; error := None |}.
Proof.
  intros H. destruct (trim_css_hex_color c H) as (ds & -> & Ht & Hrun).
  destruct (hex_run_facts 6 ds Hrun) as (Hlen & Hhex & _ & Hlow).
  rewrite (normalized_of_hex_color (String "#" ds) ds Ht (or_intror Hlen) Hhex).
  unfold six_digit_form. rewrite Hlow.
  destruct ds as [|a [|b [|c [|d [|e [|f [|x ds]]]]]]]; try discriminate Hlen.
  reflexivity.
Qed.

Lemma valid_result_shape (v : JsValue) :
  valid (validateHexColor v) = true ->
  exists c : string,
    validateHexColor v =
      {| valid := true; normalizedColor := Some c; error := None |} /\
    is_css_hex_color c = true.
Proof.
  destruct v as [| | b | z | s]; try discriminate.
  intros H. apply valid_iff_hex_color in H as (ds & Ht & Hlen & Hhex).
  exists (String "#" (six_digit_form ds)). split.
  - apply normalized_of_hex_color; assumption.
  - simpl. apply six_digit_form_shape; assumption.
Qed.

(** X23. Validation is a normal form: whatever value [validateHexColor]
    accepts, the colour it returns is [#] and six lower-case hexadecimal
    digits, and validating that colour again accepts it and returns it
    unchanged. *)
Theorem normalized_color_is_fixed_point (v : JsValue) (c : string) :
  valid (validateHexColor v) = true ->
  normalizedColor (validateHexColor v) = Some c ->
  is_css_hex_color c = true /\
  validateHexColor (JsString c) =
    {| valid := true; normalizedColor := Some c; error := None |}.
Proof.
  intros Hv Hc. destruct (valid_result_shape v Hv) as (c' & E & Hcss).
  rewrite E in Hc. injection Hc as <-.
  split; [ exact Hcss | apply validate_css_hex_color; exact Hcss ].
Qed.

Lemma normalized_color_is_fixed_point_witness :
  validateHexColor (JsString "#aabbcc") =
    {| valid := true; normalizedColor := Some "#aabbcc"; error := None |}.
Proof.
  apply (normalized_color_is_fixed_point (JsString " #ABC ") "#aabbcc");
    reflexivity.
Defined.

Lemma setBackgroundColor_invariant (v : JsValue) (a : App) :
  is_css_hex_color (defaultBackgroundColor a) = true ->
  is_css_hex_color (backgroundColor (setBackgroundColor v a)) = true /\
  body_style_backgroundColor (setBackgroundColor v a) =
    backgroundColor (setBackgroundColor v a) /\
  defaultBackgroundColor (setBackgroundColor v a) = defaultBackgroundColor a /\
  boardData (setBackgroundColor v a) = boardData a.
Proof.
  intros Hd. unfold setBackgroundColor.
  destruct (valid (validateHexColor v)) eqn:Hv.
  - destruct (valid_result_shape v Hv) as (c & E & Hc). rewrite E. simpl.
    repeat split. exact Hc.
  - simpl. repeat split. exact Hd.
Qed.

(** X24. The colour on the page is always a plain hex colour: starting
    from the initial data, after [setBackgroundColor] has been called with
    any values at all, [backgroundColor] is [#] and six lower-case
    hexadecimal digits, the default colour is still [#ff55ff], the board
    data is untouched and, once a call was made, the style of the page
    body holds the same colour. *)
Theorem background_is_always_hex (vs : list JsValue) :
  is_css_hex_color (backgroundColor (set_colors vs initial_app)) = true /\
  defaultBackgroundColor (set_colors vs initial_app) = "#ff55ff" /\
  boardData (set_colors vs initial_app) = boardData initial_app /\
  (vs <> [] ->
   body_style_backgroundColor (set_colors vs initial_app) =
   backgroundColor (set_colors vs initial_app)).
Proof.
  unfold set_colors.
  assert (Hgen : forall a,
    is_css_hex_color (backgroundColor a) = true ->
    is_css_hex_color (defaultBackgroundColor a) = true ->
    let a' := fold_left (fun a v => setBackgroundColor v a) vs a in
    is_css_hex_color (backgroundColor a') = true /\
    defaultBackgroundColor a' = defaultBackgroundColor a /\
    boardData a' = boardData a /\
    (vs <> [] -> body_style_backgroundColor a' = backgroundColor a')).
  { induction vs as [|v vs IH]; intros a Hb Hd.
    - simpl. repeat split; try assumption. intros H. contradiction.
    - simpl.
      destruct (setBackgroundColor_invariant v a Hd) as (S1 & S2 & S3 & S4).
      destruct (IH (setBackgroundColor v a)) as (I1 & I2 & I3 & I4);
        [ exact S1 | rewrite S3; exact Hd | ].
      split; [ exact I1 | ]. split; [ congruence | ].
      split; [ congruence | ].
      intros _. destruct vs as [|v' vs']; [ exact S2 | ].
      apply I4. discriminate. }
  apply (Hgen initial_app); reflexivity.
Qed.

Lemma background_is_always_hex_witness :
  backgroundColor
    (set_colors [JsString "#0F0"; JsString "red; x"; JsNull] initial_app) =
    "#ff55ff" /\
  body_style_backgroundColor
    (set_colors [JsString "red"; JsString "#0F0"] initial_app) = "#00ff00".
Proof.
  destruct (background_is_always_hex [JsString "red"; JsString "#0F0"])
    as (_ & _ & _ & Hbody).
  split; [ reflexivity | ].
  rewrite Hbody; [ reflexivity | discriminate ].
Defined.

Lemma trimEnd_cons (c : ascii) (s : string) :
  is_white_space c = false -> trimEnd (String c s) = String c (trimEnd s).
Proof. intros H. simpl. rewrite H. destruct (trimEnd s); reflexivity. Qed.

Lemma trimEnd_idempotent (s : string) : trimEnd (trimEnd s) = trimEnd s.
Proof.
  induction s as [|c s IH]; [ reflexivity | ].
  simpl. destruct (trimEnd s) as [|d r] eqn:E.
  - destruct (is_white_space c) eqn:Hc; [ reflexivity | ].
    simpl. rewrite Hc. reflexivity.
  - change (trimEnd (String c (String d r))) with
      (match trimEnd (String d r) with
       | EmptyString =>
         if is_white_space c then EmptyString else String c EmptyString
       | r0 => String c r0
       end).
    rewrite IH. reflexivity.
Qed.

Lemma trimStart_head (s : string) :
  trimStart s = EmptyString \/
  exists (c : ascii) (t : string),
    trimStart s = String c t /\ is_white_space c = false.
Proof.
  induction s as [|c s IH]; [ left; reflexivity | ].
  simpl. destruct (is_white_space c) eqn:Hc; [ exact IH | ].
  right. exists c, s. split; [ reflexivity | exact Hc ].
Qed.

Lemma trim_idempotent (s : string) : trim (trim s) = trim s.
Proof.
  unfold trim. destruct (trimStart_head s) as [-> | (c & t & -> & Hc)];
    [ reflexivity | ].
  rewrite (trimEnd_cons c t Hc). cbn [trimStart]. rewrite Hc.
  rewrite (trimEnd_cons c (trimEnd t) Hc), trimEnd_idempotent.
  reflexivity.
Qed.

Lemma trimStart_toLowerCase (s : string) :
  trimStart (toLowerCase s) = toLowerCase (trimStart s).
Proof.
  induction s as [|c s IH]; [ reflexivity | ].
  simpl. rewrite lower_char_white_space.
  destruct (is_white_space c); [ exact IH | reflexivity ].
Qed.

Lemma trimEnd_toLowerCase (s : string) :
  trimEnd (toLowerCase s) = toLowerCase (trimEnd s).
Proof.
  induction s as [|c s IH]; [ reflexivity | ].
  simpl. rewrite IH, lower_char_white_space.
  destruct (trimEnd s); simpl; [ | reflexivity ].
  destruct (is_white_space c); reflexivity.
Qed.

Lemma toLowerCase_idempotent (s : string) :
  toLowerCase (toLowerCase s) = toLowerCase s.
Proof.
  induction s as [|c s IH]; [ reflexivity | ].
  simpl. rewrite lower_char_idempotent, IH. reflexivity.
Qed.

Lemma toLowerCase_empty (s : string) :
  String.eqb (toLowerCase s) "" = String.eqb s "".
Proof. destruct s; reflexivity. Qed.

Lemma trimStart_append (s t : string) :
  trimStart (s ++ t) =
  match trimStart s with
  | EmptyString => trimStart t
  | r => r ++ t
  end.
Proof.
  induction s as [|c s IH]; [ reflexivity | ].
  simpl. destruct (is_white_space c); [ exact IH | reflexivity ].
Qed.

Lemma trimEnd_trailing (s : string) (c : ascii) :
  is_white_space c = true ->
  trimEnd (s ++ String c EmptyString) = trimEnd s.
Proof.
  intros Hc. induction s as [|d s IH]; simpl; [ rewrite Hc; reflexivity | ].
  rewrite IH. reflexivity.
Qed.

Lemma validate_depends_on_trim (s s' : string) :
  trim s' = trim s ->
  validateHexColor (JsString s') = validateHexColor (JsString s).
Proof. intros H. unfold validateHexColor. rewrite H. reflexivity. Qed.

(** X25. Validation looks only at the trimmed, lower-cased text: a
    string, the string trimmed, the string in lower case, and the string
    with one more white-space character in front or at the end all get
    the same result.  A string that is blank after trimming and a value
    that is not a string are rejected as not being a non-empty string. *)
Theorem validation_ignores_case_and_padding (s : string) :
  validateHexColor (JsString (trim s)) = validateHexColor (JsString s) /\
  validateHexColor (JsString (toLowerCase s)) =
    validateHexColor (JsString s) /\
  (forall c : ascii,
     is_white_space c = true ->
     validateHexColor (JsString (String c s)) =
       validateHexColor (JsString s) /\
     validateHexColor (JsString (s ++ String c EmptyString)) =
       validateHexColor (JsString s)) /\
  trim (trim s) = trim s /\
  (trim s = "" ->
   validateHexColor (JsString s) =
     {| valid := false; normalizedColor := None;
        error := Some "Color must be a non-empty string" |}) /\
  (forall v : JsValue,
     (forall s', v <> JsString s') ->
     validateHexColor v =
       {| valid := false; normalizedColor := None;
          error := Some "Color must be a non-empty string" |}).
Proof.
  split; [ apply validate_depends_on_trim, trim_idempotent | ].
  split.
  { unfold validateHexColor, trim.
    rewrite trimStart_toLowerCase, trimEnd_toLowerCase.
    rewrite toLowerCase_empty, toLowerCase_idempotent. reflexivity. }
  split.
  { intros c Hc. split; apply validate_depends_on_trim; unfold trim.
    - simpl. rewrite Hc. reflexivity.
    - rewrite trimStart_append.
      destruct (trimStart s) as [|d r] eqn:E.
      + simpl. rewrite Hc. reflexivity.
      + apply (trimEnd_trailing (String d r) c Hc). }
  split; [ apply trim_idempotent | ].
  split.
  - intros H. unfold validateHexColor. rewrite H. reflexivity.
  - intros v Hv. destruct v; try reflexivity. exfalso. eapply Hv; eauto.
Qed.

Lemma validation_ignores_case_and_padding_witness :
  validateHexColor (JsString (String " " "#AbC")) =
    validateHexColor (JsString "#AbC") /\
  validateHexColor (JsString "   ") =
    {| valid := false; normalizedColor := None;
       error := Some "Color must be a non-empty string" |}.
Proof.
  destruct (validation_ignores_case_and_padding "#AbC")
    as (_ & _ & Hpad & _).
  destruct (validation_ignores_case_and_padding "   ")
    as (_ & _ & _ & _ & Hblank & _).
  split; [ apply Hpad; reflexivity | apply Hblank; reflexivity ].
Defined.

End ColorExtras.
